(** * fifotest: a shallow embedding of the serial FIFO test program

    The development follows [fifotest.c] function by function.  C integers
    are mathematical integers with their wrap-around written out, bytes are
    [ascii] characters, and everything the program does to the outside
    world (terminal output, generator draws, reads and writes on the two
    devices, the interrupt signal) is recorded in a trace of events. *)

From Stdlib Require Import ZArith List String Ascii Bool Lia.
Import ListNotations.
Open Scope Z_scope.

Infix "+s+" := String.append (at level 60, right associativity).

(** ** Machine integers *)

Definition u8 (x : Z) : Z := x mod 2 ^ 8.
Definition u32 (x : Z) : Z := x mod 2 ^ 32.
Definition u64 (x : Z) : Z := x mod 2 ^ 64.

(** Conversion of a 32-bit pattern to [int]. *)
Definition s32 (x : Z) : Z :=
  let y := u32 x in if y <? 2 ^ 31 then y else y - 2 ^ 32.

Definition MAX_MAX_MSG_LEN : Z := 4096.
Definition DEFAULT_MAX_MSG_LEN : Z := 1024.

(** ** Bytes and buffers *)

Definition byte := ascii.

Definition byte_of_Z (x : Z) : byte := ascii_of_N (Z.to_N (u8 x)).
Definition Z_of_byte (b : byte) : Z := Z.of_N (N_of_ascii b).

(** [buf[i]] for a pointer [buf] modelled as the bytes it points to. *)
Definition at_index (buf : list byte) (i : Z) : byte :=
  nth (Z.to_nat i) buf zero.

Definition byte_count (l : list byte) : Z := Z.of_nat (List.length l).

(** [buf + i]. *)
Definition advance (buf : list byte) (i : Z) : list byte :=
  skipn (Z.to_nat i) buf.

(** The indices visited by [for (i = lo; i < hi; i++)]. *)
Definition range (lo hi : Z) : list Z :=
  map (fun k => lo + Z.of_nat k) (seq 0 (Z.to_nat (hi - lo))).

(** ** Threads, events and traces *)

Inductive thread := MainThread | RxThread | TxThread.

Inductive stream := Stdout | Stderr.

Inductive draw :=
| DrawRange (lo hi res : Z)      (* brahe_prng_range(&prng, lo, hi) = res *)
| DrawNext (res : Z).            (* brahe_prng_next(&prng) = res *)

Inductive event :=
| EvOut (f : stream) (text : string)     (* one printf, puts or putchar *)
| EvDraw (who : thread) (d : draw)       (* one call into the generator *)
| EvRead (off count res : Z)             (* read(fd, buf + off, count) = res *)
| EvWrite (count res : Z)                (* write(fd, msg->buf, count) = res *)
| EvSignal (on : thread).                (* SIGINT handled on thread [on] *)

Definition trace := list event.

(** ** printf conversions *)

Definition esc (code : string) : string := String (ascii_of_nat 27) code.

Definition ESC_RED := esc "[31m".
Definition ESC_GREEN := esc "[32m".
Definition ESC_YELLOW := esc "[33m".
Definition ESC_BLUE := esc "[34m".
Definition ESC_PURPLE := esc "[35m".
Definition ESC_RM := esc "[0m".

Definition TAG_TX := ESC_BLUE +s+ "[tx] ".
Definition TAG_RX := ESC_PURPLE +s+ "[rx] ".

Definition NL : string := String (ascii_of_nat 10) EmptyString.

Definition digit_char (d : Z) : ascii :=
  nth (Z.to_nat d) (list_ascii_of_string "0123456789abcdef") "0"%char.

Fixpoint digits (fuel : nat) (base n : Z) (acc : string) : string :=
  match fuel with
  | O => acc
  | S fuel' =>
      let acc' := String (digit_char (n mod base)) acc in
      if n / base =? 0 then acc' else digits fuel' base (n / base) acc'
  end.

Fixpoint zeros (n : nat) : string :=
  match n with O => EmptyString | S n' => String "0"%char (zeros n') end.

(** [%0<width><radix>] of an unsigned value. *)
Definition fmt_radix (base : Z) (width : nat) (n : Z) : string :=
  let s := digits 64 base n EmptyString in
  zeros (width - String.length s) +s+ s.

Definition fmt_u (n : Z) : string := fmt_radix 10 0 (u32 n).      (* %u *)
Definition fmt_llu (n : Z) : string := fmt_radix 10 0 (u64 n).    (* %llu *)
Definition fmt_o (n : Z) : string := fmt_radix 8 0 (u32 n).       (* %o *)
Definition fmt_04x (n : Z) : string := fmt_radix 16 4 (u32 n).    (* %04x *)
Definition fmt_02x (n : Z) : string := fmt_radix 16 2 (u32 n).    (* %02x *)
Definition fmt_d (n : Z) : string :=                              (* %d, %zd *)
  if n <? 0 then "-" +s+ fmt_radix 10 0 (- n) else fmt_radix 10 0 n.

Arguments digits : simpl never.
Arguments fmt_radix : simpl never.
Arguments fmt_d : simpl never.

(** ** Tagged output: thread_prefix, pr_info, pr_warn, pr_error *)

Definition thread_prefix (self : thread) : string :=
  match self with
  | RxThread => TAG_RX
  | TxThread => TAG_TX
  | MainThread => EmptyString
  end.

Definition pr_info (self : thread) (text : string) : event :=
  EvOut Stdout (thread_prefix self +s+ text +s+ ESC_RM).

Definition pr_warn (self : thread) (text : string) : event :=
  EvOut Stdout (thread_prefix self +s+ ESC_YELLOW +s+ text +s+ ESC_RM).

Definition pr_error (self : thread) (text : string) : event :=
  EvOut Stderr (thread_prefix self +s+ ESC_RED +s+ text +s+ ESC_RM).

Definition printf (text : string) : event := EvOut Stdout text.

Definition putchar (c : ascii) : event := EvOut Stdout (String c EmptyString).

Definition puts (text : string) : event := EvOut Stdout (text +s+ NL).

(** ** print_stats *)

Definition stats_line (msgs tx_bytes rx_bytes : Z) : string :=
  "MSG: " +s+ fmt_u msgs +s+ ", TX: " +s+ fmt_llu tx_bytes +s+
  " bytes, RX: " +s+ fmt_llu rx_bytes +s+ " bytes" +s+ NL.

Arguments stats_line : simpl never.

Definition print_stats (self : thread) (msgs tx_bytes rx_bytes : Z) : trace :=
  [pr_warn self (stats_line msgs tx_bytes rx_bytes)].

(** ** print_line, print_buffer *)

Definition printable (b : byte) : ascii :=
  if (32 <=? Z_of_byte b) && (Z_of_byte b <? 127) then b else "."%char.

Definition print_line (self : thread) (index : Z) (buf : list byte) (len : Z)
  : trace :=
  [pr_info self (fmt_04x index +s+ ":")]
  ++ map (fun i => printf (" " +s+ fmt_02x (Z_of_byte (at_index buf i))))
         (range 0 len)
  ++ map (fun _ => printf "   ") (range len 16)
  ++ [printf " |"]
  ++ map (fun i => putchar (printable (at_index buf i))) (range 0 len)
  ++ [puts "|"].

Arguments print_line : simpl never.

(** [min(len - i, 16u)] on unsigned int. *)
Definition row_len (len i : Z) : Z := Z.min (u32 (len - i)) 16.

(** The loop [for (i = ...; i < len; i += 16)] of print_buffer, with the
    unsigned wrap-around of [i]; [None] when the fuel runs out. *)
Fixpoint print_buffer_from (fuel : nat) (self : thread) (buf : list byte)
  (len i : Z) : option trace :=
  match fuel with
  | O => None
  | S fuel' =>
      if i <? len then
        match print_buffer_from fuel' self buf len (u32 (i + 16)) with
        | Some rest =>
            Some (print_line self i (advance buf i) (row_len len i) ++ rest)
        | None => None
        end
      else Some []
  end.

Definition loop_fuel (len : Z) : nat := S (Z.to_nat (len / 16 + 1)).

Definition print_buffer (self : thread) (buf : list byte) (len : Z)
  : option trace :=
  print_buffer_from (loop_fuel len) self buf len 0.

(** ** cmp_line, cmp_buffer *)

(** A [for] loop over the given indices that prints and updates a local
    variable. *)
Fixpoint for_loop {S : Type} (idx : list Z) (body : Z -> S -> trace * S)
  (s : S) : trace * S :=
  match idx with
  | [] => ([], s)
  | i :: idx' =>
      let '(o1, s1) := body i s in
      let '(o2, s2) := for_loop idx' body s1 in
      (o1 ++ o2, s2)
  end.

(** The body of the first loop of cmp_line: print one byte in hex, flagged
    and counted when the two buffers differ there. *)
Definition cmp_hex (buf1 buf2 : list byte) (i res : Z) : trace * Z :=
  if Ascii.eqb (at_index buf1 i) (at_index buf2 i) then
    ([printf (" " +s+ fmt_02x (Z_of_byte (at_index buf1 i)))], res)
  else
    ([printf (" " +s+ ESC_RED +s+
              fmt_02x (Z_of_byte (at_index buf1 i)) +s+ ESC_RM)],
     res + 1).

(** The body of its second loop: the printable character, flagged alike. *)
Definition cmp_char (buf1 buf2 : list byte) (i : Z) : event :=
  let c := printable (at_index buf1 i) in
  if Ascii.eqb (at_index buf1 i) (at_index buf2 i) then putchar c
  else printf (ESC_RED +s+ String c EmptyString +s+ ESC_RM).

Definition cmp_line (self : thread) (address : Z) (buf1 buf2 : list byte)
  (len : Z) : trace * Z :=
  let '(hex, res) := for_loop (range 0 len) (cmp_hex buf1 buf2) 0 in
  ([pr_info self (fmt_04x address +s+ ":")]
   ++ hex
   ++ map (fun _ => printf "   ") (range len 16)
   ++ [printf " |"]
   ++ map (cmp_char buf1 buf2) (range 0 len)
   ++ [puts "|"],
   res).

Arguments cmp_line : simpl never.

(** The loop of cmp_buffer.  Beside the output it hands back the value
    cmp_line returned for each row, which the C code only tests against
    zero. *)
Fixpoint cmp_buffer_from (fuel : nat) (self : thread) (buf1 buf2 : list byte)
  (len i : Z) : option (trace * list Z) :=
  match fuel with
  | O => None
  | S fuel' =>
      if i <? len then
        let '(o, res) :=
          cmp_line self i (advance buf1 i) (advance buf2 i) (row_len len i) in
        let o' :=
          if res =? 0 then o
          else o ++ [pr_info self ("Expected:" +s+ NL)]
                 ++ print_line self i (advance buf2 i) (row_len len i) in
        match cmp_buffer_from fuel' self buf1 buf2 len (u32 (i + 16)) with
        | Some (os, rs) => Some (o' ++ os, res :: rs)
        | None => None
        end
      else Some ([], [])
  end.

Definition cmp_buffer_rows (self : thread) (buf1 buf2 : list byte) (len : Z)
  : option (trace * list Z) :=
  cmp_buffer_from (loop_fuel len) self buf1 buf2 len 0.

Definition cmp_buffer (self : thread) (buf1 buf2 : list byte) (len : Z)
  : option trace :=
  option_map fst (cmp_buffer_rows self buf1 buf2 len).

(** ** memcmp *)

Fixpoint memcmp (s1 s2 : list byte) (n : nat) : Z :=
  match n with
  | O => 0
  | S n' =>
      let a := Z_of_byte (hd zero s1) in
      let b := Z_of_byte (hd zero s2) in
      if a =? b then memcmp (tl s1) (tl s2) n' else a - b
  end.

(** ** The diff renderer in the words of its description

    Rows of 16 bytes, the number of differing bytes of a row, and what is
    printed for row [k]: the compared row and, when it differs, the
    expected row under it. *)

Definition row (k : nat) (b : list byte) : list byte :=
  firstn 16 (skipn (16 * k) b).

Definition row_count (len : Z) : nat := Z.to_nat ((len + 15) / 16).

Definition diff_count (r1 r2 : list byte) : Z :=
  Z.of_nat (List.length
              (filter (fun p => negb (Ascii.eqb (fst p) (snd p)))
                 (combine r1 r2))).

Definition row_offset (k : nat) : Z := 16 * Z.of_nat k.

Definition render_row (self : thread) (b1 b2 : list byte) (k : nat) : trace :=
  let r1 := row k b1 in
  let r2 := row k b2 in
  fst (cmp_line self (row_offset k) r1 r2 (byte_count r1))
  ++ (if 0 <? diff_count r1 r2
      then pr_info self ("Expected:" +s+ NL)
           :: print_line self (row_offset k) r2 (byte_count r2)
      else []).

Definition sum (l : list Z) : Z := fold_right Z.add 0 l.

(** The text of a row, again in the words of the description: the label
    (the byte offset in hex), the bytes of the row in hex, blank cells up
    to 16, and the bytes as characters, a byte outside printable ASCII as
    a dot.  A byte that differs from the byte beside it in [against] is
    flagged, in the hex column and in the text column. *)

Fixpoint concat_text (l : list string) : string :=
  match l with
  | [] => EmptyString
  | s :: l' => s +s+ concat_text l'
  end.

Definition shown_char (b : byte) : ascii :=
  if (32 <=? Z_of_byte b) && (Z_of_byte b <? 127) then b else "."%char.

Definition flagged (differs : bool) (s : string) : string :=
  if differs then ESC_RED +s+ s +s+ ESC_RM else s.

Definition differs (p : byte * byte) : bool :=
  negb (Ascii.eqb (fst p) (snd p)).

Definition row_text (self : thread) (offset : Z) (shown against : list byte)
  : string :=
  let cells := combine shown against in
  thread_prefix self +s+ fmt_04x offset +s+ ":" +s+ ESC_RM +s+
  concat_text
    (map (fun p => " " +s+ flagged (differs p) (fmt_02x (Z_of_byte (fst p))))
       cells) +s+
  concat_text (repeat "   "%string (16 - List.length shown)) +s+
  " |" +s+
  concat_text
    (map (fun p => flagged (differs p) (String (shown_char (fst p)) EmptyString))
       cells) +s+
  "|" +s+ NL.

(** The expected row beneath a row that differs: a line "Expected:" and
    the row of the second buffer, unflagged. *)
Definition expected_text (self : thread) (offset : Z) (expected : list byte)
  : string :=
  thread_prefix self +s+ "Expected:" +s+ NL +s+ ESC_RM +s+
  row_text self offset expected expected.

Definition diff_row_text (self : thread) (b1 b2 : list byte) (k : nat)
  : string :=
  row_text self (row_offset k) (row k b1) (row k b2) +s+
  (if 0 <? diff_count (row k b1) (row k b2)
   then expected_text self (row_offset k) (row k b2)
   else EmptyString).

Definition diff_text (self : thread) (b1 b2 : list byte) (len : Z) : string :=
  concat_text (map (diff_row_text self b1 b2) (seq 0 (row_count len))).

(** ** Options (the opt_* variables) *)

Record options := {
  opt_txdev : option string;
  opt_rxdev : option string;
  opt_seed : Z;
  opt_msglen : Z;
  opt_nmsgs : Z;
  opt_speed : Z;
  opt_verbose : bool
}.

Definition default_options : options :=
  {| opt_txdev := None; opt_rxdev := None; opt_seed := 42;
     opt_msglen := DEFAULT_MAX_MSG_LEN; opt_nmsgs := 0; opt_speed := 0;
     opt_verbose := false |}.

(** [struct msg]: the length field and the bytes that follow it. *)
Record msg := { msg_len : Z; msg_buf : list byte }.

(** ** The outside world

    Each system call is answered by the environment.  A device answers a
    write with an errno or with the number of bytes it is ready to take, and
    a read with an errno or with the bytes that have arrived; the call
    returns at most what was asked for.  A device that has no further
    answer blocks the caller for ever. *)

Inductive sys (A : Type) := Ok (a : A) | Err (errno : Z).
Arguments Ok {A} a.
Arguments Err {A} errno.

Record termios := {
  c_iflag : Z; c_oflag : Z; c_cflag : Z; c_lflag : Z;
  c_ispeed : Z; c_ospeed : Z
}.

Record dev_env := {
  sys_open : sys Z;                   (* open(pathname, flags) *)
  sys_tcgetattr : sys termios;        (* tcgetattr(fd, &termios) *)
  sys_tcsetattr_raw : sys unit;       (* tcsetattr after cfmakeraw *)
  sys_cfsetspeed : sys termios;       (* cfsetspeed(&termios, sym) *)
  sys_tcsetattr_speed : sys unit;     (* tcsetattr after cfsetspeed *)
  sys_tcflush : sys unit              (* tcflush(fd, TCIOFLUSH) *)
}.

Inductive write_answer := WrErr (errno : Z) | WrAccept (n : N).
Inductive read_answer := RdErr (errno : Z) | RdData (data : list byte).

Record tx_env := { tx_dev : dev_env; tx_writes : list write_answer }.
Record rx_env := { rx_dev : dev_env; rx_reads : list read_answer }.

Definition O_RDONLY : Z := 0.
Definition O_WRONLY : Z := 1.
Definition ENOTTY : Z := 25.

(** ** The speed table (Bxxx symbols as in the Linux termbits header) *)

Definition speeds : list (Z * Z) :=
  [ (0, 0); (1, 50); (2, 75); (3, 110); (4, 134); (5, 150); (6, 200);
    (7, 300); (8, 600); (9, 1200); (10, 1800); (11, 2400); (12, 4800);
    (13, 9600); (14, 19200); (15, 38400);
    (4097, 57600); (4098, 115200); (4099, 230400); (4100, 460800);
    (4101, 500000); (4102, 576000); (4103, 921600); (4104, 1000000);
    (4105, 1152000); (4106, 1500000); (4107, 2000000); (4108, 2500000);
    (4109, 3000000); (4110, 3500000); (4111, 4000000) ].

Definition get_speed_val (speed : Z) : Z :=
  match find (fun e => fst e =? speed) speeds with
  | Some e => snd e
  | None => -1
  end.

Definition get_speed_sym (speed : Z) : Z :=
  match find (fun e => snd e =? speed) speeds with
  | Some e => fst e
  | None => u32 (-1)
  end.

(** [%s] of a possibly null string. *)
Definition fmt_s (s : option string) : string :=
  match s with Some t => t | None => "(null)" end.

Definition store (buf : list byte) (off : Z) (data : list byte) : list byte :=
  firstn (Z.to_nat off) buf ++ data
  ++ skipn (Z.to_nat off + List.length data) buf.

(** ** The schedule of a round *)

Inductive order := RxFirst | TxFirst.

Inductive sigint :=
| SigBuild                   (* before the message is built *)
| SigSpawn                   (* after msg_gen, before the workers run *)
| SigRun (on : thread).      (* while main waits in pthread_join *)

Record round_env := {
  r_sigint : option sigint;
  r_order : order;
  r_rx : rx_env;
  r_tx : tx_env
}.

(** ** A small generator, libc and devices for concrete runs *)

Module Sample.

(** A linear congruential generator with 31 bits of state. *)
Definition step (s : Z) : Z := (s * 1103515245 + 12345) mod 2 ^ 31.

(** Seeding: seed zero asks for a seed taken from the clock. *)
Definition init (seed now : Z) : Z :=
  (if seed =? 0 then now else seed) mod 2 ^ 31.

Definition next (s : Z) : Z * Z := (step s, step s).

Definition range (s lo hi : Z) : Z * Z :=
  (lo + step s mod (hi - lo + 1), step s).

Definition strerror (errno : Z) : string := "error " +s+ fmt_d errno.

Fixpoint strtoul_from (s : string) (acc : Z) : Z :=
  match s with
  | EmptyString => acc
  | String c rest =>
      let d := Z.of_nat (nat_of_ascii c) - 48 in
      if (0 <=? d) && (d <=? 9) then strtoul_from rest (10 * acc + d)
      else acc
  end.

Definition strtoul (s : string) : Z := strtoul_from s 0 mod 2 ^ 64.

Definition cfmakeraw (t : termios) : termios := t.

(** A FIFO: it opens and is not a terminal. *)
Definition fifo : dev_env :=
  {| sys_open := Ok 3;
     sys_tcgetattr := Err ENOTTY;
     sys_tcsetattr_raw := Ok tt;
     sys_cfsetspeed := Err 0;
     sys_tcsetattr_speed := Ok tt;
     sys_tcflush := Ok tt |}.

(** A terminal on which every call succeeds. *)
Definition tty : dev_env :=
  {| sys_open := Ok 4;
     sys_tcgetattr :=
       Ok {| c_iflag := 0; c_oflag := 0; c_cflag := 0; c_lflag := 0;
             c_ispeed := 13; c_ospeed := 13 |};
     sys_tcsetattr_raw := Ok tt;
     sys_cfsetspeed :=
       Ok {| c_iflag := 0; c_oflag := 0; c_cflag := 0; c_lflag := 0;
             c_ispeed := 13; c_ospeed := 13 |};
     sys_tcsetattr_speed := Ok tt;
     sys_tcflush := Ok tt |}.

Definition opts : options :=
  {| opt_txdev := Some "tx"%string; opt_rxdev := Some "rx"%string;
     opt_seed := 1;
     opt_msglen := 8; opt_nmsgs := 1; opt_speed := 0;
     opt_verbose := false |}.

(** A message of two bytes. *)
Definition msg2 : msg :=
  {| msg_len := 2; msg_buf := [byte_of_Z 65; byte_of_Z 66] |}.

(** A transmit device that takes one byte per write. *)
Definition tx_bytewise : tx_env :=
  {| tx_dev := tty; tx_writes := [WrAccept 1; WrAccept 1] |}.

(** A transmit device whose first write fails with errno 5. *)
Definition tx_failing : tx_env :=
  {| tx_dev := tty; tx_writes := [WrErr 5] |}.

(** A transmit device that takes a whole message of up to 4096 bytes. *)
Definition tx_good : tx_env :=
  {| tx_dev := fifo; tx_writes := [WrAccept 4096] |}.

(** A receive device that delivers the given chunks. *)
Definition rx_chunks (chunks : list (list byte)) : rx_env :=
  {| rx_dev := fifo; rx_reads := map RdData chunks |}.

(** The message that msg_gen builds from seed 1 with at most 8 bytes, the
    generator state it leaves, and a receiver that is handed the first four
    bytes, the prefix drawn in that state, in short reads. *)
Definition msg7 : msg :=
  {| msg_len := 7;
     msg_buf := map byte_of_Z [231; 148; 61; 50; 131; 0; 57] |}.

Definition built : Z := 486256185.

Definition echo_chunks : list (list byte) :=
  [map byte_of_Z [231]; map byte_of_Z [148; 61]; map byte_of_Z [50]].

Definition round_ok : round_env :=
  {| r_sigint := None; r_order := RxFirst;
     r_rx := rx_chunks echo_chunks; r_tx := tx_good |}.

(** The same round with the transmitter scheduled before the receiver. *)
Definition round_tx_first : round_env :=
  {| r_sigint := None; r_order := TxFirst;
     r_rx := rx_chunks echo_chunks; r_tx := tx_good |}.

Definition args : list string :=
  ["-i"; "1"; "-l"; "8"; "-n"; "1"; "tx"; "rx"]%string.

(** A receive device at end of file: three reads, each of 0 bytes. *)
Definition rx_eof : rx_env :=
  {| rx_dev := fifo; rx_reads := repeat (RdData []) 3 |}.

(** A speed that no terminal has. *)
Definition opts_speed : options :=
  {| opt_txdev := Some "tx"%string; opt_rxdev := Some "rx"%string;
     opt_seed := 1;
     opt_msglen := 8; opt_nmsgs := 1; opt_speed := 12345;
     opt_verbose := false |}.

(** A round that is interrupted once the message has been built. *)
Definition round_interrupted : round_env :=
  {| r_sigint := Some SigSpawn; r_order := RxFirst;
     r_rx := rx_chunks echo_chunks; r_tx := tx_good |}.

(** A round whose receiver is handed four bytes, the last of which is not
    the one that was sent. *)
Definition round_mismatch : round_env :=
  {| r_sigint := None; r_order := RxFirst;
     r_rx := rx_chunks [map byte_of_Z [231; 148; 61; 51]];
     r_tx := tx_good |}.

(** Twenty bytes, a row and a quarter. *)
Definition bytes20 : list byte :=
  map byte_of_Z [70; 73; 70; 79; 32; 116; 101; 115; 116; 32;
                 49; 50; 51; 52; 53; 54; 55; 56; 57; 10].

(** Two readings of the clock, a minute apart. *)
Definition clock : Z := 1700000000.
Definition clock' : Z := 1700000060.

End Sample.

Section Program.

(** The libbrahe generator and the libc functions the program calls. *)
Variable prng_state : Type.
Variable prng_static : prng_state.      (* the zero-filled static object *)
(* brahe_prng_init, applied to the seed and to the reading of the clock at
   the call: the usage text says that seed zero is pseudorandom. *)
Variable brahe_prng_init : Z -> Z -> prng_state.
Variable brahe_prng_next : prng_state -> Z * prng_state.
Variable brahe_prng_range : prng_state -> Z -> Z -> Z * prng_state.
Variable strerror : Z -> string.
Variable strtoul : string -> Z.
Variable cfmakeraw : termios -> termios.

(** *** Global variables *)

Record globals := {
  prng : prng_state;
  rx_bytes : Z;
  tx_bytes : Z;
  msgs : Z;
  rx_buf : list byte;       (* static buf[MAX_MAX_MSG_LEN] of receive_start *)
  log : trace
}.

Definition startup : globals :=
  {| prng := prng_static; rx_bytes := 0; tx_bytes := 0; msgs := 0;
     rx_buf := repeat zero (Z.to_nat MAX_MAX_MSG_LEN); log := [] |}.

Definition set_prng (s : prng_state) (g : globals) : globals :=
  {| prng := s; rx_bytes := rx_bytes g; tx_bytes := tx_bytes g;
     msgs := msgs g; rx_buf := rx_buf g; log := log g |}.
Definition set_rx_bytes (n : Z) (g : globals) : globals :=
  {| prng := prng g; rx_bytes := n; tx_bytes := tx_bytes g;
     msgs := msgs g; rx_buf := rx_buf g; log := log g |}.
Definition set_tx_bytes (n : Z) (g : globals) : globals :=
  {| prng := prng g; rx_bytes := rx_bytes g; tx_bytes := n;
     msgs := msgs g; rx_buf := rx_buf g; log := log g |}.
Definition set_msgs (n : Z) (g : globals) : globals :=
  {| prng := prng g; rx_bytes := rx_bytes g; tx_bytes := tx_bytes g;
     msgs := n; rx_buf := rx_buf g; log := log g |}.
Definition set_rx_buf (b : list byte) (g : globals) : globals :=
  {| prng := prng g; rx_bytes := rx_bytes g; tx_bytes := tx_bytes g;
     msgs := msgs g; rx_buf := b; log := log g |}.
Definition add_log (evs : trace) (g : globals) : globals :=
  {| prng := prng g; rx_bytes := rx_bytes g; tx_bytes := tx_bytes g;
     msgs := msgs g; rx_buf := rx_buf g; log := log g ++ evs |}.

(** *** How a call ends *)

Inductive result (A : Type) :=
| Ret (a : A) (g : globals)       (* the call returns [a] *)
| Exit (code : Z) (g : globals)   (* exit(code) ends the process *)
| Hang (g : globals)              (* the call never returns *)
| Fault (g : globals).            (* access outside an object *)
Arguments Ret {A} a g.
Arguments Exit {A} code g.
Arguments Hang {A} g.
Arguments Fault {A} g.

Definition final {A} (r : result A) : globals :=
  match r with Ret _ g | Exit _ g | Hang g | Fault g => g end.

Definition M (A : Type) : Type := globals -> result A.

Definition ret {A} (a : A) : M A := fun g => Ret a g.

Definition bind {A B} (m : M A) (k : A -> M B) : M B :=
  fun g =>
    match m g with
    | Ret a g' => k a g'
    | Exit c g' => Exit c g'
    | Hang g' => Hang g'
    | Fault g' => Fault g'
    end.

Notation "x <- m ;; k" := (bind m (fun x => k))
  (at level 61, m at next level, right associativity).
Notation "m ;; k" := (bind m (fun _ => k))
  (at level 61, right associativity).

Definition emit (evs : trace) : M unit := fun g => Ret tt (add_log evs g).
Definition exit {A} (code : Z) : M A := fun g => Exit code g.
Definition hang {A} : M A := fun g => Hang g.
Definition fault {A} : M A := fun g => Fault g.
Definition get {A} (f : globals -> A) : M A := fun g => Ret (f g) g.
Definition modify (f : globals -> globals) : M unit := fun g => Ret tt (f g).

(** A printing loop that may fail to end. *)
Definition emit_opt (o : option trace) : M unit :=
  match o with Some evs => emit evs | None => hang end.

(** pr_debug: printed only in verbose mode. *)
Definition pr_debug (o : options) (self : thread) (text : string) : M unit :=
  if opt_verbose o then emit [pr_info self text] else ret tt.

(** *** Calls into the generator, on the global [prng] *)

Definition prng_next (self : thread) : M Z :=
  fun g =>
    let '(x, s) := brahe_prng_next (prng g) in
    Ret x (add_log [EvDraw self (DrawNext x)] (set_prng s g)).

Definition prng_range (self : thread) (lo hi : Z) : M Z :=
  fun g =>
    let '(x, s) := brahe_prng_range (prng g) (u32 lo) (u32 hi) in
    Ret x (add_log [EvDraw self (DrawRange (u32 lo) (u32 hi) x)]
             (set_prng s g)).

(** *** msg_gen

    The allocation is taken to succeed. *)

Fixpoint fill (self : thread) (n : nat) : M (list byte) :=
  match n with
  | O => ret []
  | S n' =>
      x <- prng_next self ;;
      rest <- fill self n' ;;
      ret (byte_of_Z x :: rest)
  end.

Definition msg_gen (self : thread) (len : Z) : M msg :=
  len' <- (if len <? 0
           then r <- prng_range self 1 (- len) ;; ret (s32 r)
           else ret len) ;;
  buf <- fill self (Z.to_nat (u32 len')) ;;
  ret {| msg_len := u32 len'; msg_buf := buf |}.

(** *** msg_dump *)

Definition msg_dump (self : thread) (m : msg) : M unit :=
  emit [pr_info self ("Message with " +s+ fmt_u (msg_len m) +s+
                      " bytes of data" +s+ NL)] ;;
  emit_opt (print_buffer self (msg_buf m) (msg_len m)).

(** *** signal_handler *)

Definition signal_handler {A} (self : thread) : M A :=
  emit [EvSignal self] ;;
  g <- get (fun g => g) ;;
  emit (print_stats self (msgs g) (tx_bytes g) (rx_bytes g)) ;;
  exit (-1).

(** *** device_open *)

Definition on_err {A} (r : sys A) (handler : Z -> M A) : M A :=
  match r with Ok a => ret a | Err errno => handler errno end.

Definition device_open (o : options) (self : thread) (e : dev_env)
  (pathname : option string) (flags : Z) (makeraw : bool) : M Z :=
  pr_debug o self ("Trying to open " +s+ fmt_s pathname +s+ "..." +s+ NL) ;;
  fd <- on_err (sys_open e) (fun errno =>
          emit [pr_error self
                  ("Failed to open " +s+ fmt_s pathname +s+
                   (if flags =? O_WRONLY then " for writing"
                    else if flags =? O_RDONLY then " for reading"
                    else "") +s+
                   ": " +s+ strerror errno +s+ NL)] ;;
          exit (-1)) ;;
  if negb makeraw then ret fd else
  match sys_tcgetattr e with
  | Err errno =>
      if errno =? ENOTTY then
        emit [pr_info self (fmt_s pathname +s+
                            " is not a tty, skipping tty config" +s+ NL)] ;;
        ret fd
      else
        emit [pr_error self ("Failed to get terminal attributes: " +s+
                             strerror errno +s+ NL)] ;;
        exit (-1)
  | Ok t =>
      pr_debug o self ("termios.c_iflag = 0" +s+ fmt_o (c_iflag t) +s+ NL) ;;
      pr_debug o self ("termios.c_oflag = 0" +s+ fmt_o (c_oflag t) +s+ NL) ;;
      pr_debug o self ("termios.c_cflag = 0" +s+ fmt_o (c_cflag t) +s+ NL) ;;
      pr_debug o self ("termios.c_lflag = 0" +s+ fmt_o (c_lflag t) +s+ NL) ;;
      let t := cfmakeraw t in
      on_err (sys_tcsetattr_raw e) (fun errno =>
        emit [pr_error self ("Failed to enable raw mode: " +s+
                             strerror errno +s+ NL)] ;;
        exit (-1)) ;;
      (if negb (opt_speed o =? 0) then
         let sym := s32 (get_speed_sym (opt_speed o)) in
         (if sym =? -1 then
            emit [pr_error self ("Unknown serial speed " +s+
                                 fmt_u (opt_speed o) +s+ NL)] ;;
            exit (-1)
          else ret tt) ;;
         on_err (sys_cfsetspeed e) (fun errno =>
           emit [pr_error self ("Failed to set terminal speed: " +s+
                                strerror errno +s+ NL)] ;;
           exit (-1)) ;;
         on_err (sys_tcsetattr_speed e) (fun errno =>
           emit [pr_error self ("Failed to set speed attribute: " +s+
                                strerror errno +s+ NL)] ;;
           exit (-1))
       else
         pr_debug o self ("Serial speed is " +s+
                          fmt_u (get_speed_val (c_ispeed t)) +s+ "/" +s+
                          fmt_u (get_speed_val (c_ospeed t)) +s+ NL)) ;;
      on_err (sys_tcflush e) (fun errno =>
        emit [pr_error self ("Failed to flush: " +s+
                             strerror errno +s+ NL)] ;;
        exit (-1)) ;;
      ret fd
  end.

(** *** transmit_start *)

Definition transmit_start (o : options) (e : tx_env) (m : msg) : M unit :=
  _ <- device_open o TxThread (tx_dev e) (opt_txdev o) O_WRONLY true ;;
  (if opt_verbose o then msg_dump TxThread m else ret tt) ;;
  match tx_writes e with
  | [] => hang
  | WrErr errno :: _ =>
      emit [EvWrite (msg_len m) (-1)] ;;
      emit [pr_error TxThread ("Write error " +s+ fmt_d errno +s+ NL)] ;;
      exit (-1)
  | WrAccept n :: _ =>
      let res := Z.min (Z.of_N n) (msg_len m) in
      emit [EvWrite (msg_len m) res] ;;
      modify (fun g => set_tx_bytes (u64 (tx_bytes g + res)) g) ;;
      if res <? msg_len m then
        emit [pr_error TxThread ("Short write " +s+ fmt_d res +s+ " < " +s+
                                 fmt_u (msg_len m) +s+ NL)] ;;
        exit (-1)
      else ret tt
  end.

(** *** receive_start

    [read(fd, buf + avail, count)] may fill [count] bytes from offset
    [avail] of the 4096-byte buffer, and memcmp reads [len] bytes of the
    buffer and of the message: a call that would reach past the end of one
    of them is a fault. *)

Fixpoint rx_loop (reads : list read_answer) (len avail : Z) : M unit :=
  if avail <? len then
    match reads with
    | [] => hang
    | a :: reads' =>
        let count := len - avail in
        if MAX_MAX_MSG_LEN <? avail + count then fault else
        match a with
        | RdErr errno =>
            emit [EvRead avail count (-1)] ;;
            emit [pr_error RxThread ("Read error " +s+ fmt_d errno +s+ NL)] ;;
            exit (-1)
        | RdData data =>
            let got := firstn (Z.to_nat count) data in
            let res := byte_count got in
            emit [EvRead avail count res] ;;
            modify (fun g => set_rx_buf (store (rx_buf g) avail got) g) ;;
            modify (fun g => set_rx_bytes (u64 (rx_bytes g + res)) g) ;;
            rx_loop reads' len (u32 (avail + res))
        end
    end
  else ret tt.

Definition receive_start (o : options) (e : rx_env) (m : msg) : M unit :=
  _ <- device_open o RxThread (rx_dev e) (opt_rxdev o) O_RDONLY true ;;
  len <- prng_range RxThread 1 (msg_len m) ;;
  pr_debug o RxThread (ESC_GREEN +s+ "Receiving first " +s+ fmt_u len +s+
                       " bytes of message of size " +s+
                       fmt_u (msg_len m) +s+ NL) ;;
  rx_loop (rx_reads e) len 0 ;;
  buf <- get rx_buf ;;
  if (MAX_MAX_MSG_LEN <? len) || (msg_len m <? len) then fault else
  if negb (memcmp buf (msg_buf m) (Z.to_nat len) =? 0) then
    emit [pr_error RxThread ("Data mismatch" +s+ NL)] ;;
    emit_opt (cmp_buffer RxThread buf (msg_buf m) len) ;;
    g <- get (fun g => g) ;;
    emit (print_stats RxThread (msgs g) (tx_bytes g) (rx_bytes g)) ;;
    exit (-1)
  else
    pr_debug o RxThread (ESC_GREEN +s+ "OK" +s+ NL) ;;
    ret tt.

(** *** usage and the option loop of main *)

Definition usage_text (progname : string) : string :=
  NL +s+ progname +s+ ": [options] <txdev> <rxdev>" +s+ NL +s+ NL +s+
  "Valid options are:" +s+ NL +s+
  "    -h, --help       Display this usage information" +s+ NL +s+
  "    -i, --seed       Initial seed (zero is pseudorandom)" +s+ NL +s+
  "    -l, --len        Maximum message length (default " +s+
  fmt_u DEFAULT_MAX_MSG_LEN +s+ ", must be <= " +s+
  fmt_u MAX_MAX_MSG_LEN +s+ ")" +s+ NL +s+
  "    -n               Number of messages to send (default zero is unlimited)"
  +s+ NL +s+
  "    -s, --speed      Serial speed" +s+ NL +s+
  "    -v, --verbose    Enable verbose mode" +s+ NL +s+ NL.

Definition usage {A} (progname : string) : M A :=
  emit [EvOut Stderr (usage_text progname)] ;;
  exit 1.

Definition is_opt (a short long : string) : bool :=
  String.eqb a short || String.eqb a long.

Definition set_seed (v : Z) (o : options) : options :=
  {| opt_txdev := opt_txdev o; opt_rxdev := opt_rxdev o; opt_seed := v;
     opt_msglen := opt_msglen o; opt_nmsgs := opt_nmsgs o;
     opt_speed := opt_speed o; opt_verbose := opt_verbose o |}.
Definition set_msglen (v : Z) (o : options) : options :=
  {| opt_txdev := opt_txdev o; opt_rxdev := opt_rxdev o;
     opt_seed := opt_seed o; opt_msglen := v; opt_nmsgs := opt_nmsgs o;
     opt_speed := opt_speed o; opt_verbose := opt_verbose o |}.
Definition set_nmsgs (v : Z) (o : options) : options :=
  {| opt_txdev := opt_txdev o; opt_rxdev := opt_rxdev o;
     opt_seed := opt_seed o; opt_msglen := opt_msglen o; opt_nmsgs := v;
     opt_speed := opt_speed o; opt_verbose := opt_verbose o |}.
Definition set_speed (v : Z) (o : options) : options :=
  {| opt_txdev := opt_txdev o; opt_rxdev := opt_rxdev o;
     opt_seed := opt_seed o; opt_msglen := opt_msglen o;
     opt_nmsgs := opt_nmsgs o; opt_speed := v;
     opt_verbose := opt_verbose o |}.
Definition set_verbose (o : options) : options :=
  {| opt_txdev := opt_txdev o; opt_rxdev := opt_rxdev o;
     opt_seed := opt_seed o; opt_msglen := opt_msglen o;
     opt_nmsgs := opt_nmsgs o; opt_speed := opt_speed o;
     opt_verbose := true |}.
Definition set_txdev (v : string) (o : options) : options :=
  {| opt_txdev := Some v; opt_rxdev := opt_rxdev o;
     opt_seed := opt_seed o; opt_msglen := opt_msglen o;
     opt_nmsgs := opt_nmsgs o; opt_speed := opt_speed o;
     opt_verbose := opt_verbose o |}.
Definition set_rxdev (v : string) (o : options) : options :=
  {| opt_txdev := opt_txdev o; opt_rxdev := Some v;
     opt_seed := opt_seed o; opt_msglen := opt_msglen o;
     opt_nmsgs := opt_nmsgs o; opt_speed := opt_speed o;
     opt_verbose := opt_verbose o |}.

(** The [while (argc > 1)] loop over [argv[1..]]; [None] stands for a
    call of usage(). *)
Fixpoint parse_args (args : list string) (o : options) : option options :=
  match args with
  | [] => Some o
  | a :: rest =>
      if is_opt a "-h" "--help" then None
      else if is_opt a "-i" "--seed" then
        match rest with
        | [] => None
        | v :: rest' => parse_args rest' (set_seed (u32 (strtoul v)) o)
        end
      else if is_opt a "-l" "--len" then
        match rest with
        | [] => None
        | v :: rest' =>
            let n := u32 (strtoul v) in
            if (n =? 0) || (MAX_MAX_MSG_LEN <? n) then None
            else parse_args rest' (set_msglen n o)
        end
      else if String.eqb a "-n" then
        match rest with
        | [] => None
        | v :: rest' => parse_args rest' (set_nmsgs (u32 (strtoul v)) o)
        end
      else if is_opt a "-s" "--speed" then
        match rest with
        | [] => None
        | v :: rest' => parse_args rest' (set_speed (u32 (strtoul v)) o)
        end
      else if is_opt a "-v" "--verbose" then parse_args rest (set_verbose o)
      else
        match opt_txdev o, opt_rxdev o with
        | None, _ => parse_args rest (set_txdev a o)
        | Some _, None => parse_args rest (set_rxdev a o)
        | Some _, Some _ => None
        end
  end.

(** *** One round of the loop of main

    The two workers share no variable that both write: the generator and
    [rx_bytes] belong to the receiver, [tx_bytes] to the transmitter.
    Each worker is therefore run as one block; the environment chooses
    which block comes first, and whether an interrupt arrives before the
    message is built, before the workers run, or once they have returned
    or blocked.  A worker that blocks for ever leaves the other one running
    and keeps main in pthread_join.

    Two blocks are coarser than two threads.  The blocks do not show an
    interrupt, or the exit of one worker, that falls between a transfer of
    the other worker and the update of its counter, nor an interrupt that
    is handled while a worker is still printing: with workers running, the
    order of the lines on the terminal and the counters that the handler
    prints depend on the schedule.  What holds of a round under every
    schedule is that it ends the process with exit(-1) as soon as one
    fatal condition is met, that [msgs] does not move before both workers
    have returned, and that the counters agree with the transfers once
    they have; statements about a round are limited to such facts, and
    statements about one worker describe that worker run on its own. *)

Definition both (w1 w2 : M unit) : M unit :=
  fun g =>
    match w1 g with
    | Ret _ g1 => w2 g1
    | Hang g1 =>
        match w2 g1 with
        | Ret _ g2 => Hang g2
        | r => r
        end
    | r => r
    end.

Definition workers (o : options) (e : round_env) (m : msg) : M unit :=
  match r_order e with
  | RxFirst => both (receive_start o (r_rx e) m) (transmit_start o (r_tx e) m)
  | TxFirst => both (transmit_start o (r_tx e) m) (receive_start o (r_rx e) m)
  end.

Definition join_workers (o : options) (e : round_env) (m : msg) : M unit :=
  fun g =>
    match r_sigint e, workers o e m g with
    | Some (SigRun on), Ret _ g' => signal_handler on g'
    | Some (SigRun on), Hang g' => signal_handler on g'
    | _, r => r
    end.

Definition round (o : options) (e : round_env) : M unit :=
  match r_sigint e with
  | Some SigBuild => signal_handler MainThread
  | _ =>
      m <- msg_gen MainThread (s32 (u32 (- opt_msglen o))) ;;
      match r_sigint e with
      | Some SigSpawn => signal_handler MainThread
      | _ => join_workers o e m
      end
  end.

(** *** main *)

Fixpoint main_loop (o : options) (envs : list round_env) : M unit :=
  n <- get msgs ;;
  if (opt_nmsgs o =? 0) || (n <? opt_nmsgs o) then
    match envs with
    | [] => hang
    | e :: envs' =>
        round o e ;;
        modify (fun g => set_msgs (u32 (msgs g + 1)) g) ;;
        main_loop o envs'
    end
  else ret tt.

Definition main_run (o : options) (now : Z) (envs : list round_env) :
  M unit :=
  modify (set_prng (brahe_prng_init (opt_seed o) now)) ;;
  modify (set_msgs 0) ;;
  main_loop o envs ;;
  g <- get (fun g => g) ;;
  emit (print_stats MainThread (msgs g) (tx_bytes g) (rx_bytes g)) ;;
  exit 0.

Definition main (progname : string) (args : list string) (now : Z)
  (envs : list round_env) : result unit :=
  match parse_args args default_options with
  | None => usage progname startup
  | Some o =>
      match opt_rxdev o with
      | None => usage progname startup
      | Some _ => main_run o now envs startup
      end
  end.

(** ** Reading a trace *)

Definition is_stdout (ev : event) : bool :=
  match ev with EvOut Stdout _ => true | _ => false end.

Definition is_out (ev : event) : bool :=
  match ev with EvOut _ _ => true | _ => false end.

Definition is_draw (ev : event) : bool :=
  match ev with EvDraw _ _ => true | _ => false end.

(** The events of a fatal condition: a failed read, a failed or short
    write, an error report on stderr, an interrupt. *)
Definition fatal_event (ev : event) : bool :=
  match ev with
  | EvOut Stderr _ => true
  | EvSignal _ => true
  | EvRead _ _ res => res <? 0
  | EvWrite count res => res <? count
  | _ => false
  end.

Definition draws (tr : trace) : list (thread * draw) :=
  flat_map (fun ev => match ev with EvDraw who d => [(who, d)] | _ => [] end) tr.

(** Lengths of the messages built by main, and of the prefixes chosen by
    the receiver. *)
Definition msg_lengths_of (ds : list (thread * draw)) : list Z :=
  flat_map (fun d => match d with
                     | (MainThread, DrawRange _ _ res) => [res]
                     | _ => []
                     end) ds.

Definition trunc_lengths_of (ds : list (thread * draw)) : list Z :=
  flat_map (fun d => match d with
                     | (RxThread, DrawRange _ _ res) => [res]
                     | _ => []
                     end) ds.

Definition msg_lengths (tr : trace) : list Z := msg_lengths_of (draws tr).

Definition trunc_lengths (tr : trace) : list Z := trunc_lengths_of (draws tr).

(** Every read asks, at the offset reached so far, for what is still
    missing of [len] bytes. *)
Fixpoint reads_from (len avail : Z) (tr : trace) : Prop :=
  match tr with
  | [] => True
  | EvRead off count res :: tr' =>
      off = avail /\ 0 <= off /\ count = len - avail /\ 0 < count /\
      res <= count /\
      reads_from len (avail + res) tr'
  | _ :: tr' => reads_from len avail tr'
  end.

(** Bytes delivered by the reads of a trace. *)
Definition bytes_read (tr : trace) : Z :=
  sum (flat_map (fun ev => match ev with
                           | EvRead _ _ res => [Z.max res 0]
                           | _ => []
                           end) tr).

Definition read_in_bounds (ev : event) : Prop :=
  match ev with
  | EvRead off count res =>
      0 <= off /\ 0 <= count /\ off + count <= MAX_MAX_MSG_LEN
  | _ => True
  end.

(** The values the C types allow for the global variables. *)
Definition wf (g : globals) : Prop :=
  0 <= rx_bytes g < 2 ^ 64 /\ 0 <= tx_bytes g < 2 ^ 64 /\
  0 <= msgs g < 2 ^ 32 /\
  List.length (rx_buf g) = Z.to_nat MAX_MAX_MSG_LEN.

Definition msg_wf (m : msg) : Prop :=
  0 <= msg_len m < 2 ^ 32 /\ List.length (msg_buf m) = Z.to_nat (msg_len m).

(** receive_start from the comparison on, once the read loop has returned
    with [len] bytes in the buffer. *)
Definition rx_finish (o : options) (m : msg) (len : Z) : M unit :=
  buf <- get rx_buf ;;
  if (MAX_MAX_MSG_LEN <? len) || (msg_len m <? len) then fault else
  if negb (memcmp buf (msg_buf m) (Z.to_nat len) =? 0) then
    emit [pr_error RxThread ("Data mismatch" +s+ NL)] ;;
    emit_opt (cmp_buffer RxThread buf (msg_buf m) len) ;;
    g <- get (fun g => g) ;;
    emit (print_stats RxThread (msgs g) (tx_bytes g) (rx_bytes g)) ;;
    exit (-1)
  else
    pr_debug o RxThread (ESC_GREEN +s+ "OK" +s+ NL) ;;
    ret tt.

(** The options main accepts. *)
Definition opts_ok (o : options) : Prop :=
  1 <= opt_msglen o <= MAX_MAX_MSG_LEN /\ 0 <= opt_nmsgs o < 2 ^ 32.

(** The state in which main enters its loop. *)
Definition loop_entry (o : options) (now : Z) : globals :=
  set_msgs 0 (set_prng (brahe_prng_init (opt_seed o) now) startup).

(** What the parent process sees of exit(code). *)
Definition exit_status (code : Z) : Z := code mod 256.

(** ** The generator on its own *)

(** [n] successive results of brahe_prng_next. *)
Fixpoint next_n (n : nat) (s : prng_state) : list Z * prng_state :=
  match n with
  | O => ([], s)
  | S n' =>
      let '(x, s1) := brahe_prng_next s in
      let '(xs, s2) := next_n n' s1 in
      (x :: xs, s2)
  end.

(** The draws of one whole round, from the generator state alone. *)
Definition round_draws (maxlen : Z) (s : prng_state)
  : list (thread * draw) * prng_state :=
  let '(len, s1) := brahe_prng_range s 1 maxlen in
  let '(xs, s2) := next_n (Z.to_nat len) s1 in
  let '(trunc, s3) := brahe_prng_range s2 1 len in
  ((MainThread, DrawRange 1 maxlen len)
     :: map (fun x => (MainThread, DrawNext x)) xs
     ++ [(RxThread, DrawRange 1 len trunc)],
   s3).

Fixpoint run_draws (k : nat) (maxlen : Z) (s : prng_state)
  : list (thread * draw) :=
  match k with
  | O => []
  | S k' =>
      let '(d, s') := round_draws maxlen s in
      d ++ run_draws k' maxlen s'
  end.

(** ** Plain output

    A trace of stdout output only. *)

Definition all_stdout (tr : trace) : Prop := forallb is_stdout tr = true.

Definition all_out (tr : trace) : Prop := forallb is_out tr = true.

Definition all_draw (tr : trace) : Prop := forallb is_draw tr = true.

(** How the trace of a worker that has called exit(-1) ends: with an error
    line, which follows the failed read or write at once when that was the
    cause; or, after a mismatch, with the error line, the diff and the
    statistics line. *)
Definition tx_exit_shape (m : msg) (new : trace) : Prop :=
  exists pre text,
    new = pre ++ [EvOut Stderr text] /\
    (all_stdout pre
     \/ exists pre' res,
          pre = pre' ++ [EvWrite (msg_len m) res] /\ res < msg_len m).

Definition read_exit_shape (new : trace) : Prop :=
  exists pre off count errno,
    new = pre ++ [EvRead off count (-1);
                  pr_error RxThread ("Read error " +s+ fmt_d errno +s+ NL)].

Definition mismatch_exit_shape (m : msg) (trunc : Z) (g' : globals)
  (new : trace) : Prop :=
  exists pre diff,
    cmp_buffer RxThread (rx_buf g') (msg_buf m) trunc = Some diff /\
    memcmp (rx_buf g') (msg_buf m) (Z.to_nat trunc) <> 0 /\
    new = pre ++ pr_error RxThread ("Data mismatch" +s+ NL)
              :: diff
              ++ print_stats RxThread (msgs g') (tx_bytes g') (rx_bytes g').

Definition rx_exit_shape (m : msg) (trunc : Z) (g' : globals) (new : trace)
  : Prop :=
  (exists pre text, new = pre ++ [EvOut Stderr text] /\ all_stdout pre)
  \/ read_exit_shape new
  \/ mismatch_exit_shape m trunc g' new.

(** A call that only prints:

    Such a call returns after printing on stdout, or prints an error on
    stderr and calls exit(-1); it leaves every variable alone. *)

Definition out_only {A} (m : M A) : Prop :=
  forall g,
    (exists a out, m g = Ret a (add_log out g) /\ forallb is_stdout out = true)
    \/ (exists pre text,
           m g = Exit (-1) (add_log (pre ++ [EvOut Stderr text]) g)
           /\ forallb is_stdout pre = true).

(** ** Further readings of a trace *)

(** Row [k] of a dump of [b]. *)
Definition dump_row (self : thread) (b : list byte) (k : nat) : trace :=
  print_line self (row_offset k) (row k b) (byte_count (row k b)).

(** What the terminal receives: the printed texts, in order. *)
Definition text_of (tr : trace) : string :=
  fold_right (fun ev acc =>
                match ev with EvOut _ t => t +s+ acc | _ => acc end)
    EmptyString tr.

(** The reads of a trace, as (offset, count, result). *)
Definition reads (tr : trace) : list (Z * Z * Z) :=
  flat_map (fun ev => match ev with
                      | EvRead off count res => [(off, count, res)]
                      | _ => []
                      end) tr.

(** Bytes taken by the writes of a trace. *)
Definition bytes_written (tr : trace) : Z :=
  sum (flat_map (fun ev => match ev with
                           | EvWrite _ res => [Z.max res 0]
                           | _ => []
                           end) tr).

(** Events that transfer nothing. *)
Definition quiet (evs : trace) : Prop :=
  bytes_written evs = 0 /\ bytes_read evs = 0.

(** The two byte counters agree with what the trace shows to have been
    transferred, as far as 64 bits can tell. *)
Definition counters_match (g : globals) : Prop :=
  tx_bytes g = u64 (bytes_written (log g)) /\
  rx_bytes g = u64 (bytes_read (log g)).

(** A call that keeps a property of the global state, however it ends. *)
Definition keeps (P : globals -> Prop) {A} (m : M A) : Prop :=
  forall g, P g -> P (final (m g)).

(** The options of main that take a value. *)
Definition value_options : list string :=
  ["-i"; "--seed"; "-l"; "--len"; "-n"; "-s"; "--speed"]%string.

(** The strings main takes for options. *)
Definition option_strings : list string :=
  List.app ["-h"; "--help"; "-v"; "--verbose"]%string value_options.

(** A call of usage() before anything else has happened. *)
Definition usage_exit (progname : string) : result unit :=
  Exit 1 (add_log [EvOut Stderr (usage_text progname)] startup).

(** The speeds of the table. *)
Definition known_speed (v : Z) : Prop := In v (map snd speeds).

(** The statistics line as the terminal receives it. *)
Definition statistics_text (self : thread) (n tx rx : Z) : string :=
  thread_prefix self +s+ ESC_YELLOW +s+ "MSG: " +s+ fmt_u n +s+ ", TX: " +s+
  fmt_llu tx +s+ " bytes, RX: " +s+ fmt_llu rx +s+ " bytes" +s+ NL +s+
  ESC_RM.

(** ** What makes a run end, read off the environment

    The conditions under which a round cannot complete, and those under
    which it does, in terms of what the devices answer and what the
    generator draws; nothing here looks at what the program does. *)

Definition is_ok {A} (r : sys A) : bool :=
  match r with Ok _ => true | Err _ => false end.

Definition speed_known (v : Z) : bool :=
  existsb (fun e => snd e =? v) speeds.

(** A device that can be opened and, if it is a terminal, configured: open
    succeeds; tcgetattr says it is no terminal, or every terminal call
    succeeds and the speed asked for, if any, is one of the table. *)
Definition dev_ok (o : options) (d : dev_env) : bool :=
  is_ok (sys_open d) &&
  match sys_tcgetattr d with
  | Err errno => errno =? ENOTTY
  | Ok _ =>
      is_ok (sys_tcsetattr_raw d) &&
      ((opt_speed o =? 0)
       || (speed_known (opt_speed o) && is_ok (sys_cfsetspeed d)
           && is_ok (sys_tcsetattr_speed d))) &&
      is_ok (sys_tcflush d)
  end.

(** The message of a round that starts in generator state [s], and the
    length of the prefix the receiver will ask for. *)
Definition round_message (maxlen : Z) (s : prng_state) : msg * Z :=
  let '(len, s1) := brahe_prng_range s 1 maxlen in
  let '(xs, s2) := next_n (Z.to_nat len) s1 in
  let '(trunc, _) := brahe_prng_range s2 1 len in
  ({| msg_len := len; msg_buf := map byte_of_Z xs |}, trunc).

(** The fatal conditions of a round: an interrupt, a device that cannot be
    opened or configured, a failed or short write, a failed read, and
    received data that differ from the message. *)
Inductive fatal_cause (o : options) (s : prng_state) (e : round_env) : Prop :=
| CauseInterrupt (sig : sigint) :
    r_sigint e = Some sig -> fatal_cause o s e
| CauseTxDevice :
    dev_ok o (tx_dev (r_tx e)) = false -> fatal_cause o s e
| CauseRxDevice :
    dev_ok o (rx_dev (r_rx e)) = false -> fatal_cause o s e
| CauseWriteError (errno : Z) (ws : list write_answer) :
    dev_ok o (tx_dev (r_tx e)) = true ->
    tx_writes (r_tx e) = WrErr errno :: ws -> fatal_cause o s e
| CauseShortWrite (n : N) (ws : list write_answer) :
    dev_ok o (tx_dev (r_tx e)) = true ->
    tx_writes (r_tx e) = WrAccept n :: ws ->
    Z.of_N n < msg_len (fst (round_message (opt_msglen o) s)) ->
    fatal_cause o s e
| CauseReadError (chunks : list (list byte)) (errno : Z)
    (rest : list read_answer) :
    dev_ok o (rx_dev (r_rx e)) = true ->
    rx_reads (r_rx e) = map RdData chunks ++ RdErr errno :: rest ->
    byte_count (List.concat chunks) < snd (round_message (opt_msglen o) s) ->
    fatal_cause o s e
| CauseMismatch (chunks : list (list byte)) :
    dev_ok o (rx_dev (r_rx e)) = true ->
    rx_reads (r_rx e) = map RdData chunks ->
    byte_count (List.concat chunks) = snd (round_message (opt_msglen o) s) ->
    List.concat chunks
    <> firstn (Z.to_nat (snd (round_message (opt_msglen o) s)))
         (msg_buf (fst (round_message (opt_msglen o) s))) ->
    fatal_cause o s e.

(** A round in which nothing goes wrong: no interrupt, both devices open,
    the write takes the whole message and the reads deliver its prefix. *)
Definition clean_round (o : options) (s : prng_state) (e : round_env)
  : Prop :=
  r_sigint e = None /\
  dev_ok o (tx_dev (r_tx e)) = true /\
  dev_ok o (rx_dev (r_rx e)) = true /\
  (exists n ws,
      tx_writes (r_tx e) = WrAccept n :: ws /\
      msg_len (fst (round_message (opt_msglen o) s)) <= Z.of_N n) /\
  (exists chunks,
      rx_reads (r_rx e) = map RdData chunks /\
      List.concat chunks
      = firstn (Z.to_nat (snd (round_message (opt_msglen o) s)))
          (msg_buf (fst (round_message (opt_msglen o) s)))).

(** [n] clean rounds in a row, the generator going from round to round. *)
Fixpoint clean_run (o : options) (n : nat) (s : prng_state)
  (envs : list round_env) : Prop :=
  match n with
  | O => True
  | S n' =>
      match envs with
      | [] => False
      | e :: envs' =>
          clean_round o s e /\
          clean_run o n' (snd (round_draws (opt_msglen o) s)) envs'
      end
  end.

(** The state in which the loop of main stands after the rounds of [envs]
    have all completed; [None] when one of them does not. *)
Fixpoint run_rounds (o : options) (envs : list round_env) (g : globals)
  : option globals :=
  match envs with
  | [] => Some g
  | e :: envs' =>
      if (opt_nmsgs o =? 0) || (msgs g <? opt_nmsgs o) then
        match round o e g with
        | Ret _ g1 => run_rounds o envs' (set_msgs (u32 (msgs g1 + 1)) g1)
        | _ => None
        end
      else None
  end.
(** * Proofs *)

(** ** Globals and the log *)

Lemma add_log_nil g : add_log [] g = g.
Proof. destruct g. unfold add_log. cbn. rewrite app_nil_r. reflexivity. Qed.

Lemma add_log_app a b g : add_log b (add_log a g) = add_log (a ++ b) g.
Proof. unfold add_log. cbn. rewrite app_assoc. reflexivity. Qed.

(** ** Calls that only print *)

Lemma out_only_ret {A} (a : A) : out_only (ret a).
Proof.
  intros g. left. exists a, []. rewrite add_log_nil. split; reflexivity.
Qed.

Lemma out_only_emit evs : forallb is_stdout evs = true -> out_only (emit evs).
Proof. intros H g. left. exists tt, evs. split; [reflexivity | assumption]. Qed.

Lemma out_only_die {A} self text :
  out_only (A := A) (emit [pr_error self text] ;; exit (-1)).
Proof.
  intros g. right. exists [], (thread_prefix self +s+ ESC_RED +s+ text +s+ ESC_RM).
  split; reflexivity.
Qed.

Lemma out_only_bind {A B} (m : M A) (k : A -> M B) :
  out_only m -> (forall a, out_only (k a)) -> out_only (bind m k).
Proof.
  intros Hm Hk g. unfold bind.
  destruct (Hm g) as [(a & out & -> & Ho) | (pre & text & -> & Hp)].
  - destruct (Hk a (add_log out g)) as [(b & out' & -> & Ho')
                                       | (pre & text & -> & Hp)].
    + left. exists b, (out ++ out'). rewrite add_log_app, forallb_app, Ho, Ho'.
      split; reflexivity.
    + right. exists (out ++ pre), text.
      rewrite add_log_app, app_assoc, forallb_app, Ho, Hp. split; reflexivity.
  - right. exists pre, text. split; [reflexivity | assumption].
Qed.

Lemma out_only_pr_debug o self text : out_only (pr_debug o self text).
Proof.
  unfold pr_debug. destruct (opt_verbose o).
  - apply out_only_emit. reflexivity.
  - apply out_only_ret.
Qed.

Lemma out_only_on_err {A} (r : sys A) (handler : Z -> M A) :
  (forall errno, out_only (handler errno)) -> out_only (on_err r handler).
Proof.
  intros H. destruct r; cbn; [apply out_only_ret | apply H].
Qed.

Ltac out_only_step :=
  first
    [ apply out_only_die
    | apply out_only_ret
    | apply out_only_pr_debug
    | apply out_only_emit; reflexivity
    | apply out_only_on_err; intros ?
    | apply out_only_bind; [| intros ?] ].

Lemma out_only_device_open o self e pathname flags makeraw :
  out_only (device_open o self e pathname flags makeraw).
Proof.
  unfold device_open.
  apply out_only_bind; [apply out_only_pr_debug | intros _].
  apply out_only_bind; [repeat out_only_step | intros fd].
  destruct (negb makeraw); [out_only_step|].
  destruct (sys_tcgetattr e) as [t | errno].
  - do 4 (apply out_only_bind; [apply out_only_pr_debug | intros _]).
    apply out_only_bind; [repeat out_only_step | intros _].
    apply out_only_bind; [| intros _; repeat out_only_step].
    destruct (negb (opt_speed o =? 0)); [| out_only_step].
    apply out_only_bind; [| intros _; repeat out_only_step].
    destruct (s32 (get_speed_sym (opt_speed o)) =? -1); repeat out_only_step.
  - destruct (errno =? ENOTTY); repeat out_only_step.
Qed.

(** Facts about the pure functions do not depend on the generator or on
    libc: their proofs start from a context without them. *)
Ltac pure_context :=
  try clear dependent prng_state;
  try clear strerror; try clear strtoul; try clear cfmakeraw.

(** ** The loops of cmp_line and cmp_buffer *)

Lemma in_range lo hi i : In i (range lo hi) <-> lo <= i < hi.
Proof using. pure_context.
  unfold range. rewrite in_map_iff. split.
  - intros (k & <- & Hk). apply in_seq in Hk. lia.
  - intros H. exists (Z.to_nat (i - lo)). split; [lia|]. apply in_seq. lia.
Qed.

Lemma range_nil lo hi : hi <= lo -> range lo hi = [].
Proof using. pure_context.
  intros H. unfold range. replace (Z.to_nat (hi - lo)) with 0%nat by lia.
  reflexivity.
Qed.

Lemma range_succ (n : nat) :
  range 0 (Z.of_nat (S n)) = 0 :: map Z.succ (range 0 (Z.of_nat n)).
Proof using. pure_context.
  unfold range. rewrite !Z.sub_0_r, !Nat2Z.id. cbn [seq map].
  f_equal. rewrite <- seq_shift, !map_map. apply map_ext. intros k. lia.
Qed.

Lemma at_index_succ a l i : 0 <= i -> at_index (a :: l) (Z.succ i) = at_index l i.
Proof using. pure_context.
  intros H. unfold at_index. rewrite Z2Nat.inj_succ by assumption. reflexivity.
Qed.

Lemma for_loop_map {S} (f : Z -> Z) idx (body : Z -> S -> trace * S) s :
  for_loop (map f idx) body s = for_loop idx (fun i => body (f i)) s.
Proof using. pure_context.
  revert s. induction idx as [|i idx IH]; intros s; cbn; [reflexivity|].
  destruct (body (f i) s) as [o1 s1]. rewrite IH. reflexivity.
Qed.

Lemma for_loop_ext_in {S} idx (body body' : Z -> S -> trace * S) s :
  (forall i t, In i idx -> body i t = body' i t) ->
  for_loop idx body s = for_loop idx body' s.
Proof using. pure_context.
  revert s. induction idx as [|i idx IH]; intros s H; cbn; [reflexivity|].
  rewrite (H i s) by (left; reflexivity).
  destruct (body' i s) as [o1 s1]. rewrite IH; [reflexivity|].
  intros j t Hj. apply H. right. assumption.
Qed.

Lemma diff_count_nonneg r1 r2 : 0 <= diff_count r1 r2.
Proof using. pure_context. unfold diff_count. lia. Qed.

Lemma diff_count_cons a b r1 r2 :
  diff_count (a :: r1) (b :: r2) =
  (if Ascii.eqb a b then 0 else 1) + diff_count r1 r2.
Proof using. pure_context.
  unfold diff_count. cbn. destruct (Ascii.eqb a b); cbn [negb List.length]; lia.
Qed.

(** The counter of cmp_line's first loop. *)
Lemma cmp_hex_count r1 r2 res :
  List.length r1 = List.length r2 ->
  snd (for_loop (range 0 (byte_count r1)) (cmp_hex r1 r2) res)
  = res + diff_count r1 r2.
Proof using. pure_context.
  revert r2 res. induction r1 as [|a r1 IH]; intros [|b r2] res Hlen;
    try discriminate.
  - cbn. unfold diff_count. cbn. lia.
  - unfold byte_count. cbn [List.length]. rewrite range_succ. cbn [for_loop].
    assert (Hshift : forall s,
               for_loop (map Z.succ (range 0 (Z.of_nat (List.length r1))))
                 (cmp_hex (a :: r1) (b :: r2)) s
               = for_loop (range 0 (byte_count r1)) (cmp_hex r1 r2) s).
    { intros s. rewrite for_loop_map. apply for_loop_ext_in.
      intros i t Hi. apply in_range in Hi. unfold cmp_hex.
      rewrite !at_index_succ by lia. reflexivity. }
    rewrite diff_count_cons. unfold cmp_hex at 1.
    change (at_index (a :: r1) 0) with a. change (at_index (b :: r2) 0) with b.
    destruct (Ascii.eqb a b); rewrite Hshift.
    + specialize (IH r2 res (f_equal pred Hlen)).
      destruct (for_loop _ _ res) as [o2 s2]. cbn [snd] in *. lia.
    + specialize (IH r2 (res + 1) (f_equal pred Hlen)).
      destruct (for_loop _ _ (res + 1)) as [o2 s2]. cbn [snd] in *. lia.
Qed.

Lemma cmp_line_count self a r1 r2 :
  List.length r1 = List.length r2 ->
  snd (cmp_line self a r1 r2 (byte_count r1)) = diff_count r1 r2.
Proof using. pure_context.
  intros H. unfold cmp_line.
  pose proof (cmp_hex_count r1 r2 0 H) as E.
  destruct (for_loop _ _ 0) as [hex res]. cbn [snd] in *. lia.
Qed.

(** cmp_line and print_line look at the first [n] bytes only. *)
Lemma cmp_line_ext self a b1 b2 b1' b2' n :
  (forall j, 0 <= j < n -> at_index b1 j = at_index b1' j) ->
  (forall j, 0 <= j < n -> at_index b2 j = at_index b2' j) ->
  cmp_line self a b1 b2 n = cmp_line self a b1' b2' n.
Proof using. pure_context.
  intros H1 H2. unfold cmp_line.
  rewrite (for_loop_ext_in _ (cmp_hex b1 b2) (cmp_hex b1' b2')).
  - destruct (for_loop _ _ 0) as [hex res].
    replace (map (cmp_char b1 b2) (range 0 n))
      with (map (cmp_char b1' b2') (range 0 n)); [reflexivity|].
    apply map_ext_in. intros j Hj. apply in_range in Hj.
    unfold cmp_char. rewrite H1, H2 by assumption. reflexivity.
  - intros j t Hj. apply in_range in Hj. unfold cmp_hex.
    rewrite H1, H2 by assumption. reflexivity.
Qed.

Lemma print_line_ext self a b b' n :
  (forall j, 0 <= j < n -> at_index b j = at_index b' j) ->
  print_line self a b n = print_line self a b' n.
Proof using. pure_context.
  intros H. unfold print_line.
  rewrite (map_ext_in _ (fun i => printf (" " +s+ fmt_02x (Z_of_byte (at_index b' i))))
             (range 0 n)).
  2:{ intros j Hj. apply in_range in Hj. cbv beta. rewrite H by assumption. reflexivity. }
  rewrite (map_ext_in (fun i => putchar (printable (at_index b i)))
             (fun i => putchar (printable (at_index b' i))) (range 0 n)).
  2:{ intros j Hj. apply in_range in Hj. cbv beta. rewrite H by assumption. reflexivity. }
  reflexivity.
Qed.

Lemma at_index_row b len k j :
  0 <= len -> 0 <= j < Z.min (len - row_offset k) 16 ->
  at_index (advance b (row_offset k)) j
  = at_index (row k (firstn (Z.to_nat len) b)) j.
Proof using. pure_context.
  intros Hlen Hj. unfold at_index, advance, row, row_offset in *.
  rewrite nth_firstn.
  replace (Z.to_nat j <? 16)%nat with true by (symmetry; apply Nat.ltb_lt; lia).
  rewrite !nth_skipn. rewrite nth_firstn.
  replace (_ <? _)%nat with true by (symmetry; apply Nat.ltb_lt; lia).
  f_equal. lia.
Qed.

Lemma length_row b len k :
  0 <= len -> (Z.to_nat len <= List.length b)%nat ->
  byte_count (row k (firstn (Z.to_nat len) b))
  = Z.max 0 (Z.min (len - row_offset k) 16).
Proof using. pure_context.
  intros Hlen Hb. unfold byte_count, row, row_offset.
  rewrite length_firstn, length_skipn, length_firstn. lia.
Qed.

Lemma row_count_bounds len :
  0 <= len -> 16 * Z.of_nat (row_count len) - 15 <= len <= 16 * Z.of_nat (row_count len).
Proof using. pure_context.
  intros H. unfold row_count.
  pose proof (Z.div_mod (len + 15) 16 ltac:(lia)).
  pose proof (Z.mod_pos_bound (len + 15) 16 ltac:(lia)).
  assert (0 <= (len + 15) / 16) by (apply Z.div_pos; lia).
  rewrite Z2Nat.id by assumption. lia.
Qed.

Section Rows.
Variable self : thread.
Variables b1 b2 : list byte.
Variable len : Z.
Hypothesis len_lo : 0 <= len.
Hypothesis len_hi : len <= 2 ^ 32 - 16.
Hypothesis len_b1 : (Z.to_nat len <= List.length b1)%nat.
Hypothesis len_b2 : (Z.to_nat len <= List.length b2)%nat.


Lemma cmp_buffer_from_rows d : forall k fuel,
  (k + d = row_count len)%nat -> (d < fuel)%nat ->
  cmp_buffer_from fuel self b1 b2 len (row_offset k)
  = Some (flat_map (render_row self (firstn (Z.to_nat len) b1) (firstn (Z.to_nat len) b2)) (seq k d),
          map (fun k => diff_count (row k (firstn (Z.to_nat len) b1)) (row k (firstn (Z.to_nat len) b2))) (seq k d)).
Proof using self b1 b2 len len_lo len_hi len_b1 len_b2. pure_context.
  pose proof (row_count_bounds len len_lo) as Hrc.
  induction d as [|d IH]; intros k [|fuel] Hk Hfuel; try lia.
  - cbn [cmp_buffer_from seq flat_map map].
    replace (row_offset k <? len) with false; [reflexivity|].
    symmetry. apply Z.ltb_ge. unfold row_offset. lia.
  - cbn [cmp_buffer_from seq flat_map map].
    assert (Hi : row_offset k < len) by (unfold row_offset; lia).
    replace (row_offset k <? len) with true by (symmetry; apply Z.ltb_lt; lia).
    assert (Hrl : row_len len (row_offset k) = Z.min (len - row_offset k) 16).
    { unfold row_len, u32. rewrite Z.mod_small; [reflexivity|].
      unfold row_offset in *. lia. }
    assert (Hn1 : byte_count (row k (firstn (Z.to_nat len) b1)) = row_len len (row_offset k)).
    { rewrite length_row by assumption. lia. }
    assert (Hn2 : byte_count (row k (firstn (Z.to_nat len) b2)) = row_len len (row_offset k)).
    { rewrite length_row by assumption. lia. }
    rewrite (cmp_line_ext self _ _ _ (row k (firstn (Z.to_nat len) b1)) (row k (firstn (Z.to_nat len) b2))).
    2:{ intros j Hj. apply at_index_row; lia. }
    2:{ intros j Hj. apply at_index_row; lia. }
    rewrite (print_line_ext self _ _ (row k (firstn (Z.to_nat len) b2))).
    2:{ intros j Hj. apply at_index_row; lia. }
    rewrite <- Hn1.
    pose proof (cmp_line_count self (row_offset k) (row k (firstn (Z.to_nat len) b1)) (row k (firstn (Z.to_nat len) b2))) as Hc.
    unfold render_row at 1.
    destruct (cmp_line self (row_offset k) (row k (firstn (Z.to_nat len) b1)) (row k (firstn (Z.to_nat len) b2))
                (byte_count (row k (firstn (Z.to_nat len) b1)))) as [o res].
    cbn [fst snd] in *. rewrite Hc by (unfold byte_count in *; lia).
    replace (u32 (row_offset k + 16)) with (row_offset (S k)).
    2:{ unfold u32, row_offset in *. rewrite Z.mod_small; lia. }
    rewrite (IH (S k) fuel) by lia.
    pose proof (diff_count_nonneg (row k (firstn (Z.to_nat len) b1)) (row k (firstn (Z.to_nat len) b2))).
    rewrite Hn1, <- Hn2.
    destruct (Z.eqb_spec (diff_count (row k (firstn (Z.to_nat len) b1)) (row k (firstn (Z.to_nat len) b2))) 0) as [E|E].
    + rewrite E. cbn. rewrite app_nil_r. reflexivity.
    + replace (0 <? _) with true by (symmetry; apply Z.ltb_lt; lia).
      rewrite <- !app_assoc. reflexivity.
Qed.

Lemma cmp_buffer_rows_spec :
  cmp_buffer_rows self b1 b2 len
  = Some (flat_map (render_row self (firstn (Z.to_nat len) b1) (firstn (Z.to_nat len) b2)) (seq 0 (row_count len)),
          map (fun k => diff_count (row k (firstn (Z.to_nat len) b1)) (row k (firstn (Z.to_nat len) b2)))
            (seq 0 (row_count len))).
Proof using self b1 b2 len len_lo len_hi len_b1 len_b2. pure_context.
  unfold cmp_buffer_rows. change 0 with (row_offset 0) at 1.
  apply cmp_buffer_from_rows; [lia|].
  unfold loop_fuel, row_count.
  assert ((len + 15) / 16 <= len / 16 + 1).
  { pose proof (Z.div_mod (len + 15) 16 ltac:(lia)).
    pose proof (Z.mod_pos_bound (len + 15) 16 ltac:(lia)).
    pose proof (Z.div_mod len 16 ltac:(lia)).
    pose proof (Z.mod_pos_bound len 16 ltac:(lia)). lia. }
  lia.
Qed.

End Rows.

(** ** memcmp and the row counts *)

Lemma Z_of_byte_inj a b : Z_of_byte a = Z_of_byte b -> a = b.
Proof using. pure_context.
  unfold Z_of_byte. intros H. apply N2Z.inj in H.
  rewrite <- (ascii_N_embedding a), <- (ascii_N_embedding b), H. reflexivity.
Qed.

Lemma memcmp_zero_iff n : forall s1 s2,
  (n <= List.length s1)%nat -> (n <= List.length s2)%nat ->
  memcmp s1 s2 n = 0 <-> firstn n s1 = firstn n s2.
Proof using. pure_context.
  induction n as [|n IH]; intros [|a s1] [|b s2] H1 H2; cbn in H1, H2; try lia.
  - cbn. tauto.
  - cbn. tauto.
  - cbn. tauto.
  - cbn. tauto.
  - cbn [memcmp firstn hd tl].
    destruct (Z.eqb_spec (Z_of_byte a) (Z_of_byte b)) as [E|E].
    + apply Z_of_byte_inj in E. subst b. rewrite IH by lia.
      split; [intros ->; reflexivity | intros H; injection H; auto].
    + split; [lia|]. intros H. injection H as H _. subst. congruence.
Qed.

Lemma diff_count_zero_iff r1 : forall r2,
  List.length r1 = List.length r2 -> diff_count r1 r2 = 0 <-> r1 = r2.
Proof using. pure_context.
  induction r1 as [|a r1 IH]; intros [|b r2] H; try discriminate.
  - unfold diff_count. cbn. tauto.
  - rewrite diff_count_cons. pose proof (diff_count_nonneg r1 r2).
    specialize (IH r2 (f_equal pred H)).
    destruct (Ascii.eqb_spec a b) as [E|E].
    + subst. split; [intros D; f_equal; apply IH; lia|].
      intros D. injection D as D. apply IH in D. lia.
    + split; [lia|]. intros D. injection D as D _. contradiction.
Qed.

Lemma diff_count_app l1 : forall l2 m1 m2,
  List.length l1 = List.length l2 ->
  diff_count (l1 ++ m1) (l2 ++ m2) = diff_count l1 l2 + diff_count m1 m2.
Proof using. pure_context.
  induction l1 as [|a l1 IH]; intros [|b l2] m1 m2 H; try discriminate.
  - unfold diff_count at 2. cbn. lia.
  - cbn [app]. rewrite !diff_count_cons, IH by (apply (f_equal pred H)). lia.
Qed.

Lemma row_S k p : row (S k) p = row k (skipn 16 p).
Proof using. pure_context.
  unfold row. rewrite skipn_skipn. do 2 f_equal. lia.
Qed.

Lemma sum_row_counts m : forall p1 p2,
  List.length p1 = List.length p2 -> (List.length p1 <= 16 * m)%nat ->
  sum (map (fun k => diff_count (row k p1) (row k p2)) (seq 0 m))
  = diff_count p1 p2.
Proof using. pure_context.
  induction m as [|m IH]; intros p1 p2 Hlen Hm.
  - destruct p1, p2; cbn in *; lia.
  - cbn [seq map sum fold_right]. rewrite <- seq_shift, map_map.
    rewrite (map_ext _ (fun k => diff_count (row k (skipn 16 p1))
                                   (row k (skipn 16 p2)))).
    2:{ intros k. rewrite !row_S. reflexivity. }
    fold (sum (map (fun k => diff_count (row k (skipn 16 p1))
                               (row k (skipn 16 p2))) (seq 0 m))).
    rewrite IH by (rewrite ?length_skipn; lia).
    rewrite <- (firstn_skipn 16 p1) at 3. rewrite <- (firstn_skipn 16 p2) at 3.
    rewrite diff_count_app by (rewrite !length_firstn; lia).
    unfold row. cbn [Nat.mul skipn]. reflexivity.
Qed.

(** ** Events that are plain output *)


Lemma all_stdout_app a b : all_stdout a -> all_stdout b -> all_stdout (a ++ b).
Proof. unfold all_stdout. intros Ha Hb. rewrite forallb_app, Ha, Hb. reflexivity. Qed.

Lemma all_stdout_map {X} (f : X -> event) l :
  (forall x, is_stdout (f x) = true) -> all_stdout (map f l).
Proof.
  intros H. unfold all_stdout. induction l as [|x l IH]; cbn; [reflexivity|].
  rewrite H, IH. reflexivity.
Qed.

Lemma all_stdout_print_line self index buf len :
  all_stdout (print_line self index buf len).
Proof.
  unfold print_line.
  repeat first [ apply all_stdout_app
               | apply all_stdout_map; intros ?; reflexivity
               | reflexivity ].
Qed.

Lemma all_stdout_for_loop {S} idx (body : Z -> S -> trace * S) s :
  (forall i t, all_stdout (fst (body i t))) ->
  all_stdout (fst (for_loop idx body s)).
Proof.
  intros H. revert s. induction idx as [|i idx IH]; intros s; cbn; [reflexivity|].
  specialize (H i s). destruct (body i s) as [o1 s1]. specialize (IH s1).
  destruct (for_loop idx body s1) as [o2 s2]. cbn in *.
  apply all_stdout_app; assumption.
Qed.

Lemma all_stdout_cmp_line self address buf1 buf2 len :
  all_stdout (fst (cmp_line self address buf1 buf2 len)).
Proof.
  unfold cmp_line.
  pose proof (all_stdout_for_loop (range 0 len) (cmp_hex buf1 buf2) 0) as H.
  destruct (for_loop _ _ 0) as [hex res]. cbn [fst] in *.
  repeat first [ apply all_stdout_app
               | apply all_stdout_map; intros ?; unfold cmp_char;
                 try destruct (Ascii.eqb _ _); reflexivity
               | reflexivity
               | apply H; intros i t; unfold cmp_hex;
                 destruct (Ascii.eqb _ _); reflexivity ].
Qed.

Lemma all_stdout_print_buffer_from fuel self buf len : forall i out,
  print_buffer_from fuel self buf len i = Some out -> all_stdout out.
Proof.
  induction fuel as [|fuel IH]; intros i out; cbn [print_buffer_from];
    [discriminate|].
  destruct (i <? len); [| intros [= <-]; reflexivity].
  destruct (print_buffer_from fuel self buf len (u32 (i + 16))) as [rest|] eqn:E;
    [| discriminate].
  intros H.
  assert (Hout : out = print_line self i (advance buf i) (row_len len i) ++ rest)
    by congruence.
  rewrite Hout. apply all_stdout_app; [apply all_stdout_print_line | eauto].
Qed.

Lemma all_stdout_cmp_buffer_from fuel self buf1 buf2 len : forall i out rs,
  cmp_buffer_from fuel self buf1 buf2 len i = Some (out, rs) -> all_stdout out.
Proof.
  induction fuel as [|fuel IH]; intros i out rs; cbn [cmp_buffer_from];
    [discriminate|].
  destruct (i <? len); [| intros [= <- <-]; reflexivity].
  pose proof (all_stdout_cmp_line self i (advance buf1 i) (advance buf2 i)
                (row_len len i)) as Hc.
  destruct (cmp_line _ _ _ _ _) as [o res]. cbn [fst] in Hc.
  destruct (cmp_buffer_from fuel self buf1 buf2 len (u32 (i + 16)))
    as [[os rs']|] eqn:E; [| discriminate].
  intros H. cbv zeta in H. injection H as H1 H2. rewrite <- H1.
  apply all_stdout_app; [| eauto].
  destruct (res =? 0); [assumption|].
  apply all_stdout_app; [assumption|].
  apply (all_stdout_app [_]); [reflexivity | apply all_stdout_print_line].
Qed.

Lemma all_stdout_cmp_buffer self buf1 buf2 len out :
  cmp_buffer self buf1 buf2 len = Some out -> all_stdout out.
Proof.
  unfold cmp_buffer, cmp_buffer_rows.
  destruct (cmp_buffer_from _ _ _ _ _ _) as [[o rs]|] eqn:E; [| discriminate].
  intros [= <-]. eapply all_stdout_cmp_buffer_from; eassumption.
Qed.

Lemma draws_app a b : draws (a ++ b) = draws a ++ draws b.
Proof. apply flat_map_app. Qed.

Lemma sum_app a b : sum (a ++ b) = sum a + sum b.
Proof.
  unfold sum. induction a as [|x a IH]; cbn [app fold_right]; lia.
Qed.

Lemma bytes_read_app a b : bytes_read (a ++ b) = bytes_read a + bytes_read b.
Proof. unfold bytes_read. rewrite flat_map_app. apply sum_app. Qed.

Lemma stdout_draws tr : all_stdout tr -> draws tr = [].
Proof.
  unfold all_stdout. induction tr as [|ev tr IH]; cbn; [reflexivity|].
  destruct ev as [[|] ?| | | |]; cbn; try discriminate. exact IH.
Qed.

Lemma stdout_bytes_read tr : all_stdout tr -> bytes_read tr = 0.
Proof.
  unfold all_stdout. induction tr as [|ev tr IH]; cbn; [reflexivity|].
  destruct ev as [[|] ?| | | |]; cbn; try discriminate. exact IH.
Qed.

Lemma stdout_not_fatal tr : all_stdout tr -> existsb fatal_event tr = false.
Proof.
  unfold all_stdout. induction tr as [|ev tr IH]; cbn; [reflexivity|].
  destruct ev as [[|] ?| | | |]; cbn; try discriminate. exact IH.
Qed.

Lemma stdout_in_bounds tr : all_stdout tr -> Forall read_in_bounds tr.
Proof.
  unfold all_stdout. induction tr as [|ev tr IH]; cbn; [constructor|].
  destruct ev as [[|] ?| | | |]; cbn; try discriminate.
  intros H. constructor; [exact I | auto].
Qed.

Lemma stdout_reads_from len avail a tr :
  all_stdout a -> reads_from len avail tr -> reads_from len avail (a ++ tr).
Proof.
  unfold all_stdout. induction a as [|ev a IH]; cbn; [auto|].
  destruct ev as [[|] ?| | | |]; cbn; try discriminate. exact IH.
Qed.

Ltac splits := repeat match goal with |- _ /\ _ => split end.

(** ** msg_gen *)

Lemma fill_spec self n : forall g,
  fill self n g =
  Ret (map byte_of_Z (fst (next_n n (prng g))))
      (add_log (map (fun x => EvDraw self (DrawNext x)) (fst (next_n n (prng g))))
         (set_prng (snd (next_n n (prng g))) g)).
Proof.
  induction n as [|n IH]; intros g.
  - cbn. unfold ret. f_equal. destruct g. unfold add_log, set_prng. cbn.
    rewrite app_nil_r. reflexivity.
  - cbn [fill next_n]. unfold bind, prng_next.
    destruct (brahe_prng_next (prng g)) as [x s1]. rewrite IH. cbn [prng add_log set_prng].
    destruct (next_n n s1) as [xs s2]. cbn. unfold ret, add_log, set_prng. cbn.
    rewrite <- app_assoc. reflexivity.
Qed.

(** The contract of brahe_prng_range: a value between its bounds. *)
Hypothesis range_ok : forall s lo hi,
  0 <= lo <= hi -> hi < 2 ^ 32 ->
  lo <= fst (brahe_prng_range s lo hi) <= hi.

(** The contract of brahe_prng_init: a seed other than zero fixes the state,
    whatever the clock says. *)
Hypothesis init_seeded : forall seed t1 t2,
  seed <> 0 -> brahe_prng_init seed t1 = brahe_prng_init seed t2.

Lemma u32_small x : 0 <= x < 2 ^ 32 -> u32 x = x.
Proof. intros H. unfold u32. apply Z.mod_small. assumption. Qed.

Lemma s32_small x : 0 <= x < 2 ^ 31 -> s32 x = x.
Proof.
  intros H. unfold s32. rewrite u32_small by lia.
  destruct (Z.ltb_spec x (2 ^ 31)); lia.
Qed.

Lemma u64_add_l a b : u64 (u64 a + b) = u64 (a + b).
Proof. unfold u64. apply Zplus_mod_idemp_l. Qed.

Lemma u64_range x : 0 <= u64 x < 2 ^ 64.
Proof. unfold u64. apply Z.mod_pos_bound. lia. Qed.

Lemma msg_gen_spec self N g :
  1 <= N < 2 ^ 31 ->
  let len := fst (brahe_prng_range (prng g) 1 N) in
  let s1 := snd (brahe_prng_range (prng g) 1 N) in
  let xs := fst (next_n (Z.to_nat len) s1) in
  let s2 := snd (next_n (Z.to_nat len) s1) in
  1 <= len <= N /\
  msg_gen self (- N) g =
  Ret {| msg_len := len; msg_buf := map byte_of_Z xs |}
      (add_log (EvDraw self (DrawRange 1 N len)
                  :: map (fun x => EvDraw self (DrawNext x)) xs)
         (set_prng s2 g)).
Proof.
  intros HN. cbv zeta.
  pose proof (range_ok (prng g) 1 N ltac:(lia) ltac:(lia)) as Hlen.
  split; [assumption|].
  unfold msg_gen, bind at 1.
  replace (- N <? 0) with true by (symmetry; apply Z.ltb_lt; lia).
  unfold bind at 1, prng_range.
  rewrite Z.opp_involutive, (u32_small 1), (u32_small N) by lia.
  destruct (brahe_prng_range (prng g) 1 N) as [len s1]. cbn [fst snd] in *.
  unfold ret at 1. rewrite s32_small, u32_small by lia.
  unfold bind. rewrite fill_spec. cbn [prng add_log set_prng].
  destruct (next_n (Z.to_nat len) s1) as [xs s2]. cbn [fst snd].
  unfold ret, add_log, set_prng. cbn [log rx_bytes tx_bytes msgs rx_buf prng].
  rewrite <- app_assoc. reflexivity.
Qed.

(** ** transmit_start *)

Lemma msg_dump_cases self m g :
  exists out, all_stdout out /\
    (msg_dump self m g = Ret tt (add_log out g)
     \/ msg_dump self m g = Hang (add_log out g)).
Proof.
  unfold msg_dump, bind, emit, emit_opt.
  destruct (print_buffer self (msg_buf m) (msg_len m)) as [evs|] eqn:E.
  - eexists. split; [| left; unfold emit; rewrite add_log_app; reflexivity].
    apply all_stdout_app; [reflexivity|].
    eapply all_stdout_print_buffer_from. exact E.
  - eexists. split; [| right; reflexivity]. reflexivity.
Qed.

(** What transmit_start leaves behind, whatever the device answers. *)
Lemma transmit_start_spec o e m g :
  wf g -> 0 <= msg_len m ->
  let r := transmit_start o e m g in
  let g' := final r in
  prng g' = prng g /\ rx_bytes g' = rx_bytes g /\ rx_buf g' = rx_buf g /\
  msgs g' = msgs g /\ 0 <= tx_bytes g' < 2 ^ 64 /\
  exists new,
    log g' = log g ++ new /\ draws new = [] /\ bytes_read new = 0 /\
    Forall read_in_bounds new /\
    match r with
    | Ret _ _ =>
        tx_bytes g' = u64 (tx_bytes g + msg_len m) /\
        existsb fatal_event new = false
    | Exit c _ =>
        c = -1 /\ existsb fatal_event new = true /\ tx_exit_shape m new
    | Hang _ => True
    | Fault _ => False
    end.
Proof.
  intros (Hrx & Htx & Hm & Hb) Hlen. cbv zeta.
  remember (transmit_start o e m g) as r eqn:Er.
  unfold transmit_start, bind at 1 in Er.
  destruct (out_only_device_open o TxThread (tx_dev e) (opt_txdev o) O_WRONLY
              true g) as [(fd & out & E & Ho) | (pre & text & E & Hp)];
    rewrite E in Er; clear E.
  2:{ subst r. cbn. splits; try reflexivity; try assumption; try lia.
      exists (pre ++ [EvOut Stderr text]).
      rewrite draws_app, bytes_read_app, existsb_app, stdout_draws,
        stdout_bytes_read by assumption.
      splits; try reflexivity.
      - apply Forall_app. split; [apply stdout_in_bounds; assumption|].
        repeat constructor.
      - rewrite ?stdout_not_fatal by assumption. cbn. rewrite ?orb_true_r.
        reflexivity.
      - exists pre, text. split; [reflexivity | left; assumption]. }
  unfold bind at 1 in Er.
  assert (Hdump : exists out2, all_stdout out2 /\
            ((if opt_verbose o then msg_dump TxThread m else ret tt)
               (add_log out g) = Ret tt (add_log (out ++ out2) g)
             \/ (if opt_verbose o then msg_dump TxThread m else ret tt)
                  (add_log out g) = Hang (add_log (out ++ out2) g))).
  { destruct (opt_verbose o).
    - destruct (msg_dump_cases TxThread m (add_log out g)) as (o2 & H2 & [E|E]);
        exists o2; rewrite E, add_log_app; auto.
    - exists []. rewrite app_nil_r. split; [reflexivity | left; reflexivity]. }
  destruct Hdump as (out2 & Ho2 & [E | E]); rewrite E in Er; clear E.
  2:{ subst r. cbn. splits; try reflexivity; try assumption; try lia.
      exists (out ++ out2).
      rewrite draws_app, bytes_read_app, !stdout_draws, !stdout_bytes_read
        by assumption.
      splits; try reflexivity.
      apply Forall_app; split; apply stdout_in_bounds; assumption. }
  assert (Hout : all_stdout (out ++ out2)) by (apply all_stdout_app; assumption).
  revert Er Hout. generalize (out ++ out2). clear out out2 Ho Ho2.
  intros out Er Hout.
  destruct (tx_writes e) as [|[errno | n] ws].
  - subst r. cbn. splits; try reflexivity; try assumption; try lia.
    exists out. rewrite stdout_draws, stdout_bytes_read by assumption.
    splits; try reflexivity. apply stdout_in_bounds; assumption.
  - subst r. cbn. splits; try reflexivity; try assumption; try lia.
    eexists. rewrite <- !app_assoc. split; [reflexivity|].
    rewrite draws_app, bytes_read_app, existsb_app, stdout_draws,
      stdout_bytes_read by assumption.
    splits; try reflexivity.
    + apply Forall_app. split; [apply stdout_in_bounds; assumption|].
      repeat constructor.
    + rewrite ?stdout_not_fatal by assumption. cbn.
      rewrite ?orb_true_r. reflexivity.
    + eexists (out ++ [_]), _. rewrite <- app_assoc.
      split; [reflexivity|]. right. exists out, (-1).
      split; [reflexivity | lia].
  - unfold bind, emit, modify in Er. cbn [tx_bytes add_log set_tx_bytes] in Er.
    destruct (Z.ltb_spec (Z.min (Z.of_N n) (msg_len m)) (msg_len m)) as [Hs|Hs].
    + subst r. cbn. splits; try reflexivity; try assumption; try apply u64_range.
      eexists. rewrite <- !app_assoc. split; [reflexivity|].
      rewrite draws_app, bytes_read_app, existsb_app, stdout_draws,
        stdout_bytes_read by assumption.
      splits; try reflexivity.
      * apply Forall_app. split; [apply stdout_in_bounds; assumption|].
        repeat constructor.
      * rewrite ?stdout_not_fatal by assumption. cbn. rewrite ?orb_true_r.
        reflexivity.
      * eexists (out ++ [_]), _. rewrite <- app_assoc.
        split; [reflexivity|]. right. exists out, (Z.min (Z.of_N n) (msg_len m)).
        split; [reflexivity | lia].
    + subst r. cbn. splits; try reflexivity; try assumption; try apply u64_range.
      eexists. rewrite <- !app_assoc. split; [reflexivity|].
      rewrite draws_app, bytes_read_app, existsb_app, stdout_draws,
        stdout_bytes_read, stdout_not_fatal by assumption.
      splits; try reflexivity.
      * apply Forall_app. split; [apply stdout_in_bounds; assumption|].
        repeat constructor.
      * f_equal. lia.
      * cbn. replace (Z.min (Z.of_N n) (msg_len m) <? msg_len m) with false
          by (symmetry; apply Z.ltb_ge; lia). reflexivity.
Qed.

(** ** The read loop of receive_start *)

Lemma length_store buf off data :
  (Z.to_nat off + List.length data <= List.length buf)%nat ->
  List.length (store buf off data) = List.length buf.
Proof.
  intros H. unfold store.
  rewrite !length_app, length_firstn, length_skipn. lia.
Qed.

Lemma store_nil buf off : store buf off [] = buf.
Proof.
  unfold store. cbn [app List.length]. rewrite Nat.add_0_r.
  apply firstn_skipn.
Qed.

Lemma store_store buf off c1 c2 :
  0 <= off -> (Z.to_nat off + List.length c1 <= List.length buf)%nat ->
  store (store buf off c1) (off + byte_count c1) c2 = store buf off (c1 ++ c2).
Proof.
  intros Hoff H. unfold store, byte_count.
  replace (Z.to_nat (off + Z.of_nat (List.length c1)))
    with (Z.to_nat off + List.length c1)%nat by lia.
  assert (Hl : List.length (firstn (Z.to_nat off) buf ++ c1)
               = (Z.to_nat off + List.length c1)%nat).
  { rewrite length_app, length_firstn. lia. }
  rewrite (app_assoc (firstn _ buf) c1).
  rewrite firstn_app, Hl, Nat.sub_diag, firstn_O, app_nil_r.
  rewrite firstn_all2 by lia.
  rewrite skipn_app, Hl, skipn_all2 by lia. cbn [app].
  rewrite skipn_skipn, length_app, <- !app_assoc.
  do 4 f_equal. lia.
Qed.

Lemma firstn_store_0 buf data :
  firstn (List.length data) (store buf 0 data) = data.
Proof.
  unfold store. cbn [Z.to_nat firstn app].
  rewrite firstn_app, Nat.sub_diag, firstn_O, app_nil_r. apply firstn_all.
Qed.

Lemma rx_loop_spec reads : forall len avail g,
  wf g -> 0 <= avail -> len <= MAX_MAX_MSG_LEN ->
  let r := rx_loop reads len avail g in
  let g' := final r in
  prng g' = prng g /\ tx_bytes g' = tx_bytes g /\ msgs g' = msgs g /\ wf g' /\
  exists new,
    log g' = log g ++ new /\ draws new = [] /\ Forall read_in_bounds new /\
    reads_from len avail new /\
    rx_bytes g' = u64 (rx_bytes g + bytes_read new) /\
    match r with
    | Ret _ _ =>
        existsb fatal_event new = false /\
        (avail <= len -> bytes_read new = len - avail)
    | Exit c _ =>
        c = -1 /\ existsb fatal_event new = true /\ read_exit_shape new
    | Hang _ => True
    | Fault _ => False
    end.
Proof.
  assert (Hidle : forall len avail (g : globals), wf g ->
            wf g /\
            exists new,
              log g = log g ++ new /\ draws new = [] /\
              Forall read_in_bounds new /\ reads_from len avail new /\
              rx_bytes g = u64 (rx_bytes g + bytes_read new) /\
              existsb fatal_event new = false /\ bytes_read new = 0).
  { intros len avail g Hwf. split; [assumption|]. exists [].
    rewrite app_nil_r. unfold bytes_read. cbn. rewrite Z.add_0_r.
    destruct Hwf as (Hr & _). unfold u64. rewrite Z.mod_small by assumption.
    splits; try reflexivity. constructor. }
  induction reads as [|a reads IH]; intros len avail g Hwf Havail Hlen;
    cbv zeta; remember (rx_loop _ len avail g) as r eqn:Er;
    cbn [rx_loop] in Er.
  - destruct (Hidle len avail g Hwf)
      as (Hw & new & H1 & H2 & H3 & H4 & H5 & H6 & H7).
    destruct (Z.ltb_spec avail len) as [Hlt|Hge]; subst r; unfold ret, hang;
      cbn [final]; (splits; try reflexivity; try assumption); exists new;
      splits; try assumption; try exact I. lia.
  - destruct (Z.ltb_spec avail len) as [Hlt|Hge].
    2:{ destruct (Hidle len avail g Hwf)
          as (Hw & new & H1 & H2 & H3 & H4 & H5 & H6 & H7).
        subst r; unfold ret; cbn [final];
          (splits; try reflexivity; try assumption).
        exists new. splits; try assumption. lia. }
    replace (MAX_MAX_MSG_LEN <? avail + (len - avail)) with false in Er
      by (symmetry; apply Z.ltb_ge; lia).
    destruct a as [errno | data].
    + subst r. cbn. splits; try reflexivity; try apply Hwf.
      eexists. rewrite <- app_assoc. split; [reflexivity|].
      unfold bytes_read. cbn. rewrite Z.add_0_r.
      destruct Hwf as (Hr & _). unfold u64. rewrite Z.mod_small by assumption.
      splits; try reflexivity; try lia.
      * repeat constructor; cbn; lia.
      * exists [], avail, (len - avail), errno. reflexivity.
    + set (got := firstn (Z.to_nat (len - avail)) data) in Er.
      assert (Hgot : 0 <= byte_count got <= len - avail).
      { unfold byte_count, got. rewrite length_firstn. lia. }
      unfold bind at 1, emit at 1 in Er. unfold bind at 1, modify at 1 in Er.
      unfold bind at 1, modify at 1 in Er.
      cbn [rx_bytes rx_buf set_rx_buf set_rx_bytes add_log] in Er.
      rewrite u32_small in Er by (unfold MAX_MAX_MSG_LEN in *; lia).
      match type of Er with context [rx_loop reads len _ ?g1] =>
        set (g1' := g1) in Er end.
      assert (Hwf1 : wf g1').
      { destruct Hwf as (Hr & Ht & Hm & Hb). unfold wf, g1'. cbn.
        splits; try apply u64_range; try lia.
        rewrite length_store; [assumption|].
        unfold byte_count in Hgot. rewrite Hb. unfold MAX_MAX_MSG_LEN in *. lia. }
      specialize (IH len (avail + byte_count got) g1' Hwf1 ltac:(lia) Hlen).
      cbv zeta in IH. rewrite <- Er in IH.
      destruct IH as (Hp & Ht & Hm & Hwf' & new & Hlog & Hd & Hb & Hrf & Hrb & Hr).
      splits; try assumption.
      exists (EvRead avail (len - avail) (byte_count got) :: new).
      rewrite Hlog. unfold g1' at 1.
      cbn [log add_log set_rx_bytes set_rx_buf].
      rewrite <- app_assoc. split; [reflexivity|].
      split; [exact Hd|].
      split; [constructor; [cbn; lia | assumption]|].
      split; [cbn; splits; try reflexivity; try lia; assumption|].
      assert (Hbr : bytes_read (EvRead avail (len - avail) (byte_count got) :: new)
                    = byte_count got + bytes_read new).
      { unfold bytes_read, sum. cbn [flat_map app fold_right]. lia. }
      rewrite Hbr. split.
      { rewrite Hrb. unfold g1'. cbn [rx_bytes set_rx_bytes].
        rewrite u64_add_l. f_equal. lia. }
      clear Er. destruct r; cbn [existsb fatal_event] in *.
      * destruct Hr as (Hf & Hs). split.
        -- replace (byte_count got <? 0) with false
             by (symmetry; apply Z.ltb_ge; lia). assumption.
        -- intros _. rewrite Hs; lia.
      * destruct Hr as (-> & Hf & (pre & off & cnt & errno & ->)).
        split; [reflexivity|]. split; [rewrite Hf; apply orb_true_r|].
        exists (EvRead avail (len - avail) (byte_count got) :: pre),
          off, cnt, errno. reflexivity.
      * exact I.
      * exact Hr.
Qed.

(** A script of data chunks that add up to what is missing is consumed
    to the end: the loop returns with the chunks stored in order. *)
Lemma rx_loop_chunks chunks : forall len avail g,
  wf g -> 0 <= avail -> len <= MAX_MAX_MSG_LEN ->
  avail + byte_count (List.concat chunks) = len ->
  exists g',
    rx_loop (map RdData chunks) len avail g = Ret tt g' /\
    rx_buf g' = store (rx_buf g) avail (List.concat chunks).
Proof.
  induction chunks as [|c chunks IH]; intros len avail g Hwf Havail Hlen Hsum;
    cbn [map List.concat rx_loop] in *.
  - unfold byte_count in Hsum. cbn in Hsum.
    replace (avail <? len) with false by (symmetry; apply Z.ltb_ge; lia).
    exists g. rewrite store_nil. split; reflexivity.
  - unfold byte_count in Hsum. rewrite length_app in Hsum.
    destruct (Z.ltb_spec avail len) as [Hlt|Hge].
    2:{ exists g. split; [reflexivity|].
        assert (E : c ++ List.concat chunks = []).
        { apply length_zero_iff_nil. rewrite length_app. lia. }
        rewrite E, store_nil. reflexivity. }
    replace (MAX_MAX_MSG_LEN <? avail + (len - avail)) with false
      by (symmetry; apply Z.ltb_ge; lia).
    rewrite firstn_all2 by lia.
    unfold bind at 1, emit at 1. unfold bind at 1, modify at 1.
    unfold bind at 1, modify at 1.
    cbn [rx_bytes rx_buf set_rx_buf set_rx_bytes add_log].
    rewrite u32_small by (unfold MAX_MAX_MSG_LEN, byte_count in *; lia).
    match goal with |- context [rx_loop _ len _ ?g1] => set (g1' := g1) end.
    assert (Hfit : (Z.to_nat avail + List.length c <= List.length (rx_buf g))%nat).
    { destruct Hwf as (_ & _ & _ & Hb). rewrite Hb.
      unfold MAX_MAX_MSG_LEN in *. lia. }
    assert (Hwf1 : wf g1').
    { destruct Hwf as (Hr & Ht & Hm & Hb). unfold wf, g1'. cbn.
      splits; try apply u64_range; try lia.
      rewrite length_store; assumption. }
    destruct (IH len (avail + byte_count c) g1' Hwf1) as (g' & E & Hbuf);
      try (unfold byte_count in *; lia).
    exists g'. split; [exact E|].
    rewrite Hbuf. unfold g1'. cbn [rx_buf set_rx_bytes set_rx_buf].
    apply store_store; assumption.
Qed.

(** ** receive_start *)

Lemma stdout_all_out tr : all_stdout tr -> all_out tr.
Proof.
  unfold all_stdout, all_out. induction tr as [|ev tr IH]; cbn; [reflexivity|].
  destruct ev as [[|] ?| | | |]; cbn; try discriminate. exact IH.
Qed.

Lemma all_out_app a b : all_out a -> all_out b -> all_out (a ++ b).
Proof. unfold all_out. intros Ha Hb. rewrite forallb_app, Ha, Hb. reflexivity. Qed.

Lemma out_draws tr : all_out tr -> draws tr = [].
Proof.
  unfold all_out. induction tr as [|ev tr IH]; cbn; [reflexivity|].
  destruct ev; cbn; try discriminate. exact IH.
Qed.

Lemma out_bytes_read tr : all_out tr -> bytes_read tr = 0.
Proof.
  unfold all_out. induction tr as [|ev tr IH]; cbn; [reflexivity|].
  destruct ev; cbn; try discriminate. exact IH.
Qed.

Lemma out_in_bounds tr : all_out tr -> Forall read_in_bounds tr.
Proof.
  unfold all_out. induction tr as [|ev tr IH]; cbn; [constructor|].
  destruct ev; cbn; try discriminate. intros H. constructor; [exact I | auto].
Qed.

Lemma out_reads_from len avail a tr :
  all_out a -> reads_from len avail tr -> reads_from len avail (a ++ tr).
Proof.
  unfold all_out. induction a as [|ev a IH]; cbn; [auto|].
  destruct ev; cbn; try discriminate. exact IH.
Qed.

Lemma reads_from_app_out len tr b : forall avail,
  all_out b -> reads_from len avail tr -> reads_from len avail (tr ++ b).
Proof.
  intros avail Hb. revert avail.
  induction tr as [|ev tr IH]; intros avail H.
  - cbn [app]. rewrite <- (app_nil_r b).
    apply out_reads_from; [assumption | exact I].
  - destruct ev; cbn [app reads_from] in *; auto.
    destruct H as (H1 & H2 & H3 & H4 & H5 & H6). splits; auto.
Qed.

Lemma reads_in_bounds len tr : forall avail,
  len <= MAX_MAX_MSG_LEN -> reads_from len avail tr ->
  Forall read_in_bounds tr.
Proof.
  induction tr as [|ev tr IH]; intros avail Hlen H; [constructor|].
  destruct ev; cbn [reads_from] in H; constructor; try exact I;
    try (eapply IH; eassumption).
  - cbn. lia.
  - destruct H as (_ & _ & _ & _ & _ & H). eapply IH; eassumption.
Qed.

Lemma u64_small x : 0 <= x < 2 ^ 64 -> u64 x = x.
Proof. intros H. unfold u64. apply Z.mod_small. assumption. Qed.

Lemma pr_debug_ret o self text g :
  exists out, all_stdout out /\ pr_debug o self text g = Ret tt (add_log out g).
Proof.
  unfold pr_debug. destruct (opt_verbose o).
  - eexists. split; [| reflexivity]. reflexivity.
  - exists []. rewrite add_log_nil. split; reflexivity.
Qed.

Lemma cmp_buffer_some self buf1 buf2 len :
  0 <= len <= MAX_MAX_MSG_LEN ->
  (Z.to_nat len <= List.length buf1)%nat ->
  (Z.to_nat len <= List.length buf2)%nat ->
  exists out, cmp_buffer self buf1 buf2 len = Some out /\ all_stdout out.
Proof.
  intros Hlen H1 H2.
  assert (Hlo : 0 <= len) by lia.
  assert (Hhi : len <= 2 ^ 32 - 16) by (unfold MAX_MAX_MSG_LEN in Hlen; lia).
  pose proof (cmp_buffer_rows_spec self buf1 buf2 len Hlo Hhi H1 H2) as E.
  assert (Ec : cmp_buffer self buf1 buf2 len
               = Some (flat_map
                         (render_row self (firstn (Z.to_nat len) buf1)
                            (firstn (Z.to_nat len) buf2))
                         (seq 0 (row_count len)))).
  { unfold cmp_buffer. rewrite E. reflexivity. }
  eexists. split; [exact Ec|]. eapply all_stdout_cmp_buffer. exact Ec.
Qed.

(** What receive_start leaves behind, whatever the devices answer. *)
Lemma receive_start_spec o e m g :
  wf g -> msg_wf m -> 1 <= msg_len m <= MAX_MAX_MSG_LEN ->
  let trunc := fst (brahe_prng_range (prng g) 1 (msg_len m)) in
  let s' := snd (brahe_prng_range (prng g) 1 (msg_len m)) in
  let r := receive_start o e m g in
  let g' := final r in
  1 <= trunc <= msg_len m /\
  tx_bytes g' = tx_bytes g /\ msgs g' = msgs g /\ wf g' /\
  exists new,
    log g' = log g ++ new /\ Forall read_in_bounds new /\
    reads_from trunc 0 new /\
    rx_bytes g' = u64 (rx_bytes g + bytes_read new) /\
    ((draws new = [] /\ prng g' = prng g /\ exists c g'', r = Exit c g'')
     \/ (draws new = [(RxThread, DrawRange 1 (msg_len m) trunc)]
         /\ prng g' = s')) /\
    match r with
    | Ret _ _ =>
        draws new = [(RxThread, DrawRange 1 (msg_len m) trunc)] /\
        prng g' = s' /\ bytes_read new = trunc /\
        existsb fatal_event new = false /\
        firstn (Z.to_nat trunc) (rx_buf g')
        = firstn (Z.to_nat trunc) (msg_buf m)
    | Exit c _ =>
        c = -1 /\ existsb fatal_event new = true /\
        rx_exit_shape m trunc g' new
    | Hang _ => True
    | Fault _ => False
    end.
Proof.
  intros Hwf (Hml & Hmb) Hrange. cbv zeta.
  pose proof (range_ok (prng g) 1 (msg_len m) ltac:(lia) ltac:(lia)) as HT.
  split; [assumption|].
  remember (receive_start o e m g) as r eqn:Er.
  unfold receive_start, bind at 1 in Er.
  destruct (out_only_device_open o RxThread (rx_dev e) (opt_rxdev o) O_RDONLY
              true g) as [(fd & out & E & Ho) | (pre & text & E & Hp)];
    rewrite E in Er; clear E.
  2:{ subst r. cbn [final tx_bytes msgs add_log log rx_bytes prng].
      splits; try reflexivity.
      { destruct Hwf as (H1 & H2 & H3 & H4). unfold wf. cbn. auto. }
      exists (pre ++ [EvOut Stderr text]).
      assert (Hall : all_out (pre ++ [EvOut Stderr text])).
      { apply all_out_app; [apply stdout_all_out; assumption | reflexivity]. }
      rewrite out_draws, out_bytes_read, Z.add_0_r, u64_small
        by (assumption || apply Hwf).
      splits; try reflexivity.
      - apply out_in_bounds. assumption.
      - rewrite <- (app_nil_r (pre ++ _)). apply out_reads_from;
          [assumption | exact I].
      - left. splits; try reflexivity. eauto.
      - rewrite existsb_app. cbn. apply orb_true_r.
      - left. exists pre, text. split; [reflexivity | assumption]. }
  unfold bind at 1, prng_range in Er. cbn [prng add_log set_prng] in Er.
  rewrite (u32_small 1), (u32_small (msg_len m)) in Er by lia.
  destruct (brahe_prng_range (prng g) 1 (msg_len m)) as [trunc s'].
  cbn [fst snd] in *.
  unfold bind at 1 in Er.
  match type of Er with context [pr_debug o RxThread ?t ?g1] =>
    destruct (pr_debug_ret o RxThread t g1) as (out2 & Ho2 & E);
    rewrite E in Er; clear E
  end.
  cbn [add_log set_prng log prng rx_bytes tx_bytes msgs rx_buf] in Er.
  unfold bind at 1 in Er.
  match type of Er with context [rx_loop _ trunc 0 ?g2] =>
    set (g2' := g2) in Er
  end.
  assert (Hwf2 : wf g2').
  { destruct Hwf as (H1 & H2 & H3 & H4). unfold wf, g2'. cbn. auto. }
  pose proof (rx_loop_spec (rx_reads e) trunc 0 g2' Hwf2 ltac:(lia) ltac:(lia))
    as Hloop.
  cbv zeta in Hloop.
  destruct Hloop as (Hp & Ht & Hm & Hwf3 & newl & Hlog & Hd & Hb & Hrf & Hrb & Hr).
  set (d := EvDraw RxThread (DrawRange 1 (msg_len m) trunc)) in *.
  assert (Hpre : log g2' = log g ++ out ++ [d] ++ out2).
  { unfold g2'. cbn. rewrite <- !app_assoc. reflexivity. }
  assert (Hdraws : forall tl, all_out tl ->
            draws (out ++ [d] ++ out2 ++ newl ++ tl)
            = [(RxThread, DrawRange 1 (msg_len m) trunc)]).
  { intros tl Htl. rewrite !draws_app, Hd, (out_draws tl Htl),
      (stdout_draws out Ho), (stdout_draws out2 Ho2). reflexivity. }
  assert (Hbytes : forall tl, all_out tl ->
            bytes_read (out ++ [d] ++ out2 ++ newl ++ tl) = bytes_read newl).
  { intros tl Htl. rewrite !bytes_read_app, (out_bytes_read tl Htl),
      (stdout_bytes_read out Ho), (stdout_bytes_read out2 Ho2).
    unfold bytes_read at 1. cbn. lia. }
  assert (Hreads : forall tl, all_out tl ->
            reads_from trunc 0 (out ++ [d] ++ out2 ++ newl ++ tl)).
  { intros tl Htl. apply out_reads_from; [apply stdout_all_out; assumption|].
    cbn [app reads_from d]. unfold d. cbn [reads_from].
    apply out_reads_from; [apply stdout_all_out; assumption|].
    apply reads_from_app_out; assumption. }
  assert (Hfatal : forall tl,
            existsb fatal_event (out ++ [d] ++ out2 ++ newl ++ tl)
            = existsb fatal_event newl || existsb fatal_event tl).
  { intros tl. rewrite !existsb_app, (stdout_not_fatal out Ho),
      (stdout_not_fatal out2 Ho2). reflexivity. }
  assert (Hrxb : rx_bytes g2' = rx_bytes g) by reflexivity.
  assert (Htxb : tx_bytes g2' = tx_bytes g) by reflexivity.
  assert (Hmsgs : msgs g2' = msgs g) by reflexivity.
  assert (Hprng : prng g2' = s') by reflexivity.
  clearbody g2'.
  destruct (rx_loop (rx_reads e) trunc 0 g2') as [[] g3 | c g3 | g3 | g3];
    cbn [final] in *; try contradiction.
  - (* the loop has returned *)
    destruct Hr as (Hnf & Hsum). specialize (Hsum ltac:(lia)).
    unfold bind at 1, get at 1 in Er.
    replace ((MAX_MAX_MSG_LEN <? trunc) || (msg_len m <? trunc)) with false in Er.
    2:{ symmetry. apply orb_false_iff. split; apply Z.ltb_ge; lia. }
    destruct (Z.eqb_spec (memcmp (rx_buf g3) (msg_buf m) (Z.to_nat trunc)) 0)
      as [Heq | Hne]; cbn [negb] in Er.
    + unfold bind in Er.
      match type of Er with context [pr_debug o RxThread ?t ?g1] =>
        destruct (pr_debug_ret o RxThread t g1) as (out3 & Ho3 & E) end.
      rewrite E in Er. clear E. unfold ret in Er. subst r.
      cbn [final tx_bytes msgs add_log log rx_bytes prng rx_buf].
      splits; try congruence.
      { destruct Hwf3 as (H1 & H2 & H3 & H4). unfold wf. cbn. auto. }
      exists (out ++ [d] ++ out2 ++ newl ++ out3).
      pose proof (stdout_all_out out3 Ho3) as Hall.
      rewrite Hdraws, Hbytes, Hfatal, Hnf, (stdout_not_fatal out3 Ho3)
        by assumption.
      splits; try reflexivity; try congruence; try lia.
      * rewrite Hlog, Hpre, <- !app_assoc. reflexivity.
      * eapply reads_in_bounds; [| apply Hreads; assumption]. lia.
      * apply Hreads. assumption.
      * right. split; [reflexivity | congruence].
      * apply memcmp_zero_iff in Heq; [assumption | |]; try lia.
        destruct Hwf3 as (_ & _ & _ & H4). rewrite H4.
        unfold MAX_MAX_MSG_LEN in *. lia.
    + destruct (cmp_buffer_some RxThread (rx_buf g3) (msg_buf m) trunc)
        as (cmpout & Ec & Hcmp); try lia.
      { destruct Hwf3 as (_ & _ & _ & H4). rewrite H4.
        unfold MAX_MAX_MSG_LEN in *. lia. }
      unfold bind, emit, get in Er. rewrite Ec in Er.
      unfold emit_opt, emit, exit in Er.
      cbn [add_log log msgs tx_bytes rx_bytes] in Er. subst r.
      cbn [final tx_bytes msgs add_log log rx_bytes prng rx_buf].
      splits; try congruence.
      { destruct Hwf3 as (H1 & H2 & H3 & H4). unfold wf. cbn. auto. }
      set (tl := pr_error RxThread ("Data mismatch" +s+ NL)
                   :: cmpout
                   ++ print_stats RxThread (msgs g3) (tx_bytes g3) (rx_bytes g3)).
      exists (out ++ [d] ++ out2 ++ newl ++ tl).
      assert (Hall : all_out tl).
      { apply (all_out_app [_]); [reflexivity|].
        apply all_out_app; [apply stdout_all_out; assumption | reflexivity]. }
      rewrite Hdraws, Hbytes, Hfatal by assumption.
      splits; try reflexivity; try congruence.
      * rewrite Hlog, Hpre, <- !app_assoc. unfold tl. cbn [app].
        rewrite <- ?app_assoc. reflexivity.
      * eapply reads_in_bounds; [| apply Hreads; assumption]. lia.
      * apply Hreads. assumption.
      * right. split; [reflexivity | congruence].
      * unfold tl. cbn [existsb fatal_event pr_error]. apply orb_true_r.
      * right. right. exists (out ++ [d] ++ out2 ++ newl), cmpout.
        split; [exact Ec|]. split; [exact Hne|].
        rewrite <- !app_assoc. reflexivity.
  - (* a read has failed *)
    destruct Hr as (-> & Hf & (pre & off & cnt & errno & Hshape)).
    unfold bind in Er. subst r.
    cbn [final]. splits; try congruence.
    exists (out ++ [d] ++ out2 ++ newl ++ []).
    rewrite Hdraws, Hbytes, Hfatal, Hf by reflexivity.
    splits; try reflexivity; try congruence.
    + rewrite Hlog, Hpre, app_nil_r, <- !app_assoc. reflexivity.
    + eapply reads_in_bounds; [| apply Hreads; reflexivity]. lia.
    + apply Hreads. reflexivity.
    + right. split; [reflexivity | congruence].
    + right. left. exists (out ++ [d] ++ out2 ++ pre), off, cnt, errno.
      rewrite Hshape, app_nil_r, <- !app_assoc. reflexivity.
  - (* the loop is blocked *)
    unfold bind in Er. subst r.
    cbn [final]. splits; try congruence.
    exists (out ++ [d] ++ out2 ++ newl ++ []).
    rewrite Hdraws, Hbytes by reflexivity.
    splits; try reflexivity; try congruence.
    + rewrite Hlog, Hpre, app_nil_r, <- !app_assoc. reflexivity.
    + eapply reads_in_bounds; [| apply Hreads; reflexivity]. lia.
    + apply Hreads. reflexivity.
    + right. split; [reflexivity | congruence].
Qed.

(** ** The two workers of a round *)

Lemma workers_spec o e m g :
  wf g -> msg_wf m -> 1 <= msg_len m <= MAX_MAX_MSG_LEN ->
  let trunc := fst (brahe_prng_range (prng g) 1 (msg_len m)) in
  let s' := snd (brahe_prng_range (prng g) 1 (msg_len m)) in
  let r := workers o e m g in
  let g' := final r in
  1 <= trunc <= msg_len m /\ wf g' /\ msgs g' = msgs g /\
  exists new,
    log g' = log g ++ new /\ Forall read_in_bounds new /\
    ((draws new = [] /\ prng g' = prng g)
     \/ (draws new = [(RxThread, DrawRange 1 (msg_len m) trunc)]
         /\ prng g' = s')) /\
    match r with
    | Ret _ _ =>
        draws new = [(RxThread, DrawRange 1 (msg_len m) trunc)] /\
        prng g' = s' /\ existsb fatal_event new = false /\
        bytes_read new = trunc /\
        tx_bytes g' = u64 (tx_bytes g + msg_len m) /\
        rx_bytes g' = u64 (rx_bytes g + trunc)
    | Exit c _ => c = -1 /\ existsb fatal_event new = true
    | Hang _ => True
    | Fault _ => False
    end.
Proof.
  intros Hwf Hm Hlen. cbv zeta.
  assert (Hlen0 : 0 <= msg_len m) by lia.
  unfold workers, both. destruct (r_order e).
  - (* the receiver runs first *)
    pose proof (receive_start_spec o (r_rx e) m g Hwf Hm Hlen) as Hrx.
    cbv zeta in Hrx.
    destruct Hrx as (HT & Ht1 & Hm1 & Hwf1 & new1 & Hl1 & Hb1 & _ & Hrb1 & Hd1 & Hr1).
    split; [assumption|].
    destruct (receive_start o (r_rx e) m g) as [[] g1 | c g1 | g1 | g1];
      cbn [final] in *; try contradiction.
    + destruct Hr1 as (Hdr & Hp1 & Hby & Hf1 & _).
      pose proof (transmit_start_spec o (r_tx e) m g1 Hwf1 Hlen0) as Htx.
      cbv zeta in Htx.
      destruct Htx as (Hp2 & Hrb2 & Hbuf2 & Hm2 & Htb2 & new2 & Hl2 & Hd2 & Hby2 & Hb2 & Hr2).
      assert (Hwf2 : wf (final (transmit_start o (r_tx e) m g1))).
      { destruct Hwf1 as (H1 & H2 & H3 & H4). unfold wf.
        rewrite Hrb2, Hm2, Hbuf2. splits; (assumption || lia). }
      split; [destruct (transmit_start o (r_tx e) m g1); exact Hwf2|].
      split; [destruct (transmit_start o (r_tx e) m g1); cbn [final] in *;
              congruence|].
      exists (new1 ++ new2).
      rewrite draws_app, bytes_read_app, existsb_app, Hd2, Hby2, Hf1, Hdr,
        app_nil_r, Z.add_0_r.
      destruct (transmit_start o (r_tx e) m g1) as [[] g2 | c g2 | g2 | g2];
        cbn [final] in *; try contradiction;
        (split; [rewrite Hl2, Hl1, <- app_assoc; reflexivity|]);
        (split; [apply Forall_app; split; assumption|]);
        (split; [right; split; [reflexivity | congruence]|]).
      * destruct Hr2 as (Htx2 & Hf2). rewrite Hf2.
        splits; try reflexivity; try congruence.
      * destruct Hr2 as (-> & Hf2 & _). rewrite Hf2. split; reflexivity.
      * exact I.
    + destruct Hr1 as (-> & Hf1 & _). splits; try assumption.
      exists new1. splits; try assumption; try reflexivity.
      destruct Hd1 as [(Hd & Hp & _) | (Hd & Hp)]; [left | right]; split;
        assumption.
    + pose proof (transmit_start_spec o (r_tx e) m g1 Hwf1 Hlen0) as Htx.
      cbv zeta in Htx.
      destruct Htx as (Hp2 & Hrb2 & Hbuf2 & Hm2 & Htb2 & new2 & Hl2 & Hd2 & Hby2 & Hb2 & Hr2).
      assert (Hwf2 : wf (final (transmit_start o (r_tx e) m g1))).
      { destruct Hwf1 as (H1 & H2 & H3 & H4). unfold wf.
        rewrite Hrb2, Hm2, Hbuf2. splits; (assumption || lia). }
      split; [destruct (transmit_start o (r_tx e) m g1) as [[] ?| | |];
              exact Hwf2|].
      split; [destruct (transmit_start o (r_tx e) m g1) as [[] ?| | |];
              cbn [final] in *; congruence|].
      exists (new1 ++ new2).
      rewrite draws_app, existsb_app, Hd2, app_nil_r.
      destruct (transmit_start o (r_tx e) m g1) as [[] g2 | c g2 | g2 | g2];
        cbn [final] in *; try contradiction;
        (split; [rewrite Hl2, Hl1, <- app_assoc; reflexivity|]);
        (split; [apply Forall_app; split; assumption|]);
        (split; [destruct Hd1 as [(Hd & Hp & _) | (Hd & Hp)]; [left | right];
                 split; congruence|]).
      * exact I.
      * destruct Hr2 as (-> & Hf2 & _). rewrite Hf2, orb_true_r.
        split; reflexivity.
      * exact I.
  - (* the transmitter runs first *)
    pose proof (transmit_start_spec o (r_tx e) m g Hwf Hlen0) as Htx.
    cbv zeta in Htx.
    destruct Htx as (Hp1 & Hrb1 & Hbuf1 & Hm1 & Htb1 & new1 & Hl1 & Hd1 & Hby1 & Hb1 & Hr1).
    assert (Hwf1 : wf (final (transmit_start o (r_tx e) m g))).
    { destruct Hwf as (H1 & H2 & H3 & H4). unfold wf.
      rewrite Hrb1, Hm1, Hbuf1. splits; (assumption || lia). }
    pose proof (range_ok (prng g) 1 (msg_len m) ltac:(lia)
                  ltac:(unfold MAX_MAX_MSG_LEN in *; lia)) as HT.
    split; [assumption|].
    destruct (transmit_start o (r_tx e) m g) as [[] g1 | c g1 | g1 | g1];
      cbn [final] in *; try contradiction.
    + destruct Hr1 as (Htx1 & Hf1).
      pose proof (receive_start_spec o (r_rx e) m g1 Hwf1 Hm Hlen) as Hrx.
      cbv zeta in Hrx. rewrite Hp1 in Hrx.
      destruct Hrx as (_ & Ht2 & Hm2 & Hwf2 & new2 & Hl2 & Hb2 & _ & Hrb2 & Hd2 & Hr2).
      split; [destruct (receive_start o (r_rx e) m g1); exact Hwf2|].
      split; [destruct (receive_start o (r_rx e) m g1); cbn [final] in *;
              congruence|].
      exists (new1 ++ new2).
      rewrite draws_app, bytes_read_app, existsb_app, Hd1, Hby1, Hf1.
      cbn [app orb]. rewrite Z.add_0_l.
      destruct (receive_start o (r_rx e) m g1) as [[] g2 | c g2 | g2 | g2];
        cbn [final] in *; try contradiction;
        (split; [rewrite Hl2, Hl1, <- app_assoc; reflexivity|]);
        (split; [apply Forall_app; split; assumption|]);
        (split; [destruct Hd2 as [(Hd & Hp & _) | (Hd & Hp)]; [left | right];
                 split; congruence|]).
      * destruct Hr2 as (Hdr & Hp2 & Hby & Hf2 & _).
        splits; try assumption; try congruence.
      * destruct Hr2 as (-> & Hf2 & _). split; [reflexivity | assumption].
      * exact I.
    + destruct Hr1 as (-> & Hf1 & _). splits; try assumption.
      exists new1. splits; try assumption; try reflexivity.
      left. split; assumption.
    + pose proof (receive_start_spec o (r_rx e) m g1 Hwf1 Hm Hlen) as Hrx.
      cbv zeta in Hrx. rewrite Hp1 in Hrx.
      destruct Hrx as (_ & Ht2 & Hm2 & Hwf2 & new2 & Hl2 & Hb2 & _ & Hrb2 & Hd2 & Hr2).
      split; [destruct (receive_start o (r_rx e) m g1) as [[] ?| | |];
              exact Hwf2|].
      split; [destruct (receive_start o (r_rx e) m g1) as [[] ?| | |];
              cbn [final] in *; congruence|].
      exists (new1 ++ new2).
      rewrite draws_app, existsb_app, Hd1.
      cbn [app].
      destruct (receive_start o (r_rx e) m g1) as [[] g2 | c g2 | g2 | g2];
        cbn [final] in *; try contradiction;
        (split; [rewrite Hl2, Hl1, <- app_assoc; reflexivity|]);
        (split; [apply Forall_app; split; assumption|]);
        (split; [destruct Hd2 as [(Hd & Hp & _) | (Hd & Hp)]; [left | right];
                 split; congruence|]).
      * exact I.
      * destruct Hr2 as (-> & Hf2 & _). rewrite Hf2, orb_true_r.
        split; reflexivity.
      * exact I.
Qed.

(** ** One round *)

Lemma draw_in_bounds tr : all_draw tr -> Forall read_in_bounds tr.
Proof.
  unfold all_draw. induction tr as [|ev tr IH]; cbn; [constructor|].
  destruct ev; cbn; try discriminate. intros H. constructor; [exact I | auto].
Qed.

Lemma draw_not_fatal tr : all_draw tr -> existsb fatal_event tr = false.
Proof.
  unfold all_draw. induction tr as [|ev tr IH]; cbn; [reflexivity|].
  destruct ev; cbn; try discriminate. exact IH.
Qed.

Lemma draw_bytes_read tr : all_draw tr -> bytes_read tr = 0.
Proof.
  unfold all_draw. induction tr as [|ev tr IH]; cbn; [reflexivity|].
  destruct ev; cbn; try discriminate. exact IH.
Qed.

Lemma all_draw_nexts self xs :
  all_draw (map (fun x => EvDraw self (DrawNext x)) xs).
Proof. unfold all_draw. induction xs; cbn; auto. Qed.

Lemma draws_nexts self xs :
  draws (map (fun x => EvDraw self (DrawNext x)) xs)
  = map (fun x => (self, DrawNext x)) xs.
Proof. induction xs as [|x xs IH]; cbn; [reflexivity|]. f_equal. exact IH. Qed.

Lemma next_n_length n : forall s, List.length (fst (next_n n s)) = n.
Proof.
  induction n as [|n IH]; intros s; cbn; [reflexivity|].
  destruct (brahe_prng_next s) as [x s1]. specialize (IH s1).
  destruct (next_n n s1) as [xs s2]. cbn in *. lia.
Qed.

Lemma neg_msglen N : 1 <= N < 2 ^ 31 -> s32 (u32 (- N)) = - N.
Proof.
  intros H. unfold s32, u32. rewrite Z.mod_mod by lia.
  replace (- N) with (2 ^ 32 - N + (-1) * 2 ^ 32) by lia.
  rewrite Z.mod_add by lia. rewrite Z.mod_small by lia.
  destruct (Z.ltb_spec (2 ^ 32 - N) (2 ^ 31)); lia.
Qed.

Lemma signal_handler_spec {A} self g :
  signal_handler (A := A) self g
  = Exit (-1)
      (add_log (EvSignal self
                  :: print_stats self (msgs g) (tx_bytes g) (rx_bytes g)) g).
Proof.
  unfold signal_handler, bind, emit, get, exit. cbn [msgs tx_bytes rx_bytes add_log].
  rewrite add_log_app. reflexivity.
Qed.

Lemma signal_fatal self a b c tl :
  existsb fatal_event (EvSignal self :: print_stats self a b c ++ tl) = true.
Proof. reflexivity. Qed.

Lemma msg_lengths_round N len trunc xs :
  msg_lengths_of
    ((MainThread, DrawRange 1 N len)
       :: map (fun x => (MainThread, DrawNext x)) xs
       ++ [(RxThread, DrawRange 1 len trunc)]) = [len]
  /\ trunc_lengths_of
       ((MainThread, DrawRange 1 N len)
          :: map (fun x => (MainThread, DrawNext x)) xs
          ++ [(RxThread, DrawRange 1 len trunc)]) = [trunc].
Proof.
  unfold msg_lengths_of, trunc_lengths_of. cbn [flat_map app].
  rewrite !flat_map_app. cbn [flat_map app].
  split; [f_equal|]; induction xs as [|x xs IH]; cbn; auto.
Qed.

Lemma round_spec o e g :
  wf g -> 1 <= opt_msglen o <= MAX_MAX_MSG_LEN ->
  let ideal := round_draws (opt_msglen o) (prng g) in
  let r := round o e g in
  let g' := final r in
  wf g' /\ msgs g' = msgs g /\
  exists new,
    log g' = log g ++ new /\ Forall read_in_bounds new /\
    (exists rest, fst ideal = draws new ++ rest) /\
    match r with
    | Ret _ _ =>
        draws new = fst ideal /\ prng g' = snd ideal /\
        existsb fatal_event new = false /\
        exists len trunc,
          1 <= trunc <= len /\ len <= opt_msglen o /\
          msg_lengths new = [len] /\ trunc_lengths new = [trunc] /\
          bytes_read new = trunc /\
          tx_bytes g' = u64 (tx_bytes g + len) /\
          rx_bytes g' = u64 (rx_bytes g + trunc)
    | Exit c _ => c = -1 /\ existsb fatal_event new = true
    | Hang _ => True
    | Fault _ => False
    end.
Proof.
  intros Hwf HN. cbv zeta.
  assert (Hsig : forall self (g0 : globals) pre,
            wf g0 -> msgs g0 = msgs g -> log g0 = log g ++ pre ->
            Forall read_in_bounds pre ->
            (exists rest,
                fst (round_draws (opt_msglen o) (prng g)) = draws pre ++ rest) ->
            let r := signal_handler (A := unit) self g0 in
            wf (final r) /\ msgs (final r) = msgs g /\
            exists new,
              log (final r) = log g ++ new /\ Forall read_in_bounds new /\
              (exists rest,
                  fst (round_draws (opt_msglen o) (prng g)) = draws new ++ rest) /\
              match r with
              | Exit c _ => c = -1 /\ existsb fatal_event new = true
              | _ => False
              end).
  { intros self g0 pre Hwf0 Hm0 Hl0 Hb0 (rest & Hrest). cbv zeta.
    rewrite signal_handler_spec. cbn [final].
    split; [destruct Hwf0 as (H1 & H2 & H3 & H4); unfold wf; cbn; auto|].
    split; [assumption|].
    exists (pre ++ EvSignal self
                 :: print_stats self (msgs g0) (tx_bytes g0) (rx_bytes g0)).
    cbn [log add_log]. rewrite Hl0, <- app_assoc.
    split; [reflexivity|].
    split; [apply Forall_app; split; [assumption | repeat constructor]|].
    split; [exists rest; rewrite draws_app; cbn; rewrite app_nil_r; assumption|].
    split; [reflexivity|]. rewrite existsb_app. cbn. apply orb_true_r. }
  unfold round.
  assert (Hbuild : r_sigint e = Some SigBuild \/ r_sigint e <> Some SigBuild).
  { destruct (r_sigint e) as [[| |]|]; auto; right; discriminate. }
  destruct Hbuild as [Hb | Hb].
  { rewrite Hb.
    destruct (Hsig MainThread g [] Hwf eq_refl (eq_sym (app_nil_r _))
                (Forall_nil _)) as (H1 & H2 & new & H3 & H4 & H5 & H6).
    { eexists. reflexivity. }
    rewrite signal_handler_spec in *. cbn [final] in *.
    splits; try assumption. exists new. splits; (assumption || apply H6). }
  (* the message is built *)
  assert (HN' : 1 <= opt_msglen o < 2 ^ 31)
    by (unfold MAX_MAX_MSG_LEN in HN; lia).
  destruct (msg_gen_spec MainThread (opt_msglen o) g HN') as (Hlen & Egen).
  cbv zeta in Egen. rewrite <- (neg_msglen _ HN') in Egen.
  pose proof (next_n_length
                (Z.to_nat (fst (brahe_prng_range (prng g) 1 (opt_msglen o))))
                (snd (brahe_prng_range (prng g) 1 (opt_msglen o)))) as Hxs.
  unfold round_draws in Hsig |- *.
  destruct (brahe_prng_range (prng g) 1 (opt_msglen o)) as [len s1].
  cbn [fst snd] in *.
  destruct (next_n (Z.to_nat len) s1) as [xs s2]. cbn [fst snd] in *.
  set (m := {| msg_len := len; msg_buf := map byte_of_Z xs |}) in *.
  set (gen := EvDraw MainThread (DrawRange 1 (opt_msglen o) len)
                :: map (fun x => EvDraw MainThread (DrawNext x)) xs) in *.
  set (g1 := add_log gen (set_prng s2 g)) in *.
  assert (Hwf1 : wf g1).
  { destruct Hwf as (H1 & H2 & H3 & H4). unfold wf, g1. cbn. auto. }
  assert (Hmw : msg_wf m).
  { unfold msg_wf, m. cbn [msg_len msg_buf]. rewrite length_map, Hxs.
    unfold MAX_MAX_MSG_LEN in HN. split; [lia | reflexivity]. }
  assert (Hml : 1 <= msg_len m <= MAX_MAX_MSG_LEN) by (unfold m; cbn; lia).
  assert (Hgen : all_draw gen) by (apply (all_draw_nexts MainThread xs)).
  assert (Hdgen : draws gen
                  = (MainThread, DrawRange 1 (opt_msglen o) len)
                      :: map (fun x => (MainThread, DrawNext x)) xs).
  { unfold gen. cbn [draws flat_map app]. f_equal. apply draws_nexts. }
  pose proof (workers_spec o e m g1 Hwf1 Hmw Hml) as Hw. cbv zeta in Hw.
  change (prng g1) with s2 in Hw. change (msg_len m) with len in Hw.
  destruct (brahe_prng_range s2 1 len) as [trunc s3]. cbn [fst snd] in *.
  destruct Hw as (HT & Hwf2 & Hm2 & neww & Hl2 & Hb2 & Hd2 & Hr2).
  assert (Hpre : exists rest,
             (MainThread, DrawRange 1 (opt_msglen o) len)
               :: map (fun x => (MainThread, DrawNext x)) xs
               ++ [(RxThread, DrawRange 1 len trunc)]
             = draws (gen ++ neww) ++ rest).
  { rewrite draws_app, Hdgen.
    destruct Hd2 as [(Hd & _) | (Hd & _)]; rewrite Hd.
    - exists [(RxThread, DrawRange 1 len trunc)]. rewrite app_nil_r.
      reflexivity.
    - exists []. rewrite app_nil_r. reflexivity. }
  assert (Hl1 : log g1 = log g ++ gen) by reflexivity.
  assert (Hm1 : msgs g1 = msgs g) by reflexivity.
  assert (Htx1 : tx_bytes g1 = tx_bytes g) by reflexivity.
  assert (Hrx1 : rx_bytes g1 = rx_bytes g) by reflexivity.
  assert (Hrest : match r_sigint e with
                  | Some SigBuild => signal_handler MainThread
                  | _ =>
                      bind (msg_gen MainThread (s32 (u32 (- opt_msglen o))))
                        (fun m0 =>
                           match r_sigint e with
                           | Some SigSpawn => signal_handler MainThread
                           | _ => join_workers o e m0
                           end)
                  end g
                  = match r_sigint e with
                    | Some SigSpawn => signal_handler MainThread g1
                    | _ => join_workers o e m g1
                    end).
  { destruct (r_sigint e) as [[| |]|]; try congruence;
      unfold bind; rewrite Egen; reflexivity. }
  rewrite Hrest. clear Hrest Egen. clearbody g1. unfold join_workers.
  destruct (r_sigint e) as [[| | on]|]; try congruence.
  - (* interrupted before the workers run *)
    destruct (Hsig MainThread g1 gen Hwf1 Hm1 Hl1 (draw_in_bounds gen Hgen))
      as (H1 & H2 & new & H3 & H4 & H5 & H6).
    { exists [(RxThread, DrawRange 1 len trunc)]. rewrite Hdgen. reflexivity. }
    rewrite signal_handler_spec in *. cbn [final] in *.
    splits; try assumption. exists new. splits; (assumption || apply H6).
  - (* interrupted while the workers run *)
    assert (Hs : forall g2, wf g2 -> msgs g2 = msgs g1 ->
               log g2 = log g1 ++ neww ->
               let r := signal_handler (A := unit) on g2 in
               wf (final r) /\ msgs (final r) = msgs g /\
               exists new,
                 log (final r) = log g ++ new /\ Forall read_in_bounds new /\
                 (exists rest,
                     (MainThread, DrawRange 1 (opt_msglen o) len)
                       :: map (fun x => (MainThread, DrawNext x)) xs
                       ++ [(RxThread, DrawRange 1 len trunc)]
                     = draws new ++ rest) /\
                 match r with
                 | Exit c _ => c = -1 /\ existsb fatal_event new = true
                 | _ => False
                 end).
    { intros g2 Hwfg Hmg Hlg.
      apply (Hsig on g2 (gen ++ neww)); try assumption; try congruence.
      - rewrite Hlg, Hl1, <- app_assoc. reflexivity.
      - apply Forall_app. split; [apply draw_in_bounds|]; assumption. }
    destruct (workers o e m g1) as [[] g2 | c g2 | g2 | g2];
      cbn [final] in *; try contradiction.
    + apply Hs; assumption.
    + splits; try assumption; try congruence.
      exists (gen ++ neww). rewrite existsb_app, (draw_not_fatal gen Hgen).
      splits; try assumption.
      * rewrite Hl2, Hl1, <- app_assoc. reflexivity.
      * apply Forall_app. split; [apply draw_in_bounds|]; assumption.
      * apply Hr2.
      * apply Hr2.
    + apply Hs; assumption.
  - (* no interrupt *)
    destruct (workers o e m g1) as [[] g2 | c g2 | g2 | g2];
      cbn [final] in *; try contradiction;
      (splits; try assumption; try congruence);
      exists (gen ++ neww);
      rewrite ?existsb_app, ?(draw_not_fatal gen Hgen);
      (split; [rewrite Hl2, Hl1, <- app_assoc; reflexivity|]);
      (split; [apply Forall_app; split; [apply draw_in_bounds|]; assumption|]);
      (split; [assumption|]).
    + destruct Hr2 as (Hdr & Hp & Hf & Hby & Htx & Hrx).
      assert (Hdall : draws (gen ++ neww)
                      = (MainThread, DrawRange 1 (opt_msglen o) len)
                          :: map (fun x => (MainThread, DrawNext x)) xs
                          ++ [(RxThread, DrawRange 1 len trunc)]).
      { rewrite draws_app, Hdgen, Hdr. reflexivity. }
      splits; try assumption.
      exists len, trunc. unfold msg_lengths, trunc_lengths. rewrite Hdall.
      destruct (msg_lengths_round (opt_msglen o) len trunc xs) as (E1 & E2).
      rewrite bytes_read_app, (draw_bytes_read gen Hgen).
      splits; try assumption; try lia; congruence.
    + assumption.
    + exact I.
Qed.

(** ** The loop of main *)

Lemma main_loop_nil o g :
  main_loop o [] g
  = if (opt_nmsgs o =? 0) || (msgs g <? opt_nmsgs o) then Hang g else Ret tt g.
Proof.
  cbn [main_loop]. unfold bind, get.
  destruct ((opt_nmsgs o =? 0) || (msgs g <? opt_nmsgs o)); reflexivity.
Qed.

Lemma main_loop_cons o e envs g :
  main_loop o (e :: envs) g
  = if (opt_nmsgs o =? 0) || (msgs g <? opt_nmsgs o) then
      match round o e g with
      | Ret _ g1 => main_loop o envs (set_msgs (u32 (msgs g1 + 1)) g1)
      | Exit c g1 => Exit c g1
      | Hang g1 => Hang g1
      | Fault g1 => Fault g1
      end
    else Ret tt g.
Proof.
  cbn [main_loop]. unfold bind at 1, get.
  destruct ((opt_nmsgs o =? 0) || (msgs g <? opt_nmsgs o)); [| reflexivity].
  unfold bind at 1. destruct (round o e g); try reflexivity.
Qed.

Lemma msg_lengths_app a b : msg_lengths (a ++ b) = msg_lengths a ++ msg_lengths b.
Proof. unfold msg_lengths, msg_lengths_of. rewrite draws_app. apply flat_map_app. Qed.

Lemma trunc_lengths_app a b :
  trunc_lengths (a ++ b) = trunc_lengths a ++ trunc_lengths b.
Proof.
  unfold trunc_lengths, trunc_lengths_of. rewrite draws_app. apply flat_map_app.
Qed.

Lemma u64_add_r a b : u64 (a + u64 b) = u64 (a + b).
Proof. unfold u64. apply Zplus_mod_idemp_r. Qed.

Lemma main_loop_spec o envs : forall g,
  wf g -> 1 <= opt_msglen o <= MAX_MAX_MSG_LEN ->
  0 <= opt_nmsgs o < 2 ^ 32 ->
  let r := main_loop o envs g in
  let g' := final r in
  wf g' /\
  exists new k,
    log g' = log g ++ new /\ Forall read_in_bounds new /\
    (exists rest,
        run_draws (S k) (opt_msglen o) (prng g) = draws new ++ rest) /\
    match r with
    | Ret _ _ =>
        draws new = run_draws k (opt_msglen o) (prng g) /\
        existsb fatal_event new = false /\
        0 < opt_nmsgs o /\
        (msgs g <= opt_nmsgs o ->
         msgs g' = opt_nmsgs o /\ Z.of_nat k = opt_nmsgs o - msgs g) /\
        tx_bytes g' = u64 (tx_bytes g + sum (msg_lengths new)) /\
        rx_bytes g' = u64 (rx_bytes g + sum (trunc_lengths new)) /\
        bytes_read new = sum (trunc_lengths new) /\
        List.length (msg_lengths new) = k /\
        List.length (trunc_lengths new) = k /\
        Forall (fun l => 1 <= l <= opt_msglen o) (msg_lengths new) /\
        Forall (fun t => 1 <= t <= opt_msglen o) (trunc_lengths new)
    | Exit c _ => c = -1 /\ existsb fatal_event new = true
    | Hang _ => True
    | Fault _ => False
    end.
Proof.
  induction envs as [|e envs IH]; intros g Hwf HN Hn; cbv zeta.
  - rewrite main_loop_nil.
    destruct ((opt_nmsgs o =? 0) || (msgs g <? opt_nmsgs o)) eqn:Hc;
      cbn [final]; (split; [assumption|]); exists [], 0%nat;
      rewrite app_nil_r;
      (split; [reflexivity|]); (split; [constructor|]);
      (split; [eexists; reflexivity|]); [exact I|].
    apply orb_false_iff in Hc. destruct Hc as (H0 & Hlt).
    apply Z.eqb_neq in H0. apply Z.ltb_ge in Hlt.
    destruct Hwf as (Hrx & Htx & Hm & _).
    unfold msg_lengths, trunc_lengths, bytes_read, sum. cbn.
    rewrite !Z.add_0_r, !u64_small by assumption.
    splits; try reflexivity; try constructor; lia.
  - rewrite main_loop_cons.
    destruct ((opt_nmsgs o =? 0) || (msgs g <? opt_nmsgs o)) eqn:Hc.
    2:{ cbn [final]. split; [assumption|]. exists [], 0%nat.
        rewrite app_nil_r.
        split; [reflexivity|]. split; [constructor|].
        split; [eexists; reflexivity|].
        apply orb_false_iff in Hc. destruct Hc as (H0 & Hlt).
        apply Z.eqb_neq in H0. apply Z.ltb_ge in Hlt.
        destruct Hwf as (Hrx & Htx & Hm & _).
        unfold msg_lengths, trunc_lengths, bytes_read, sum. cbn.
        rewrite !Z.add_0_r, !u64_small by assumption.
        splits; try reflexivity; try constructor; lia. }
    pose proof (round_spec o e g Hwf HN) as Hr. cbv zeta in Hr.
    destruct Hr as (Hwf1 & Hm1 & new1 & Hl1 & Hb1 & (rest1 & Hp1) & Hr).
    destruct (round o e g) as [[] g1 | c g1 | g1 | g1]; cbn [final] in *;
      try contradiction.
    + (* the round is completed *)
      destruct Hr as (Hd1 & Hs1 & Hf1 & len & trunc & HT & Hlen & Hml & Htl
                      & Hby & Htx & Hrx).
      set (g2 := set_msgs (u32 (msgs g1 + 1)) g1).
      assert (Hwf2 : wf g2).
      { destruct Hwf1 as (H1 & H2 & H3 & H4). unfold wf, g2. cbn.
        splits; try lia; try assumption. apply Z.mod_pos_bound. lia.
        apply Z.mod_pos_bound. lia. }
      specialize (IH g2 Hwf2 HN Hn). cbv zeta in IH.
      destruct IH as (Hwf' & new2 & k & Hl2 & Hb2 & (rest2 & Hp2) & IH).
      split; [assumption|].
      exists (new1 ++ new2), (S k).
      assert (Hrun : forall j, run_draws (S j) (opt_msglen o) (prng g)
                               = draws new1
                                   ++ run_draws j (opt_msglen o) (prng g2)).
      { intros j. cbn [run_draws]. rewrite Hd1. change (prng g2) with (prng g1).
        rewrite Hs1. destruct (round_draws (opt_msglen o) (prng g)).
        reflexivity. }
      split; [rewrite Hl2; unfold g2; cbn [log set_msgs]; rewrite Hl1,
                <- app_assoc; reflexivity|].
      split; [apply Forall_app; split; assumption|].
      split; [exists rest2; rewrite Hrun, Hp2, draws_app, <- app_assoc;
              reflexivity|].
      destruct (main_loop o envs g2) as [[] g3 | c g3 | g3 | g3];
        cbn [final] in *; try contradiction.
      * destruct IH as (Hd2 & Hf2 & Hpos & Hmsgs & Htx2 & Hrx2 & Hby2 & Hk1 & Hk2
                        & Hall1 & Hall2).
        rewrite msg_lengths_app, trunc_lengths_app, Hml, Htl, bytes_read_app,
          draws_app, existsb_app, Hf1, Hf2, Hrun, Hd2.
        cbn [app List.length sum fold_right].
        fold (sum (msg_lengths new2)). fold (sum (trunc_lengths new2)).
        assert (Hmg : msgs g < opt_nmsgs o).
        { apply orb_true_iff in Hc. destruct Hc as [H0 | Hlt];
            [apply Z.eqb_eq in H0; lia | apply Z.ltb_lt in Hlt; lia]. }
        assert (Hm2 : msgs g2 = msgs g + 1).
        { unfold g2. cbn [msgs set_msgs]. rewrite Hm1. apply u32_small.
          destruct Hwf as (_ & _ & Hmm & _). lia. }
        split; [reflexivity|]. split; [reflexivity|]. split; [assumption|].
        split; [intros _; specialize (Hmsgs ltac:(lia)); lia|].
        split.
        { rewrite Htx2. unfold g2. cbn [tx_bytes set_msgs]. rewrite Htx.
          rewrite u64_add_l. f_equal. lia. }
        split.
        { rewrite Hrx2. unfold g2. cbn [rx_bytes set_msgs]. rewrite Hrx.
          rewrite u64_add_l. f_equal. lia. }
        split; [lia|]. split; [lia|]. split; [lia|].
        split; constructor; (lia || assumption).
      * destruct IH as (-> & Hf2). rewrite existsb_app, Hf2, orb_true_r.
        split; reflexivity.
      * exact I.
    + destruct Hr as (-> & Hf). split; [assumption|].
      exists new1, 0%nat. splits; try assumption; try reflexivity.
      exists rest1. cbn [run_draws].
      destruct (round_draws (opt_msglen o) (prng g)) as [d s]. cbn [fst] in Hp1.
      rewrite app_nil_r. assumption.
    + split; [assumption|].
      exists new1, 0%nat. splits; try assumption; try reflexivity.
      exists rest1. cbn [run_draws].
      destruct (round_draws (opt_msglen o) (prng g)) as [d s]. cbn [fst] in Hp1.
      rewrite app_nil_r. assumption.
Qed.

(** ** main *)

Lemma opts_ok_default : opts_ok default_options.
Proof.
  unfold opts_ok, default_options, MAX_MAX_MSG_LEN, DEFAULT_MAX_MSG_LEN.
  cbn [opt_msglen opt_nmsgs]. lia.
Qed.

Lemma parse_args_ok n : forall args o o',
  (List.length args <= n)%nat -> opts_ok o ->
  parse_args args o = Some o' -> opts_ok o'.
Proof.
  induction n as [|n IH]; intros [|a rest] o o' Hn Ho; cbn [List.length] in Hn;
    try lia; cbn [parse_args]; try (intros [= <-]; assumption).
  destruct (is_opt a "-h" "--help"); [discriminate|].
  destruct (is_opt a "-i" "--seed").
  { destruct rest as [|v rest']; [discriminate|]. cbn [List.length] in Hn.
    apply IH; [lia | exact Ho]. }
  destruct (is_opt a "-l" "--len").
  { destruct rest as [|v rest']; [discriminate|]. cbn [List.length] in Hn.
    destruct ((u32 (strtoul v) =? 0) || (MAX_MAX_MSG_LEN <? u32 (strtoul v)))
      eqn:Hc; [discriminate|].
    apply orb_false_iff in Hc. destruct Hc as (H0 & Hmax).
    apply Z.eqb_neq in H0. apply Z.ltb_ge in Hmax.
    apply IH; [lia|]. destruct Ho as (_ & Hnm). split; [|exact Hnm].
    cbn [opt_msglen set_msglen].
    pose proof (Z.mod_pos_bound (strtoul v) (2 ^ 32) ltac:(lia)) as Hb.
    unfold u32 in *. lia. }
  destruct (String.eqb a "-n").
  { destruct rest as [|v rest']; [discriminate|]. cbn [List.length] in Hn.
    apply IH; [lia|]. destruct Ho as (Hl & _). split; [exact Hl|].
    cbn [opt_nmsgs set_nmsgs]. unfold u32. apply Z.mod_pos_bound. lia. }
  destruct (is_opt a "-s" "--speed").
  { destruct rest as [|v rest']; [discriminate|]. cbn [List.length] in Hn.
    apply IH; [lia | exact Ho]. }
  destruct (is_opt a "-v" "--verbose").
  { apply IH; [lia | exact Ho]. }
  destruct (opt_txdev o); [destruct (opt_rxdev o); [discriminate|]|];
    apply IH; try lia; exact Ho.
Qed.

Lemma wf_loop_entry o now : wf (loop_entry o now).
Proof.
  unfold wf, loop_entry. cbn. rewrite repeat_length. splits; try lia.
Qed.

Lemma main_run_unfold o now envs :
  main_run o now envs startup
  = match main_loop o envs (loop_entry o now) with
    | Ret _ g' =>
        Exit 0 (add_log (print_stats MainThread (msgs g') (tx_bytes g')
                           (rx_bytes g')) g')
    | Exit c g' => Exit c g'
    | Hang g' => Hang g'
    | Fault g' => Fault g'
    end.
Proof.
  unfold main_run, bind, modify, loop_entry.
  destruct (main_loop o envs _); reflexivity.
Qed.

(** The draws of [k] rounds begin the draws of any longer run. *)
Lemma run_draws_more maxlen k : forall j s,
  exists rest, run_draws (k + j) maxlen s = run_draws k maxlen s ++ rest.
Proof.
  induction k as [|k IH]; intros j s; cbn [run_draws Nat.add].
  - eexists. reflexivity.
  - destruct (round_draws maxlen s) as [d s'].
    destruct (IH j s') as (rest & ->). exists rest. apply app_assoc.
Qed.

Lemma prefix_comparable {X} (l a b ra rb : list X) :
  l = a ++ ra -> l = b ++ rb -> exists t, a = b ++ t \/ b = a ++ t.
Proof.
  revert l b ra rb. induction a as [|x a IH]; intros l b ra rb Ha Hb.
  - exists b. right. reflexivity.
  - destruct b as [|y b].
    + exists (x :: a). left. reflexivity.
    + subst l. injection Hb as -> Hb.
      destruct (IH _ b ra rb eq_refl Hb) as (t & [-> | ->]); exists t; auto.
Qed.

Lemma run_draws_no_tx maxlen k : forall s,
  Forall (fun d => fst d <> TxThread) (run_draws k maxlen s).
Proof.
  induction k as [|k IH]; intros s; cbn [run_draws]; [constructor|].
  unfold round_draws.
  destruct (brahe_prng_range s 1 maxlen) as [len s1].
  destruct (next_n (Z.to_nat len) s1) as [xs s2].
  destruct (brahe_prng_range s2 1 len) as [trunc s3].
  apply Forall_app. split; [| apply IH].
  constructor; [discriminate|]. apply Forall_app. split.
  - apply Forall_forall. intros d Hd. apply in_map_iff in Hd.
    destruct Hd as (x & <- & _). discriminate.
  - constructor; [discriminate | constructor].
Qed.

(** ** print_buffer ends *)

Lemma print_buffer_from_some self buf len d : forall k fuel,
  0 <= len <= 2 ^ 32 - 16 ->
  (k + d = row_count len)%nat -> (d < fuel)%nat ->
  exists out, print_buffer_from fuel self buf len (row_offset k) = Some out.
Proof using. pure_context.
  induction d as [|d IH]; intros k [|fuel] Hlen Hk Hfuel; try lia;
    pose proof (row_count_bounds len ltac:(lia)) as Hrc;
    cbn [print_buffer_from].
  - replace (row_offset k <? len) with false; [eexists; reflexivity|].
    symmetry. apply Z.ltb_ge. unfold row_offset. lia.
  - replace (row_offset k <? len) with true
      by (symmetry; apply Z.ltb_lt; unfold row_offset; lia).
    replace (u32 (row_offset k + 16)) with (row_offset (S k)).
    2:{ unfold u32, row_offset in *. rewrite Z.mod_small; lia. }
    destruct (IH (S k) fuel Hlen ltac:(lia) ltac:(lia)) as (out & ->).
    eexists. reflexivity.
Qed.

Lemma print_buffer_some self buf len :
  0 <= len <= 2 ^ 32 - 16 -> exists out, print_buffer self buf len = Some out.
Proof using. pure_context.
  intros Hlen. unfold print_buffer. change 0 with (row_offset 0) at 1.
  apply print_buffer_from_some with (d := row_count len); try assumption;
    try lia.
  unfold loop_fuel, row_count.
  pose proof (Z.div_mod (len + 15) 16 ltac:(lia)).
  pose proof (Z.mod_pos_bound (len + 15) 16 ltac:(lia)).
  pose proof (Z.div_mod len 16 ltac:(lia)).
  pose proof (Z.mod_pos_bound len 16 ltac:(lia)). lia.
Qed.

Lemma device_open_ret o self e pathname flags makeraw g fd g1 :
  device_open o self e pathname flags makeraw g = Ret fd g1 ->
  exists out, all_stdout out /\ g1 = add_log out g.
Proof.
  intros E.
  destruct (out_only_device_open o self e pathname flags makeraw g)
    as [(a & out & E' & Ho) | (pre & text & E' & _)]; rewrite E' in E.
  - injection E as _ <-. exists out. split; [assumption | reflexivity].
  - discriminate.
Qed.

(** ** receive_start on a script of data chunks *)

Lemma receive_start_unfold o e m :
  receive_start o e m
  = (_ <- device_open o RxThread (rx_dev e) (opt_rxdev o) O_RDONLY true ;;
     len <- prng_range RxThread 1 (msg_len m) ;;
     pr_debug o RxThread (ESC_GREEN +s+ "Receiving first " +s+ fmt_u len +s+
                          " bytes of message of size " +s+
                          fmt_u (msg_len m) +s+ NL) ;;
     rx_loop (rx_reads e) len 0 ;;
     rx_finish o m len).
Proof. reflexivity. Qed.

Lemma rx_finish_cases o m len g :
  wf g -> msg_wf m -> 1 <= len <= msg_len m ->
  msg_len m <= MAX_MAX_MSG_LEN ->
  (memcmp (rx_buf g) (msg_buf m) (Z.to_nat len) = 0 ->
   exists out, all_stdout out /\ rx_finish o m len g = Ret tt (add_log out g))
  /\ (memcmp (rx_buf g) (msg_buf m) (Z.to_nat len) <> 0 ->
      exists diff,
        cmp_buffer RxThread (rx_buf g) (msg_buf m) len = Some diff /\
        rx_finish o m len g
        = Exit (-1)
            (add_log (pr_error RxThread ("Data mismatch" +s+ NL)
                        :: diff
                        ++ print_stats RxThread (msgs g) (tx_bytes g)
                             (rx_bytes g)) g)).
Proof.
  intros Hwf (Hml & Hmb) Hlen Hmax.
  assert (Hfault : (MAX_MAX_MSG_LEN <? len) || (msg_len m <? len) = false).
  { apply orb_false_iff. split; apply Z.ltb_ge; lia. }
  unfold rx_finish, bind, get. cbv beta iota. rewrite Hfault.
  split; intros Hc.
  - apply Z.eqb_eq in Hc. rewrite Hc. cbn [negb].
    destruct (pr_debug_ret o RxThread (ESC_GREEN +s+ "OK" +s+ NL) g)
      as (out & Hout & ->).
    exists out. split; [assumption | reflexivity].
  - destruct (cmp_buffer_some RxThread (rx_buf g) (msg_buf m) len)
      as (diff & Ec & _); try lia.
    { destruct Hwf as (_ & _ & _ & H4). rewrite H4.
      unfold MAX_MAX_MSG_LEN in *. lia. }
    exists diff. split; [exact Ec|].
    apply Z.eqb_neq in Hc. rewrite Hc. cbn [negb].
    unfold emit. rewrite Ec. unfold emit_opt, emit, exit.
    cbn [add_log log msgs tx_bytes rx_bytes]. f_equal.
    unfold add_log. cbn [log prng rx_bytes tx_bytes msgs rx_buf].
    rewrite <- ?app_assoc. reflexivity.
Qed.

(** * Helpers: strings, the text of a trace, the speed table *)

Lemma length_append (s t : string) :
  String.length (s +s+ t) = (String.length s + String.length t)%nat.
Proof using. pure_context.
  induction s as [|c s IH]; cbn; [reflexivity | rewrite IH; reflexivity].
Qed.

Lemma append_assoc (s t u : string) : (s +s+ t) +s+ u = s +s+ t +s+ u.
Proof using. pure_context.
  induction s as [|c s IH]; cbn; [reflexivity | rewrite IH; reflexivity].
Qed.

Lemma text_of_app (a b : trace) : text_of (a ++ b) = text_of a +s+ text_of b.
Proof using. pure_context.
  induction a as [|ev a IH]; cbn; [reflexivity|].
  destruct ev; try assumption. change (fold_right _ _ (a ++ b))
    with (text_of (a ++ b)). rewrite IH. symmetry. apply append_assoc.
Qed.

Lemma for_loop_cmp_hex_same b idx : forall res,
  for_loop idx (cmp_hex b b) res
  = (map (fun i => printf (" " +s+ fmt_02x (Z_of_byte (at_index b i)))) idx,
     res).
Proof using. pure_context.
  induction idx as [|i idx IH]; intros res; [reflexivity|].
  cbn [for_loop map]. unfold cmp_hex at 1. rewrite Ascii.eqb_refl, IH.
  reflexivity.
Qed.

Lemma cmp_line_same self a b len :
  cmp_line self a b b len = (print_line self a b len, 0).
Proof using. pure_context.
  unfold cmp_line, print_line. rewrite for_loop_cmp_hex_same.
  replace (map (cmp_char b b) (range 0 len))
    with (map (fun i => putchar (printable (at_index b i))) (range 0 len));
    [reflexivity|].
  apply map_ext. intros i. unfold cmp_char. rewrite Ascii.eqb_refl.
  reflexivity.
Qed.

Lemma speeds_round_trip sym val :
  In (sym, val) speeds -> get_speed_sym val = sym /\ get_speed_val sym = val.
Proof using. pure_context.
  intros H. unfold speeds in H. cbn [In] in H.
  repeat (destruct H as [H|H];
          [injection H as <- <-; split; vm_compute; reflexivity|]).
  contradiction.
Qed.

Lemma unknown_speed_sym val :
  s32 (get_speed_sym val) = -1 <-> ~ known_speed val.
Proof using. pure_context.
  unfold known_speed. split.
  - intros E H. apply in_map_iff in H. destruct H as ([sym v] & Hv & H).
    cbn [snd] in Hv. subst v.
    apply speeds_round_trip in H as H'. destruct H' as (Hs & _).
    rewrite Hs in E. clear Hs. unfold speeds in H. cbn [In] in H.
    repeat (destruct H as [H|H];
            [injection H as <- _; vm_compute in E; discriminate E|]).
    contradiction.
  - intros H. unfold get_speed_sym.
    destruct (find (fun e => snd e =? val) speeds) as [e|] eqn:F;
      [|reflexivity].
    apply find_some in F. destruct F as (Hin & Hv). apply Z.eqb_eq in Hv.
    exfalso. apply H. rewrite <- Hv. apply in_map. assumption.
Qed.

Lemma pr_debug_out o self text g :
  pr_debug o self text g
  = Ret tt (add_log (if opt_verbose o then [pr_info self text] else []) g).
Proof.
  unfold pr_debug. destruct (opt_verbose o); [reflexivity|].
  unfold ret. rewrite add_log_nil. reflexivity.
Qed.

Lemma all_stdout_debug (v : bool) self text :
  all_stdout (if v then [pr_info self text] else []).
Proof using. pure_context. destruct v; reflexivity. Qed.

Lemma set_prng_same g : set_prng (prng g) g = g.
Proof. destruct g; reflexivity. Qed.

Lemma msg_lengths_nexts self xs :
  msg_lengths (map (fun x => EvDraw self (DrawNext x)) xs) = [].
Proof using. pure_context.
  unfold msg_lengths. rewrite draws_nexts.
  induction xs as [|x l IH]; [reflexivity|].
  cbn [map msg_lengths_of flat_map].
  fold (msg_lengths_of (map (fun x => (self, DrawNext x)) l)). rewrite IH.
  destruct self; reflexivity.
Qed.

(** ** The text of a row *)

Lemma text_of_printf (f : Z -> string) (l : list Z) :
  text_of (map (fun i => printf (f i)) l) = concat_text (map f l).
Proof using. pure_context.
  induction l as [|i l IH]; [reflexivity|].
  cbn [map text_of fold_right printf concat_text].
  change (fold_right _ _ (map _ l)) with (text_of (map (fun i => printf (f i)) l)).
  rewrite IH. reflexivity.
Qed.

Lemma text_of_events_ext (f : Z -> event) (h : Z -> string) (l : list Z) :
  (forall i, In i l -> text_of [f i] = h i) ->
  text_of (map f l) = concat_text (map h l).
Proof using. pure_context.
  induction l as [|i l IH]; intros H; [reflexivity|].
  cbn [map concat_text]. change (f i :: map f l) with ([f i] ++ map f l).
  rewrite text_of_app, H by (left; reflexivity).
  rewrite IH; [reflexivity|]. intros j Hj. apply H. right. assumption.
Qed.

Lemma append_nil_r (s : string) : s +s+ EmptyString = s.
Proof using. pure_context.
  induction s as [|c s IH]; cbn; [reflexivity | rewrite IH; reflexivity].
Qed.

(** Going through a row by index is going through its bytes. *)
Lemma map_at_index {X} (f : byte -> X) (r : list byte) :
  map (fun i => f (at_index r i)) (range 0 (byte_count r)) = map f r.
Proof using. pure_context.
  induction r as [|a r IH]; [reflexivity|].
  unfold byte_count. cbn [List.length]. rewrite range_succ. cbn [map].
  change (at_index (a :: r) 0) with a. f_equal.
  rewrite map_map. rewrite <- IH. unfold byte_count.
  apply map_ext_in. intros i Hi. apply in_range in Hi.
  rewrite at_index_succ by lia. reflexivity.
Qed.

Lemma map_at_index2 {X} (f : byte -> byte -> X) (r1 : list byte) :
  forall r2, List.length r1 = List.length r2 ->
  map (fun i => f (at_index r1 i) (at_index r2 i)) (range 0 (byte_count r1))
  = map (fun p => f (fst p) (snd p)) (combine r1 r2).
Proof using. pure_context.
  induction r1 as [|a r1 IH]; intros [|b r2] Hl; try discriminate;
    [reflexivity|].
  unfold byte_count. cbn [List.length]. rewrite range_succ.
  cbn [map combine fst snd].
  change (at_index (a :: r1) 0) with a. change (at_index (b :: r2) 0) with b.
  f_equal. rewrite map_map.
  rewrite <- (IH r2) by (injection Hl as Hl; exact Hl). unfold byte_count.
  apply map_ext_in. intros i Hi. apply in_range in Hi.
  rewrite !at_index_succ by lia. reflexivity.
Qed.

(** The output of cmp_line's first loop, byte by byte. *)
Lemma cmp_hex_events r1 r2 idx : forall res,
  fst (for_loop idx (cmp_hex r1 r2) res)
  = map (fun i =>
           printf (" " +s+
                   flagged (differs (at_index r1 i, at_index r2 i))
                     (fmt_02x (Z_of_byte (at_index r1 i))))) idx.
Proof using. pure_context.
  induction idx as [|i idx IH]; intros res; [reflexivity|].
  cbn [for_loop map]. unfold cmp_hex at 1. unfold differs, flagged.
  cbn [fst snd].
  destruct (Ascii.eqb (at_index r1 i) (at_index r2 i)); cbn [negb].
  - specialize (IH res).
    destruct (for_loop idx (cmp_hex r1 r2) res) as [o2 s2].
    cbn [fst app] in *. rewrite IH. reflexivity.
  - specialize (IH (res + 1)).
    destruct (for_loop idx (cmp_hex r1 r2) (res + 1)) as [o2 s2].
    cbn [fst app] in *. rewrite IH. reflexivity.
Qed.

Lemma map_const {X Y} (c : Y) (l : list X) :
  map (fun _ => c) l = repeat c (List.length l).
Proof using. pure_context.
  induction l as [|x l IH]; cbn; [reflexivity | rewrite IH; reflexivity].
Qed.

Lemma text_of_blank_cells (lo hi : Z) :
  text_of (map (fun _ : Z => printf "   ") (range lo hi))
  = concat_text (repeat "   "%string (Z.to_nat (hi - lo))).
Proof using. pure_context.
  rewrite (text_of_printf (fun _ => "   "%string)).
  rewrite map_const. unfold range. rewrite length_map, length_seq.
  reflexivity.
Qed.

Lemma text_of_one f t : text_of [EvOut f t] = t.
Proof using. pure_context. cbn. apply append_nil_r. Qed.

Lemma cmp_line_text self a r1 r2 :
  List.length r1 = List.length r2 ->
  text_of (fst (cmp_line self a r1 r2 (byte_count r1)))
  = row_text self a r1 r2.
Proof using. pure_context.
  intros Hl. unfold cmp_line.
  pose proof (cmp_hex_events r1 r2 (range 0 (byte_count r1)) 0) as Hhex.
  destruct (for_loop (range 0 (byte_count r1)) (cmp_hex r1 r2) 0)
    as [hex res].
  cbn [fst] in *. subst hex.
  rewrite !text_of_app.
  unfold pr_info at 1. unfold printf at 3. unfold puts.
  rewrite !text_of_one.
  rewrite (text_of_printf
             (fun i => " " +s+
                       flagged (differs (at_index r1 i, at_index r2 i))
                         (fmt_02x (Z_of_byte (at_index r1 i))))).
  rewrite (map_at_index2
             (fun x y => " " +s+ flagged (differs (x, y))
                                   (fmt_02x (Z_of_byte x)))) by assumption.
  rewrite text_of_blank_cells.
  rewrite (text_of_events_ext (cmp_char r1 r2)
             (fun i => flagged (differs (at_index r1 i, at_index r2 i))
                         (String (shown_char (at_index r1 i)) EmptyString))).
  2:{ intros i _. unfold cmp_char, differs, flagged, printable, shown_char.
      cbn [fst snd].
      destruct (Ascii.eqb (at_index r1 i) (at_index r2 i)); cbn [negb];
        [unfold putchar | unfold printf]; apply text_of_one. }
  rewrite (map_at_index2
             (fun x y => flagged (differs (x, y))
                           (String (shown_char x) EmptyString)))
    by assumption.
  unfold row_text.
  replace (Z.to_nat (16 - byte_count r1)) with (16 - List.length r1)%nat
    by (unfold byte_count; lia).
  rewrite !append_assoc.
  replace (map (fun p => " " +s+ flagged (differs (fst p, snd p))
                                   (fmt_02x (Z_of_byte (fst p))))
             (combine r1 r2))
    with (map (fun p => " " +s+ flagged (differs p)
                                  (fmt_02x (Z_of_byte (fst p))))
            (combine r1 r2))
    by (apply map_ext; intros [x y]; reflexivity).
  replace (map (fun p => flagged (differs (fst p, snd p))
                           (String (shown_char (fst p)) EmptyString))
             (combine r1 r2))
    with (map (fun p => flagged (differs p)
                          (String (shown_char (fst p)) EmptyString))
            (combine r1 r2))
    by (apply map_ext; intros [x y]; reflexivity).
  reflexivity.
Qed.

Lemma print_line_text_rows self a r :
  text_of (print_line self a r (byte_count r)) = row_text self a r r.
Proof using. pure_context.
  rewrite <- (cmp_line_text self a r r eq_refl), cmp_line_same. reflexivity.
Qed.

Lemma length_rows (b1 b2 : list byte) k :
  List.length b1 = List.length b2 ->
  List.length (row k b1) = List.length (row k b2).
Proof using. pure_context.
  intros H. unfold row. rewrite !length_firstn, !length_skipn. lia.
Qed.

Lemma render_row_text self b1 b2 k :
  List.length b1 = List.length b2 ->
  text_of (render_row self b1 b2 k) = diff_row_text self b1 b2 k.
Proof using. pure_context.
  intros H. unfold render_row, diff_row_text.
  rewrite text_of_app, cmp_line_text by (apply length_rows; assumption).
  destruct (0 <? diff_count (row k b1) (row k b2)).
  - change (pr_info self ("Expected:" +s+ NL)
              :: print_line self (row_offset k) (row k b2)
                   (byte_count (row k b2)))
      with ([pr_info self ("Expected:" +s+ NL)]
              ++ print_line self (row_offset k) (row k b2)
                   (byte_count (row k b2))).
    rewrite text_of_app, print_line_text_rows. unfold pr_info.
    rewrite text_of_one. unfold expected_text. rewrite !append_assoc.
    reflexivity.
  - reflexivity.
Qed.

Lemma diff_rows_text self b1 b2 ks :
  List.length b1 = List.length b2 ->
  text_of (flat_map (render_row self b1 b2) ks)
  = concat_text (map (diff_row_text self b1 b2) ks).
Proof using. pure_context.
  intros H. induction ks as [|k ks IH]; [reflexivity|].
  cbn [flat_map map concat_text].
  rewrite text_of_app, render_row_text, IH by assumption. reflexivity.
Qed.

(** * The workers, case by case of what the devices answer *)

(** ** device_open *)

Lemma speed_known_iff v : speed_known v = true <-> known_speed v.
Proof using. pure_context.
  unfold speed_known, known_speed. rewrite existsb_exists, in_map_iff.
  split; intros (e & H1 & H2); exists e.
  - apply Z.eqb_eq in H2. auto.
  - split; [assumption | apply Z.eqb_eq; assumption].
Qed.

Lemma speed_known_sym v :
  (s32 (get_speed_sym v) =? -1) = negb (speed_known v).
Proof using. pure_context.
  destruct (speed_known v) eqn:K; cbn [negb].
  - apply Z.eqb_neq. intros E. apply unknown_speed_sym in E. apply E.
    apply speed_known_iff. assumption.
  - apply Z.eqb_eq. apply unknown_speed_sym. intros H.
    apply speed_known_iff in H. congruence.
Qed.

Ltac open_step :=
  try unfold ret; try unfold emit; try unfold exit;
  cbv beta iota; repeat (rewrite pr_debug_out; cbv beta iota);
  rewrite ?add_log_app.

Ltac open_ret :=
  open_step; eexists _, _; split; [reflexivity|]; split; [|reflexivity];
  repeat apply all_stdout_app; first [apply all_stdout_debug | reflexivity].

Ltac open_exit :=
  open_step; eexists _, _; split; [|reflexivity];
  repeat apply all_stdout_app; first [apply all_stdout_debug | reflexivity].

(** Whether device_open returns is decided by the device alone. *)
Lemma device_open_by_env o self d path flags g :
  if dev_ok o d then
    exists fd out,
      sys_open d = Ok fd /\ all_stdout out /\
      device_open o self d path flags true g = Ret fd (add_log out g)
  else
    exists pre text,
      all_stdout pre /\
      device_open o self d path flags true g
      = Exit (-1) (add_log (pre ++ [pr_error self text]) g).
Proof.
  unfold dev_ok, device_open, bind, ret, emit, exit. open_step.
  destruct (sys_open d) as [fd | errno]; cbn [is_ok andb on_err negb];
    [| open_exit].
  destruct (sys_tcgetattr d) as [t | errno].
  2:{ destruct (errno =? ENOTTY); [open_ret | open_exit]. }
  open_step.
  destruct (sys_tcsetattr_raw d) as [[] | errno]; cbn [is_ok andb on_err];
    [| open_exit].
  destruct (opt_speed o =? 0); cbn [negb orb].
  - open_step.
    destruct (sys_tcflush d) as [[] | errno]; cbn [is_ok andb on_err];
      [open_ret | open_exit].
  - rewrite speed_known_sym.
    destruct (speed_known (opt_speed o)); cbn [negb andb]; [|open_exit].
    destruct (sys_cfsetspeed d) as [t' | errno]; cbn [is_ok andb on_err];
      [| open_exit].
    destruct (sys_tcsetattr_speed d) as [[] | errno];
      cbn [is_ok andb on_err]; [| open_exit].
    destruct (sys_tcflush d) as [[] | errno]; cbn [is_ok andb on_err];
      [open_ret | open_exit].
Qed.

Lemma device_open_ok o self d path flags g :
  dev_ok o d = true ->
  exists fd out,
    sys_open d = Ok fd /\ all_stdout out /\
    device_open o self d path flags true g = Ret fd (add_log out g).
Proof.
  intros H. pose proof (device_open_by_env o self d path flags g) as E.
  rewrite H in E. exact E.
Qed.

Lemma device_open_fails o self d path flags g :
  dev_ok o d = false ->
  exists pre text,
    all_stdout pre /\
    device_open o self d path flags true g
    = Exit (-1) (add_log (pre ++ [pr_error self text]) g).
Proof.
  intros H. pose proof (device_open_by_env o self d path flags g) as E.
  rewrite H in E. exact E.
Qed.

(** ** transmit_start *)

Lemma print_stats_text self n tx rx :
  print_stats self n tx rx = [EvOut Stdout (statistics_text self n tx rx)].
Proof using. pure_context.
  unfold print_stats, pr_warn, stats_line, statistics_text.
  rewrite !append_assoc. reflexivity.
Qed.

Lemma msg_dump_opt o m :
  0 <= msg_len m <= MAX_MAX_MSG_LEN ->
  exists dump,
    all_stdout dump /\ (opt_verbose o = false -> dump = []) /\
    forall g,
      (if opt_verbose o then msg_dump TxThread m else ret tt) g
      = Ret tt (add_log dump g).
Proof.
  intros Hlen. destruct (opt_verbose o).
  - destruct (print_buffer_some TxThread (msg_buf m) (msg_len m))
      as (pb & Hpb); [unfold MAX_MAX_MSG_LEN in Hlen; lia|].
    eexists. split; [| split; [discriminate|]].
    2:{ intros g. unfold msg_dump, bind, emit. rewrite Hpb.
        unfold emit_opt, emit. rewrite add_log_app. reflexivity. }
    apply all_stdout_app; [reflexivity|].
    eapply all_stdout_print_buffer_from. exact Hpb.
  - exists []. split; [reflexivity|]. split; [reflexivity|].
    intros g. unfold ret. rewrite add_log_nil. reflexivity.
Qed.

(** What transmit_start does once the device is open, for each answer the
    device may give to the one write. *)
Lemma transmit_start_after_open o e m g fd g1 :
  0 <= msg_len m <= MAX_MAX_MSG_LEN ->
  device_open o TxThread (tx_dev e) (opt_txdev o) O_WRONLY true g
  = Ret fd g1 ->
  exists dump,
    all_stdout dump /\ (opt_verbose o = false -> dump = []) /\
    transmit_start o e m g
    = match tx_writes e with
      | [] => Hang (add_log dump g1)
      | WrErr errno :: _ =>
          Exit (-1)
            (add_log
               (dump ++ [EvWrite (msg_len m) (-1);
                         pr_error TxThread
                           ("Write error " +s+ fmt_d errno +s+ NL)]) g1)
      | WrAccept n :: _ =>
          let res := Z.min (Z.of_N n) (msg_len m) in
          if res <? msg_len m then
            Exit (-1)
              (add_log [pr_error TxThread
                          ("Short write " +s+ fmt_d res +s+ " < " +s+
                           fmt_u (msg_len m) +s+ NL)]
                 (set_tx_bytes (u64 (tx_bytes g1 + res))
                    (add_log (dump ++ [EvWrite (msg_len m) res]) g1)))
          else
            Ret tt
              (set_tx_bytes (u64 (tx_bytes g1 + msg_len m))
                 (add_log (dump ++ [EvWrite (msg_len m) (msg_len m)]) g1))
      end.
Proof.
  intros Hlen Hopen.
  destruct (msg_dump_opt o m Hlen) as (dump & Hd & Hnv & Edump).
  exists dump. split; [assumption|]. split; [assumption|].
  unfold transmit_start, bind at 1. rewrite Hopen.
  unfold bind at 1. rewrite Edump.
  destruct (tx_writes e) as [|[errno | n] ws].
  - reflexivity.
  - unfold bind, emit, exit. rewrite !add_log_app. reflexivity.
  - unfold bind, emit, modify, exit, ret. cbv zeta.
    cbn [tx_bytes add_log set_tx_bytes log prng rx_bytes msgs rx_buf].
    destruct (Z.ltb_spec (Z.min (Z.of_N n) (msg_len m)) (msg_len m))
      as [Hs|Hs].
    + unfold add_log, set_tx_bytes.
      cbn [tx_bytes log prng rx_bytes msgs rx_buf]. rewrite <- !app_assoc.
      reflexivity.
    + replace (Z.min (Z.of_N n) (msg_len m)) with (msg_len m) by lia.
      unfold add_log, set_tx_bytes.
      cbn [tx_bytes log prng rx_bytes msgs rx_buf]. rewrite <- !app_assoc.
      reflexivity.
Qed.

(** ** receive_start *)

(** Data that do not yet complete the prefix are taken in, chunk by chunk,
    and the loop goes on with the rest of the script. *)
Lemma rx_loop_prefix chunks : forall rest len avail g,
  wf g -> 0 <= avail -> len <= MAX_MAX_MSG_LEN ->
  avail + byte_count (List.concat chunks) < len ->
  exists g1 evs,
    rx_loop (map RdData chunks ++ rest) len avail g
    = rx_loop rest len (avail + byte_count (List.concat chunks)) g1 /\
    wf g1 /\ log g1 = log g ++ evs /\
    existsb fatal_event evs = false /\ draws evs = [] /\
    prng g1 = prng g /\ tx_bytes g1 = tx_bytes g /\ msgs g1 = msgs g /\
    rx_bytes g1 = u64 (rx_bytes g + byte_count (List.concat chunks)) /\
    rx_buf g1 = store (rx_buf g) avail (List.concat chunks).
Proof.
  induction chunks as [|c chunks IH]; intros rest len avail g Hwf Havail Hlen
    Hsum; cbn [map List.concat app] in *.
  - exists g, []. change (byte_count []) with 0.
    rewrite !Z.add_0_r, app_nil_r, store_nil.
    destruct Hwf as (Hr & Hw). rewrite u64_small by assumption.
    splits; try reflexivity. split; assumption.
  - unfold byte_count in Hsum. rewrite length_app in Hsum.
    cbn [rx_loop].
    replace (avail <? len) with true by (symmetry; apply Z.ltb_lt; lia).
    replace (MAX_MAX_MSG_LEN <? avail + (len - avail)) with false
      by (symmetry; apply Z.ltb_ge; lia).
    rewrite firstn_all2 by lia.
    unfold bind at 1, emit at 1. unfold bind at 1, modify at 1.
    unfold bind at 1, modify at 1.
    cbn [rx_bytes rx_buf set_rx_buf set_rx_bytes add_log].
    rewrite u32_small by (unfold MAX_MAX_MSG_LEN, byte_count in *; lia).
    match goal with |- context [rx_loop _ len _ ?g1] => set (g1' := g1) end.
    assert (Hfit : (Z.to_nat avail + List.length c
                    <= List.length (rx_buf g))%nat).
    { destruct Hwf as (_ & _ & _ & Hb). rewrite Hb.
      unfold MAX_MAX_MSG_LEN in *. lia. }
    assert (Hwf1 : wf g1').
    { destruct Hwf as (Hr & Ht & Hm & Hb). unfold wf, g1'. cbn.
      splits; try apply u64_range; try lia.
      rewrite length_store; assumption. }
    destruct (IH rest len (avail + byte_count c) g1' Hwf1)
      as (g2 & evs & E & Hwf2 & Hl & Hf & Hd & Hp & Ht & Hm & Hrb & Hbuf);
      try (unfold byte_count in *; lia).
    exists g2, (EvRead avail (len - avail) (byte_count c) :: evs).
    unfold byte_count in *. rewrite length_app.
    replace (avail + Z.of_nat (List.length c + List.length (List.concat chunks)))
      with (avail + Z.of_nat (List.length c)
            + Z.of_nat (List.length (List.concat chunks))) by lia.
    split; [exact E|]. split; [assumption|].
    split; [rewrite Hl; unfold g1'; cbn [log add_log set_rx_bytes set_rx_buf];
            rewrite <- app_assoc; reflexivity|].
    split.
    { cbn [existsb fatal_event]. rewrite Hf.
      replace (Z.of_nat (List.length c) <? 0) with false
        by (symmetry; apply Z.ltb_ge; lia).
      reflexivity. }
    split; [exact Hd|].
    split; [rewrite Hp; reflexivity|]. split; [rewrite Ht; reflexivity|].
    split; [rewrite Hm; reflexivity|]. split.
    + rewrite Hrb. unfold g1'. cbn [rx_bytes set_rx_bytes set_rx_buf add_log].
      rewrite u64_add_l. f_equal. lia.
    + rewrite Hbuf. unfold g1'. cbn [rx_buf set_rx_bytes set_rx_buf add_log].
      apply store_store; assumption.
Qed.

Lemma rx_loop_read_error errno rest len avail g :
  0 <= avail < len -> len <= MAX_MAX_MSG_LEN ->
  rx_loop (RdErr errno :: rest) len avail g
  = Exit (-1)
      (add_log [EvRead avail (len - avail) (-1);
                pr_error RxThread ("Read error " +s+ fmt_d errno +s+ NL)] g).
Proof.
  intros Ha Hl. cbn [rx_loop].
  replace (avail <? len) with true by (symmetry; apply Z.ltb_lt; lia).
  replace (MAX_MAX_MSG_LEN <? avail + (len - avail)) with false
    by (symmetry; apply Z.ltb_ge; lia).
  unfold bind, emit, exit. rewrite add_log_app. reflexivity.
Qed.

(** receive_start once the device is open: the draw, then the loop and the
    comparison. *)
Lemma receive_start_after_open o e m g fd g1 :
  1 <= msg_len m <= MAX_MAX_MSG_LEN ->
  device_open o RxThread (rx_dev e) (opt_rxdev o) O_RDONLY true g
  = Ret fd g1 ->
  exists dbg,
    all_stdout dbg /\
    receive_start o e m g
    = (rx_loop (rx_reads e) (fst (brahe_prng_range (prng g1) 1 (msg_len m))) 0
       ;; rx_finish o m (fst (brahe_prng_range (prng g1) 1 (msg_len m))))
        (add_log
           (EvDraw RxThread
              (DrawRange 1 (msg_len m)
                 (fst (brahe_prng_range (prng g1) 1 (msg_len m))))
              :: dbg)
           (set_prng (snd (brahe_prng_range (prng g1) 1 (msg_len m))) g1)).
Proof.
  intros Hlen Hopen. rewrite receive_start_unfold.
  unfold bind at 1. rewrite Hopen. unfold bind at 1, prng_range.
  rewrite (u32_small 1), (u32_small (msg_len m))
    by (unfold MAX_MAX_MSG_LEN in Hlen; lia).
  destruct (brahe_prng_range (prng g1) 1 (msg_len m)) as [trunc s'].
  cbn [fst snd]. unfold bind at 1. rewrite pr_debug_out, add_log_app.
  eexists. split; [|reflexivity]. apply all_stdout_debug.
Qed.

Ltac list_norm :=
  repeat (rewrite <- app_assoc || rewrite <- app_comm_cons).

Lemma wf_after_draw out d dbg s g :
  wf g -> wf (add_log (d :: dbg) (set_prng s (add_log out g))).
Proof. intros (H1 & H2 & H3 & H4). unfold wf. cbn. auto. Qed.

Lemma draw_then_debug_not_fatal out who d dbg evs :
  all_stdout out -> all_stdout dbg -> existsb fatal_event evs = false ->
  existsb fatal_event (out ++ EvDraw who d :: dbg ++ evs) = false.
Proof using. pure_context.
  intros Ho Hd He. rewrite existsb_app, (stdout_not_fatal out Ho).
  cbn [existsb fatal_event orb]. rewrite existsb_app, (stdout_not_fatal dbg Hd).
  exact He.
Qed.

(** A read that fails before the prefix is complete. *)
Lemma receive_start_read_error o e m g chunks errno rest :
  wf g -> 1 <= msg_len m <= MAX_MAX_MSG_LEN ->
  dev_ok o (rx_dev e) = true ->
  rx_reads e = map RdData chunks ++ RdErr errno :: rest ->
  byte_count (List.concat chunks)
  < fst (brahe_prng_range (prng g) 1 (msg_len m)) ->
  exists g' pre,
    receive_start o e m g = Exit (-1) g' /\
    log g'
    = log g ++ pre
      ++ [EvRead (byte_count (List.concat chunks))
            (fst (brahe_prng_range (prng g) 1 (msg_len m))
             - byte_count (List.concat chunks)) (-1);
          pr_error RxThread ("Read error " +s+ fmt_d errno +s+ NL)] /\
    existsb fatal_event pre = false /\
    rx_bytes g' = u64 (rx_bytes g + byte_count (List.concat chunks)) /\
    tx_bytes g' = tx_bytes g /\ msgs g' = msgs g.
Proof.
  intros Hwf Hlen Hdev Hreads Hsum.
  destruct (device_open_ok o RxThread (rx_dev e) (opt_rxdev o) O_RDONLY g Hdev)
    as (fd & out & _ & Hout & Hopen).
  destruct (receive_start_after_open o e m g fd _ Hlen Hopen)
    as (dbg & Hdbg & E).
  cbn [prng add_log] in E.
  pose proof (range_ok (prng g) 1 (msg_len m) ltac:(lia)
                ltac:(unfold MAX_MAX_MSG_LEN in Hlen; lia)) as HT.
  destruct (brahe_prng_range (prng g) 1 (msg_len m)) as [trunc s'].
  cbn [fst snd] in *.
  set (g2 := add_log (EvDraw RxThread (DrawRange 1 (msg_len m) trunc) :: dbg)
               (set_prng s' (add_log out g))) in *.
  assert (Hwf2 : wf g2) by (apply wf_after_draw; assumption).
  destruct (rx_loop_prefix chunks (RdErr errno :: rest) trunc 0 g2 Hwf2
              ltac:(lia) ltac:(lia) ltac:(lia))
    as (g3 & evs & Eloop & Hwf3 & Hl3 & Hf3 & _ & _ & Ht3 & Hm3 & Hr3 & _).
  rewrite Z.add_0_l in Eloop.
  rewrite rx_loop_read_error in Eloop
    by (unfold byte_count in *; lia).
  rewrite E. unfold bind at 1. rewrite Hreads, Eloop.
  eexists _, (out ++ EvDraw RxThread (DrawRange 1 (msg_len m) trunc)
                :: dbg ++ evs).
  split; [reflexivity|].
  cbn [log add_log rx_bytes tx_bytes msgs].
  split; [rewrite Hl3; unfold g2; cbn [log add_log set_prng];
          list_norm; reflexivity|].
  split; [apply draw_then_debug_not_fatal; assumption|].
  rewrite Hr3, Ht3, Hm3. unfold g2. splits; reflexivity.
Qed.

(** Data that complete the prefix: the loop returns with them in the
    buffer, and the comparison decides. *)
Lemma receive_start_on_data o e m g chunks :
  wf g -> 1 <= msg_len m <= MAX_MAX_MSG_LEN ->
  dev_ok o (rx_dev e) = true ->
  rx_reads e = map RdData chunks ->
  byte_count (List.concat chunks)
  = fst (brahe_prng_range (prng g) 1 (msg_len m)) ->
  exists g3 pre,
    receive_start o e m g
    = rx_finish o m (fst (brahe_prng_range (prng g) 1 (msg_len m))) g3 /\
    wf g3 /\ log g3 = log g ++ pre /\ existsb fatal_event pre = false /\
    firstn (Z.to_nat (fst (brahe_prng_range (prng g) 1 (msg_len m))))
      (rx_buf g3) = List.concat chunks /\
    rx_bytes g3
    = u64 (rx_bytes g + fst (brahe_prng_range (prng g) 1 (msg_len m))) /\
    tx_bytes g3 = tx_bytes g /\ msgs g3 = msgs g /\
    prng g3 = snd (brahe_prng_range (prng g) 1 (msg_len m)).
Proof.
  intros Hwf Hlen Hdev Hreads Hsum.
  destruct (device_open_ok o RxThread (rx_dev e) (opt_rxdev o) O_RDONLY g Hdev)
    as (fd & out & _ & Hout & Hopen).
  destruct (receive_start_after_open o e m g fd _ Hlen Hopen)
    as (dbg & Hdbg & E).
  cbn [prng add_log] in E.
  pose proof (range_ok (prng g) 1 (msg_len m) ltac:(lia)
                ltac:(unfold MAX_MAX_MSG_LEN in Hlen; lia)) as HT.
  destruct (brahe_prng_range (prng g) 1 (msg_len m)) as [trunc s'].
  cbn [fst snd] in *.
  set (g2 := add_log (EvDraw RxThread (DrawRange 1 (msg_len m) trunc) :: dbg)
               (set_prng s' (add_log out g))) in *.
  assert (Hwf2 : wf g2) by (apply wf_after_draw; assumption).
  assert (Hmax : trunc <= MAX_MAX_MSG_LEN) by lia.
  destruct (rx_loop_chunks chunks trunc 0 g2 Hwf2 ltac:(lia) Hmax
              ltac:(lia)) as (g3 & Eloop & Hbuf).
  pose proof (rx_loop_spec (map RdData chunks) trunc 0 g2 Hwf2 ltac:(lia)
                Hmax) as Hspec.
  cbv zeta in Hspec. rewrite Eloop in Hspec. cbn [final] in Hspec.
  destruct Hspec as (Hp3 & Ht3 & Hm3 & Hwf3 & newl & Hl3 & _ & _ & _ & Hrb3
                     & Hf3 & Hsum3).
  specialize (Hsum3 ltac:(lia)).
  rewrite E. unfold bind at 1. rewrite Hreads, Eloop.
  exists g3, (out ++ EvDraw RxThread (DrawRange 1 (msg_len m) trunc)
                :: dbg ++ newl).
  split; [reflexivity|]. split; [assumption|].
  split; [rewrite Hl3; unfold g2; cbn [log add_log set_prng];
          list_norm; reflexivity|].
  split; [apply draw_then_debug_not_fatal; assumption|].
  split.
  { rewrite Hbuf. unfold byte_count in Hsum.
    replace (Z.to_nat trunc) with (List.length (List.concat chunks)) by lia.
    apply firstn_store_0. }
  rewrite Hrb3, Hsum3, Ht3, Hm3, Hp3. unfold g2.
  cbn [rx_bytes tx_bytes msgs prng add_log set_prng].
  split; [f_equal; lia|]. splits; reflexivity.
Qed.

Lemma memcmp_prefix (buf msgbuf prefix : list byte) (n : nat) :
  (n <= List.length buf)%nat -> (n <= List.length msgbuf)%nat ->
  firstn n buf = prefix ->
  memcmp buf msgbuf n = 0 <-> prefix = firstn n msgbuf.
Proof using. pure_context.
  intros H1 H2 <-. apply memcmp_zero_iff; assumption.
Qed.

(** What cmp_buffer prints is the diff of the two prefixes. *)
Lemma cmp_buffer_text self buf1 buf2 len out :
  0 <= len <= 2 ^ 32 - 16 ->
  (Z.to_nat len <= List.length buf1)%nat ->
  (Z.to_nat len <= List.length buf2)%nat ->
  cmp_buffer self buf1 buf2 len = Some out ->
  text_of out
  = diff_text self (firstn (Z.to_nat len) buf1) (firstn (Z.to_nat len) buf2)
      len.
Proof using. pure_context.
  intros Hlen H1 H2. unfold cmp_buffer.
  rewrite (cmp_buffer_rows_spec self buf1 buf2 len) by (assumption || lia).
  cbn [option_map fst]. intros [= <-]. unfold diff_text.
  apply diff_rows_text. rewrite !length_firstn. lia.
Qed.

(** Received data that differ from the message. *)
Lemma receive_start_mismatch o e m g chunks :
  wf g -> msg_wf m -> 1 <= msg_len m <= MAX_MAX_MSG_LEN ->
  dev_ok o (rx_dev e) = true ->
  rx_reads e = map RdData chunks ->
  byte_count (List.concat chunks)
  = fst (brahe_prng_range (prng g) 1 (msg_len m)) ->
  List.concat chunks
  <> firstn (Z.to_nat (fst (brahe_prng_range (prng g) 1 (msg_len m))))
       (msg_buf m) ->
  exists g' pre diff,
    receive_start o e m g = Exit (-1) g' /\
    log g'
    = log g ++ pre
      ++ pr_error RxThread ("Data mismatch" +s+ NL)
      :: diff
      ++ [EvOut Stdout
            (statistics_text RxThread (msgs g) (tx_bytes g)
               (u64 (rx_bytes g
                     + fst (brahe_prng_range (prng g) 1 (msg_len m)))))] /\
    existsb fatal_event pre = false /\
    text_of diff
    = diff_text RxThread (List.concat chunks)
        (firstn (Z.to_nat (fst (brahe_prng_range (prng g) 1 (msg_len m))))
           (msg_buf m))
        (fst (brahe_prng_range (prng g) 1 (msg_len m))) /\
    rx_bytes g'
    = u64 (rx_bytes g + fst (brahe_prng_range (prng g) 1 (msg_len m))) /\
    tx_bytes g' = tx_bytes g /\ msgs g' = msgs g.
Proof.
  intros Hwf Hm Hlen Hdev Hreads Hsum Hne.
  destruct (receive_start_on_data o e m g chunks Hwf Hlen Hdev Hreads Hsum)
    as (g3 & pre & E & Hwf3 & Hl3 & Hf3 & Hbuf & Hrb & Htb & Hms & _).
  pose proof (range_ok (prng g) 1 (msg_len m) ltac:(lia)
                ltac:(unfold MAX_MAX_MSG_LEN in Hlen; lia)) as HT.
  set (trunc := fst (brahe_prng_range (prng g) 1 (msg_len m))) in *.
  assert (Hb3 : (Z.to_nat trunc <= List.length (rx_buf g3))%nat).
  { destruct Hwf3 as (_ & _ & _ & H4). rewrite H4.
    unfold MAX_MAX_MSG_LEN in *. lia. }
  assert (Hbm : (Z.to_nat trunc <= List.length (msg_buf m))%nat)
    by (destruct Hm as (_ & Hmb); lia).
  destruct (rx_finish_cases o m trunc g3 Hwf3 Hm ltac:(lia) ltac:(lia))
    as (_ & Hbad).
  destruct Hbad as (diff & Ec & Efin).
  { intros Hc. apply Hne.
    apply (memcmp_prefix (rx_buf g3) (msg_buf m)); assumption. }
  rewrite E, Efin. eexists _, pre, diff. split; [reflexivity|].
  cbn [log add_log rx_bytes tx_bytes msgs].
  rewrite print_stats_text, Hl3, Hrb, Htb, Hms.
  split; [list_norm; reflexivity|]. split; [assumption|].
  split; [|splits; reflexivity].
  rewrite (cmp_buffer_text RxThread (rx_buf g3) (msg_buf m) trunc diff)
    by (assumption || unfold MAX_MAX_MSG_LEN in *; lia).
  rewrite Hbuf. reflexivity.
Qed.

(** Received data that are the prefix of the message. *)
Lemma receive_start_match o e m g chunks :
  wf g -> msg_wf m -> 1 <= msg_len m <= MAX_MAX_MSG_LEN ->
  dev_ok o (rx_dev e) = true ->
  rx_reads e = map RdData chunks ->
  List.concat chunks
  = firstn (Z.to_nat (fst (brahe_prng_range (prng g) 1 (msg_len m))))
      (msg_buf m) ->
  exists g', receive_start o e m g = Ret tt g'.
Proof.
  intros Hwf Hm Hlen Hdev Hreads Heq.
  pose proof (range_ok (prng g) 1 (msg_len m) ltac:(lia)
                ltac:(unfold MAX_MAX_MSG_LEN in Hlen; lia)) as HT.
  assert (Hsum : byte_count (List.concat chunks)
                 = fst (brahe_prng_range (prng g) 1 (msg_len m))).
  { rewrite Heq. unfold byte_count. rewrite length_firstn.
    destruct Hm as (_ & Hmb). lia. }
  destruct (receive_start_on_data o e m g chunks Hwf Hlen Hdev Hreads Hsum)
    as (g3 & pre & E & Hwf3 & _ & _ & Hbuf & _).
  set (trunc := fst (brahe_prng_range (prng g) 1 (msg_len m))) in *.
  assert (Hb3 : (Z.to_nat trunc <= List.length (rx_buf g3))%nat).
  { destruct Hwf3 as (_ & _ & _ & H4). rewrite H4.
    unfold MAX_MAX_MSG_LEN in *. lia. }
  assert (Hbm : (Z.to_nat trunc <= List.length (msg_buf m))%nat)
    by (destruct Hm as (_ & Hmb); lia).
  destruct (rx_finish_cases o m trunc g3 Hwf3 Hm ltac:(lia) ltac:(lia))
    as (Hok & _).
  destruct Hok as (out & _ & Efin).
  { apply (memcmp_prefix (rx_buf g3) (msg_buf m) (List.concat chunks));
      assumption. }
  rewrite E, Efin. eexists. reflexivity.
Qed.

(** ** Fatal conditions, from the worker to the exit code *)

Lemma round_message_eq N s :
  round_message N s
  = ({| msg_len := fst (brahe_prng_range s 1 N);
        msg_buf :=
          map byte_of_Z
            (fst (next_n (Z.to_nat (fst (brahe_prng_range s 1 N)))
                    (snd (brahe_prng_range s 1 N)))) |},
     fst (brahe_prng_range
            (snd (next_n (Z.to_nat (fst (brahe_prng_range s 1 N)))
                    (snd (brahe_prng_range s 1 N))))
            1 (fst (brahe_prng_range s 1 N)))).
Proof.
  unfold round_message.
  destruct (brahe_prng_range s 1 N) as [len s1]. cbn [fst snd].
  destruct (next_n (Z.to_nat len) s1) as [xs s2]. cbn [fst snd].
  destruct (brahe_prng_range s2 1 len) as [trunc s3]. reflexivity.
Qed.

(** A round up to the point where the workers are started. *)
Lemma round_open o e g :
  wf g -> 1 <= opt_msglen o <= MAX_MAX_MSG_LEN ->
  exists g1,
    wf g1 /\ msg_wf (fst (round_message (opt_msglen o) (prng g))) /\
    1 <= msg_len (fst (round_message (opt_msglen o) (prng g)))
    <= MAX_MAX_MSG_LEN /\
    fst (brahe_prng_range (prng g1) 1
           (msg_len (fst (round_message (opt_msglen o) (prng g)))))
    = snd (round_message (opt_msglen o) (prng g)) /\
    msgs g1 = msgs g /\
    round o e g
    = match r_sigint e with
      | Some SigBuild => signal_handler MainThread g
      | Some SigSpawn => signal_handler MainThread g1
      | _ =>
          join_workers o e (fst (round_message (opt_msglen o) (prng g))) g1
      end.
Proof.
  intros Hwf HN.
  assert (HN' : 1 <= opt_msglen o < 2 ^ 31)
    by (unfold MAX_MAX_MSG_LEN in HN; lia).
  destruct (msg_gen_spec MainThread (opt_msglen o) g HN') as (Hlen & Egen).
  cbv zeta in Egen. rewrite <- (neg_msglen _ HN') in Egen.
  pose proof (next_n_length
                (Z.to_nat (fst (brahe_prng_range (prng g) 1 (opt_msglen o))))
                (snd (brahe_prng_range (prng g) 1 (opt_msglen o)))) as Hxs.
  rewrite round_message_eq. cbn [fst snd msg_len msg_buf].
  eexists. split; [|split; [|split; [|split; [|split]]]].
  6:{ unfold round.
      destruct (r_sigint e) as [[| |on]|]; try reflexivity;
        unfold bind; rewrite Egen; reflexivity. }
  - destruct Hwf as (H1 & H2 & H3 & H4). unfold wf. cbn. auto.
  - unfold msg_wf. cbn [msg_len msg_buf]. rewrite length_map, Hxs.
    split; [lia | reflexivity].
  - unfold MAX_MAX_MSG_LEN in *. lia.
  - reflexivity.
  - reflexivity.
Qed.

Lemma transmit_start_fatal o e m g :
  0 <= msg_len m <= MAX_MAX_MSG_LEN ->
  dev_ok o (tx_dev e) = false
  \/ (dev_ok o (tx_dev e) = true /\
      exists errno ws, tx_writes e = WrErr errno :: ws)
  \/ (dev_ok o (tx_dev e) = true /\
      exists n ws,
        tx_writes e = WrAccept n :: ws /\ Z.of_N n < msg_len m) ->
  exists g', transmit_start o e m g = Exit (-1) g'.
Proof.
  intros Hlen [Hdev | [(Hdev & errno & ws & Hw) | (Hdev & n & ws & Hw & Hs)]].
  - destruct (device_open_fails o TxThread (tx_dev e) (opt_txdev o) O_WRONLY
                g Hdev) as (pre & text & _ & E).
    unfold transmit_start, bind at 1. rewrite E. eexists. reflexivity.
  - destruct (device_open_ok o TxThread (tx_dev e) (opt_txdev o) O_WRONLY g
                Hdev) as (fd & out & _ & _ & Hopen).
    destruct (transmit_start_after_open o e m g fd _ Hlen Hopen)
      as (dump & _ & _ & E).
    rewrite Hw in E. rewrite E. eexists. reflexivity.
  - destruct (device_open_ok o TxThread (tx_dev e) (opt_txdev o) O_WRONLY g
                Hdev) as (fd & out & _ & _ & Hopen).
    destruct (transmit_start_after_open o e m g fd _ Hlen Hopen)
      as (dump & _ & _ & E).
    rewrite Hw in E. cbv zeta in E. rewrite Z.min_l in E by lia.
    replace (Z.of_N n <? msg_len m) with true in E
      by (symmetry; apply Z.ltb_lt; assumption).
    rewrite E. eexists. reflexivity.
Qed.

Lemma transmit_start_returns o e m g n ws :
  0 <= msg_len m <= MAX_MAX_MSG_LEN ->
  dev_ok o (tx_dev e) = true ->
  tx_writes e = WrAccept n :: ws -> msg_len m <= Z.of_N n ->
  exists g', transmit_start o e m g = Ret tt g'.
Proof.
  intros Hlen Hdev Hw Hn.
  destruct (device_open_ok o TxThread (tx_dev e) (opt_txdev o) O_WRONLY g
              Hdev) as (fd & out & _ & _ & Hopen).
  destruct (transmit_start_after_open o e m g fd _ Hlen Hopen)
    as (dump & _ & _ & E).
  rewrite Hw in E. cbv zeta in E. rewrite Z.min_r in E by lia.
  rewrite Z.ltb_irrefl in E. rewrite E. eexists. reflexivity.
Qed.

Lemma receive_start_fatal o e m g :
  wf g -> msg_wf m -> 1 <= msg_len m <= MAX_MAX_MSG_LEN ->
  dev_ok o (rx_dev e) = false
  \/ (dev_ok o (rx_dev e) = true /\
      exists chunks errno rest,
        rx_reads e = map RdData chunks ++ RdErr errno :: rest /\
        byte_count (List.concat chunks)
        < fst (brahe_prng_range (prng g) 1 (msg_len m)))
  \/ (dev_ok o (rx_dev e) = true /\
      exists chunks,
        rx_reads e = map RdData chunks /\
        byte_count (List.concat chunks)
        = fst (brahe_prng_range (prng g) 1 (msg_len m)) /\
        List.concat chunks
        <> firstn (Z.to_nat (fst (brahe_prng_range (prng g) 1 (msg_len m))))
             (msg_buf m)) ->
  exists g', receive_start o e m g = Exit (-1) g'.
Proof.
  intros Hwf Hm Hlen
    [Hdev | [(Hdev & chunks & errno & rest & Hr & Hs)
            | (Hdev & chunks & Hr & Hs & Hne)]].
  - destruct (device_open_fails o RxThread (rx_dev e) (opt_rxdev o) O_RDONLY
                g Hdev) as (pre & text & _ & E).
    rewrite receive_start_unfold. unfold bind at 1. rewrite E.
    eexists. reflexivity.
  - destruct (receive_start_read_error o e m g chunks errno rest Hwf Hlen
                Hdev Hr Hs) as (g' & _ & E & _).
    exists g'. exact E.
  - destruct (receive_start_mismatch o e m g chunks Hwf Hm Hlen Hdev Hr Hs
                Hne) as (g' & _ & _ & E & _).
    exists g'. exact E.
Qed.

Lemma wf_after_transmit o e m g :
  wf g -> 0 <= msg_len m ->
  wf (final (transmit_start o e m g)) /\
  prng (final (transmit_start o e m g)) = prng g.
Proof.
  intros Hwf Hlen.
  pose proof (transmit_start_spec o e m g Hwf Hlen) as H. cbv zeta in H.
  destruct H as (Hp & Hrb & Hbuf & Hm & Htb & _).
  split; [|assumption].
  destruct Hwf as (H1 & H2 & H3 & H4). unfold wf. rewrite Hrb, Hm, Hbuf.
  split; [assumption|]. split; [assumption|]. split; assumption.
Qed.

(** A transmitter that ends the process does so whichever worker runs
    first, and whether the receiver returns or blocks. *)
Lemma workers_tx_fatal o e m g :
  wf g -> msg_wf m -> 1 <= msg_len m <= MAX_MAX_MSG_LEN ->
  (forall g0, exists g', transmit_start o (r_tx e) m g0 = Exit (-1) g') ->
  exists g', workers o e m g = Exit (-1) g'.
Proof.
  intros Hwf Hm Hlen Htx. unfold workers, both. destruct (r_order e).
  - pose proof (receive_start_spec o (r_rx e) m g Hwf Hm Hlen) as H.
    cbv zeta in H.
    destruct H as (_ & _ & _ & _ & new & _ & _ & _ & _ & _ & H).
    destruct (receive_start o (r_rx e) m g) as [[] g1 | c g1 | g1 | g1].
    + apply Htx.
    + destruct H as (-> & _). eexists. reflexivity.
    + destruct (Htx g1) as (g' & ->). eexists. reflexivity.
    + contradiction.
  - destruct (Htx g) as (g' & ->). eexists. reflexivity.
Qed.

(** The same for a receiver that ends the process; the transmitter leaves
    the generator alone. *)
Lemma workers_rx_fatal o e m g :
  wf g -> msg_wf m -> 1 <= msg_len m <= MAX_MAX_MSG_LEN ->
  (forall g0, wf g0 -> prng g0 = prng g ->
              exists g', receive_start o (r_rx e) m g0 = Exit (-1) g') ->
  exists g', workers o e m g = Exit (-1) g'.
Proof.
  intros Hwf Hm Hlen Hrx. unfold workers, both. destruct (r_order e).
  - destruct (Hrx g Hwf eq_refl) as (g' & ->). eexists. reflexivity.
  - pose proof (transmit_start_spec o (r_tx e) m g Hwf ltac:(lia)) as H.
    cbv zeta in H.
    destruct H as (_ & _ & _ & _ & _ & new & _ & _ & _ & _ & H).
    destruct (wf_after_transmit o (r_tx e) m g Hwf ltac:(lia)) as (Hwf1 & Hp1).
    destruct (transmit_start o (r_tx e) m g) as [[] g1 | c g1 | g1 | g1];
      cbn [final] in *.
    + apply Hrx; assumption.
    + destruct H as (-> & _). eexists. reflexivity.
    + destruct (Hrx g1 Hwf1 Hp1) as (g' & ->). eexists. reflexivity.
    + contradiction.
Qed.

Lemma workers_return o e m g :
  wf g -> msg_wf m -> 1 <= msg_len m <= MAX_MAX_MSG_LEN ->
  (forall g0, exists g', transmit_start o (r_tx e) m g0 = Ret tt g') ->
  (forall g0, wf g0 -> prng g0 = prng g ->
              exists g', receive_start o (r_rx e) m g0 = Ret tt g') ->
  exists g', workers o e m g = Ret tt g'.
Proof.
  intros Hwf Hm Hlen Htx Hrx. unfold workers, both. destruct (r_order e).
  - destruct (Hrx g Hwf eq_refl) as (g1 & ->). apply Htx.
  - destruct (wf_after_transmit o (r_tx e) m g Hwf ltac:(lia)) as (Hwf1 & Hp1).
    destruct (Htx g) as (g1 & E). rewrite E in *. cbn [final] in *.
    apply Hrx; assumption.
Qed.

Lemma join_workers_exit o e m g g' :
  workers o e m g = Exit (-1) g' -> join_workers o e m g = Exit (-1) g'.
Proof.
  unfold join_workers. intros ->.
  destruct (r_sigint e) as [[| |on]|]; reflexivity.
Qed.

Lemma join_workers_interrupt o e m g on :
  wf g -> msg_wf m -> 1 <= msg_len m <= MAX_MAX_MSG_LEN ->
  r_sigint e = Some (SigRun on) ->
  exists g', join_workers o e m g = Exit (-1) g'.
Proof.
  intros Hwf Hm Hlen Hsig. unfold join_workers. rewrite Hsig.
  pose proof (workers_spec o e m g Hwf Hm Hlen) as H. cbv zeta in H.
  destruct H as (_ & _ & _ & new & _ & _ & _ & H).
  destruct (workers o e m g) as [[] g1 | c g1 | g1 | g1].
  - rewrite signal_handler_spec. eexists. reflexivity.
  - destruct H as (-> & _). eexists. reflexivity.
  - rewrite signal_handler_spec. eexists. reflexivity.
  - contradiction.
Qed.

(** Every fatal condition of a round ends the process with exit(-1). *)
Lemma round_fatal o e g :
  wf g -> 1 <= opt_msglen o <= MAX_MAX_MSG_LEN ->
  fatal_cause o (prng g) e ->
  exists g', round o e g = Exit (-1) g'.
Proof.
  intros Hwf HN Hcause.
  destruct (round_open o e g Hwf HN)
    as (g1 & Hwf1 & Hm & Hlen & Htrunc & _ & E).
  rewrite E. clear E.
  assert (Hsig : forall s, r_sigint e = Some s ->
            exists g',
              match r_sigint e with
              | Some SigBuild => signal_handler MainThread g
              | Some SigSpawn => signal_handler MainThread g1
              | _ =>
                  join_workers o e
                    (fst (round_message (opt_msglen o) (prng g))) g1
              end = Exit (-1) g').
  { intros s Hs. rewrite Hs. destruct s as [| |on].
    - rewrite signal_handler_spec. eexists. reflexivity.
    - rewrite signal_handler_spec. eexists. reflexivity.
    - eapply join_workers_interrupt; eassumption. }
  assert (Hwork : (exists g',
                      workers o e
                        (fst (round_message (opt_msglen o) (prng g))) g1
                      = Exit (-1) g') ->
            exists g',
              match r_sigint e with
              | Some SigBuild => signal_handler MainThread g
              | Some SigSpawn => signal_handler MainThread g1
              | _ =>
                  join_workers o e
                    (fst (round_message (opt_msglen o) (prng g))) g1
              end = Exit (-1) g').
  { intros (g' & Hw). clear Hsig.
    destruct (r_sigint e) as [[| |on]|].
    - rewrite signal_handler_spec. eexists. reflexivity.
    - rewrite signal_handler_spec. eexists. reflexivity.
    - exists g'. apply join_workers_exit. exact Hw.
    - exists g'. apply join_workers_exit. exact Hw. }
  destruct Hcause as [sig Hs | Hdev | Hdev | errno ws Hdev Hw
                     | n ws Hdev Hw Hshort | chunks errno rest Hdev Hr Hsum
                     | chunks Hdev Hr Hsum Hne].
  - apply (Hsig sig Hs).
  - apply Hwork. apply workers_tx_fatal; try assumption.
    intros g0. apply transmit_start_fatal; [lia | left; assumption].
  - apply Hwork. apply workers_rx_fatal; try assumption.
    intros g0 Hwf0 Hp0. apply receive_start_fatal; try assumption.
    left; assumption.
  - apply Hwork. apply workers_tx_fatal; try assumption.
    intros g0. apply transmit_start_fatal; [lia|].
    right; left. split; [assumption|]. exists errno, ws. assumption.
  - apply Hwork. apply workers_tx_fatal; try assumption.
    intros g0. apply transmit_start_fatal; [lia|].
    right; right. split; [assumption|]. exists n, ws. split; assumption.
  - apply Hwork. apply workers_rx_fatal; try assumption.
    intros g0 Hwf0 Hp0. apply receive_start_fatal; try assumption.
    right; left. split; [assumption|]. exists chunks, errno, rest.
    split; [assumption|]. rewrite Hp0, Htrunc. assumption.
  - apply Hwork. apply workers_rx_fatal; try assumption.
    intros g0 Hwf0 Hp0. apply receive_start_fatal; try assumption.
    right; right. split; [assumption|]. exists chunks.
    rewrite Hp0, Htrunc. splits; assumption.
Qed.

(** A round in which nothing goes wrong returns. *)
Lemma round_clean o e g :
  wf g -> 1 <= opt_msglen o <= MAX_MAX_MSG_LEN ->
  clean_round o (prng g) e ->
  exists g',
    round o e g = Ret tt g' /\ wf g' /\ msgs g' = msgs g /\
    prng g' = snd (round_draws (opt_msglen o) (prng g)).
Proof.
  intros Hwf HN (Hsig & Htxd & Hrxd & (n & ws & Hw & Hn) & chunks & Hr & Hc).
  destruct (round_open o e g Hwf HN)
    as (g1 & Hwf1 & Hm & Hlen & Htrunc & _ & E).
  rewrite Hsig in E.
  assert (Hret : exists g',
             workers o e (fst (round_message (opt_msglen o) (prng g))) g1
             = Ret tt g').
  { apply workers_return; try assumption.
    - intros g0. apply (transmit_start_returns o (r_tx e) _ g0 n ws);
        try assumption. lia.
    - intros g0 Hwf0 Hp0.
      apply (receive_start_match o (r_rx e) _ g0 chunks); try assumption.
      rewrite Hp0, Htrunc. assumption. }
  destruct Hret as (g' & Hret).
  assert (E' : round o e g = Ret tt g').
  { rewrite E. unfold join_workers. rewrite Hsig, Hret. reflexivity. }
  exists g'. split; [assumption|].
  pose proof (round_spec o e g Hwf HN) as H. cbv zeta in H.
  rewrite E' in H. cbn [final] in H.
  destruct H as (Hwf' & Hmsgs & new & _ & _ & _ & _ & Hp & _).
  auto.
Qed.

Lemma u32_range x : 0 <= u32 x < 2 ^ 32.
Proof. unfold u32. apply Z.mod_pos_bound. lia. Qed.

Lemma wf_set_msgs n g : wf g -> wf (set_msgs (u32 n) g).
Proof.
  intros (H1 & H2 & H3 & H4). unfold wf, set_msgs. cbn.
  pose proof (u32_range n). auto.
Qed.

Lemma run_rounds_wf o pre : forall g g1,
  wf g -> 1 <= opt_msglen o <= MAX_MAX_MSG_LEN ->
  run_rounds o pre g = Some g1 -> wf g1.
Proof.
  induction pre as [|e pre IH]; intros g g1 Hwf HN H; cbn [run_rounds] in H.
  - injection H as <-. assumption.
  - destruct ((opt_nmsgs o =? 0) || (msgs g <? opt_nmsgs o)); [|discriminate].
    pose proof (round_spec o e g Hwf HN) as Hr. cbv zeta in Hr.
    destruct Hr as (Hwf' & _).
    destruct (round o e g) as [[] g2 | | |]; try discriminate.
    cbn [final] in Hwf'. eapply IH; [| assumption | exact H].
    apply wf_set_msgs. assumption.
Qed.

(** The loop of main, once the rounds of [pre] have completed. *)
Lemma main_loop_after o pre rest : forall g g1,
  run_rounds o pre g = Some g1 ->
  main_loop o (pre ++ rest) g = main_loop o rest g1.
Proof.
  induction pre as [|e pre IH]; intros g g1 H; cbn [run_rounds] in H.
  - injection H as <-. reflexivity.
  - cbn [app]. rewrite main_loop_cons.
    destruct ((opt_nmsgs o =? 0) || (msgs g <? opt_nmsgs o)); [|discriminate].
    destruct (round o e g) as [[] g2 | | |]; try discriminate.
    apply IH. assumption.
Qed.

Lemma main_loop_fatal o e post g :
  wf g -> 1 <= opt_msglen o <= MAX_MAX_MSG_LEN ->
  opt_nmsgs o = 0 \/ msgs g < opt_nmsgs o ->
  fatal_cause o (prng g) e ->
  exists g', main_loop o (e :: post) g = Exit (-1) g'.
Proof.
  intros Hwf HN Hmore Hcause. rewrite main_loop_cons.
  replace ((opt_nmsgs o =? 0) || (msgs g <? opt_nmsgs o)) with true.
  2:{ symmetry. apply orb_true_iff.
      destruct Hmore as [H | H]; [left; apply Z.eqb_eq | right; apply Z.ltb_lt];
        assumption. }
  destruct (round_fatal o e g Hwf HN Hcause) as (g' & ->).
  eexists. reflexivity.
Qed.

Lemma main_loop_done o envs g :
  0 < opt_nmsgs o -> opt_nmsgs o <= msgs g ->
  main_loop o envs g = Ret tt g.
Proof.
  intros Hpos Hge.
  assert (Hc : (opt_nmsgs o =? 0) || (msgs g <? opt_nmsgs o) = false).
  { apply orb_false_iff. split; [apply Z.eqb_neq | apply Z.ltb_ge]; lia. }
  destruct envs as [|e envs].
  - rewrite main_loop_nil, Hc. reflexivity.
  - rewrite main_loop_cons, Hc. reflexivity.
Qed.

Lemma main_loop_clean o n : forall envs g,
  wf g -> 1 <= opt_msglen o <= MAX_MAX_MSG_LEN ->
  0 < opt_nmsgs o < 2 ^ 32 ->
  msgs g + Z.of_nat n = opt_nmsgs o ->
  clean_run o n (prng g) envs ->
  exists g', main_loop o envs g = Ret tt g' /\ msgs g' = opt_nmsgs o.
Proof.
  induction n as [|n IH]; intros envs g Hwf HN Hn Hk Hclean.
  - exists g. split; [apply main_loop_done; lia | lia].
  - cbn [clean_run] in Hclean. destruct envs as [|e envs]; [contradiction|].
    destruct Hclean as (Hround & Hrest).
    destruct (round_clean o e g Hwf HN Hround) as (g1 & E & Hwf1 & Hm1 & Hp1).
    rewrite main_loop_cons, E.
    replace ((opt_nmsgs o =? 0) || (msgs g <? opt_nmsgs o)) with true
      by (symmetry; apply orb_true_iff; right; apply Z.ltb_lt; lia).
    destruct Hwf as (_ & _ & Hmg & _).
    assert (Hu : u32 (msgs g1 + 1) = msgs g + 1)
      by (rewrite Hm1; apply u32_small; lia).
    apply IH.
    + apply wf_set_msgs. assumption.
    + assumption.
    + assumption.
    + cbn [msgs set_msgs]. lia.
    + cbn [prng set_msgs]. rewrite Hp1. assumption.
Qed.

(** * Properties of the program *)

(** C6: msg_gen called with [-N] (variable length up to [N], the way main
    calls it with [-opt_msglen]) draws the length with one call of
    brahe_prng_range(1, N), so that [1 <= length <= N]; it then fills the
    body, first byte first, with the low bytes of [length] successive
    results of brahe_prng_next; the generator is used [1 + length] times
    and is left in the state after these draws. *)
Theorem msg_gen_variable_length (self : thread) (N : Z) (g : globals) :
  1 <= N < 2 ^ 31 ->
  let len := fst (brahe_prng_range (prng g) 1 N) in
  let s1 := snd (brahe_prng_range (prng g) 1 N) in
  let xs := fst (next_n (Z.to_nat len) s1) in
  let new := EvDraw self (DrawRange 1 N len)
               :: map (fun x => EvDraw self (DrawNext x)) xs in
  exists g',
    s32 (u32 (- N)) = - N /\
    msg_gen self (- N) g
    = Ret {| msg_len := len; msg_buf := map byte_of_Z xs |} g' /\
    1 <= len <= N /\
    byte_count (map byte_of_Z xs) = len /\
    prng g' = snd (next_n (Z.to_nat len) s1) /\
    log g' = log g ++ new /\
    Z.of_nat (List.length (draws new)) = 1 + len.
Proof.
  intros HN. cbv zeta.
  destruct (msg_gen_spec self N g HN) as (Hlen & E). cbv zeta in E.
  eexists. split; [apply neg_msglen; assumption|].
  split; [exact E|]. split; [assumption|].
  pose proof (next_n_length
                (Z.to_nat (fst (brahe_prng_range (prng g) 1 N)))
                (snd (brahe_prng_range (prng g) 1 N))) as Hxs.
  split; [unfold byte_count; rewrite length_map, Hxs; lia|].
  split; [reflexivity|]. split; [reflexivity|].
  cbn [draws flat_map app List.length]. rewrite draws_nexts, length_map, Hxs.
  lia.
Qed.

(** C7: for two buffers of equal length, cmp_buffer works through rows of
    16 bytes; row [k] is printed by cmp_line under the label of its byte
    offset [16 * k], cmp_line returns the number of bytes in which the two
    rows differ, a row without difference is printed once, and a row with a
    difference is followed by the line "Expected:" and by print_line of
    the row of the second buffer.  What reaches the terminal is, row by
    row, the text that the description asks for: the label, the bytes in
    hex and as characters, those that differ flagged in both columns, and
    beneath a row that differs the expected row, unflagged. *)
Theorem cmp_buffer_renders_rows (self : thread) (b1 b2 : list byte) :
  List.length b1 = List.length b2 ->
  byte_count b1 <= 2 ^ 32 - 16 ->
  let len := byte_count b1 in
  cmp_buffer_rows self b1 b2 len
  = Some (flat_map (render_row self b1 b2) (seq 0 (row_count len)),
          map (fun k => diff_count (row k b1) (row k b2))
            (seq 0 (row_count len)))
  /\ option_map (fun r => text_of (fst r)) (cmp_buffer_rows self b1 b2 len)
     = Some (diff_text self b1 b2 len)
  /\ forall k, (k < row_count len)%nat ->
       let r1 := row k b1 in
       let r2 := row k b2 in
       List.length r1 = List.length r2 /\
       (0 < List.length r1 <= 16)%nat /\
       (exists rest,
           cmp_line self (row_offset k) r1 r2 (byte_count r1)
           = (pr_info self (fmt_04x (row_offset k) +s+ ":") :: rest,
              diff_count r1 r2)) /\
       (diff_count r1 r2 = 0 ->
        render_row self b1 b2 k
        = fst (cmp_line self (row_offset k) r1 r2 (byte_count r1))) /\
       (0 < diff_count r1 r2 ->
        render_row self b1 b2 k
        = fst (cmp_line self (row_offset k) r1 r2 (byte_count r1))
            ++ pr_info self ("Expected:" +s+ NL)
            :: print_line self (row_offset k) r2 (byte_count r2)) /\
       (diff_count r1 r2 = 0 ->
        text_of (render_row self b1 b2 k)
        = row_text self (row_offset k) r1 r2) /\
       (0 < diff_count r1 r2 ->
        text_of (render_row self b1 b2 k)
        = row_text self (row_offset k) r1 r2 +s+
          expected_text self (row_offset k) r2).
Proof using. pure_context.
  intros Hlen Hmax. cbv zeta.
  assert (Erows : cmp_buffer_rows self b1 b2 (byte_count b1)
                  = Some (flat_map (render_row self b1 b2)
                            (seq 0 (row_count (byte_count b1))),
                          map (fun k => diff_count (row k b1) (row k b2))
                            (seq 0 (row_count (byte_count b1))))).
  { pose proof (cmp_buffer_rows_spec self b1 b2 (byte_count b1)) as E.
    assert (F1 : firstn (Z.to_nat (byte_count b1)) b1 = b1).
    { unfold byte_count. rewrite Nat2Z.id. apply firstn_all. }
    assert (F2 : firstn (Z.to_nat (byte_count b1)) b2 = b2).
    { unfold byte_count. rewrite Nat2Z.id, Hlen. apply firstn_all. }
    rewrite F1, F2 in E. apply E; unfold byte_count in *; lia. }
  split; [exact Erows|]. split.
  - rewrite Erows. cbn [option_map fst]. unfold diff_text.
    rewrite diff_rows_text by assumption. reflexivity.
  - intros k Hk.
    pose proof (row_count_bounds (byte_count b1) ltac:(unfold byte_count; lia))
      as Hrc.
    assert (Hl1 : List.length (row k b1)
                  = Nat.min 16 (List.length b1 - 16 * k)).
    { unfold row. rewrite length_firstn, length_skipn. reflexivity. }
    assert (Hl2 : List.length (row k b2)
                  = Nat.min 16 (List.length b1 - 16 * k)).
    { unfold row. rewrite length_firstn, length_skipn, Hlen. reflexivity. }
    unfold byte_count in Hrc, Hk.
    split; [congruence|]. split; [lia|].
    split.
    { pose proof (cmp_line_count self (row_offset k) (row k b1) (row k b2)
                    ltac:(congruence)) as Hc.
      unfold cmp_line in *.
      destruct (for_loop _ _ 0) as [hex res]. cbn [snd] in Hc. subst res.
      eexists. reflexivity. }
    pose proof (render_row_text self b1 b2 k Hlen) as Htext.
    unfold diff_row_text in Htext.
    unfold render_row. split; [|split; [|split]]; intros Hd.
    + rewrite Hd. cbn. apply app_nil_r.
    + replace (0 <? diff_count (row k b1) (row k b2)) with true
        by (symmetry; apply Z.ltb_lt; assumption).
      reflexivity.
    + fold (render_row self b1 b2 k). rewrite Htext, Hd.
      cbn [Z.ltb Z.compare]. apply append_nil_r.
    + fold (render_row self b1 b2 k). rewrite Htext.
      replace (0 <? diff_count (row k b1) (row k b2)) with true
        by (symmetry; apply Z.ltb_lt; assumption).
      reflexivity.
Qed.

(** C8: for the first [len] bytes of two buffers, memcmp, the test by which
    receive_start decides on a mismatch, is non-zero exactly when the
    values returned by cmp_line for the rows of cmp_buffer add up to more
    than zero. *)
Theorem mismatch_iff_row_counts (self : thread) (buf1 buf2 : list byte)
  (len : Z) :
  0 <= len <= 2 ^ 32 - 16 ->
  (Z.to_nat len <= List.length buf1)%nat ->
  (Z.to_nat len <= List.length buf2)%nat ->
  exists out counts,
    cmp_buffer_rows self buf1 buf2 len = Some (out, counts) /\
    (memcmp buf1 buf2 (Z.to_nat len) <> 0 <-> 0 < sum counts).
Proof using. pure_context.
  intros Hlen H1 H2.
  rewrite (cmp_buffer_rows_spec self buf1 buf2 len) by (assumption || lia).
  eexists. eexists. split; [reflexivity|].
  pose proof (row_count_bounds len ltac:(lia)) as Hrc.
  rewrite sum_row_counts.
  2:{ rewrite !length_firstn. lia. }
  2:{ rewrite length_firstn. lia. }
  pose proof (diff_count_nonneg (firstn (Z.to_nat len) buf1)
                (firstn (Z.to_nat len) buf2)) as Hnn.
  pose proof (diff_count_zero_iff (firstn (Z.to_nat len) buf1)
                (firstn (Z.to_nat len) buf2)) as Hz.
  rewrite !length_firstn in Hz. specialize (Hz ltac:(lia)).
  pose proof (memcmp_zero_iff (Z.to_nat len) buf1 buf2 H1 H2) as Hm.
  split.
  - intros Hne. assert (diff_count (firstn (Z.to_nat len) buf1)
                          (firstn (Z.to_nat len) buf2) <> 0); [|lia].
    intros Hd. apply Hne, Hm, Hz, Hd.
  - intros Hpos Heq. apply Hm, Hz in Heq. lia.
Qed.

(** C5: a completed round adds the length of its message to [tx_bytes] and
    the length of the prefix chosen by the receiver to [rx_bytes]; when the
    loop of main has completed its [opt_nmsgs] rounds, [tx_bytes] is the
    sum of the message lengths and [rx_bytes] the sum of the prefix lengths
    of these rounds (and the number of bytes the reads delivered). *)
Theorem statistics_accuracy (o : options) :
  opts_ok o ->
  (forall e g g1,
      wf g -> round o e g = Ret tt g1 ->
      exists new len trunc,
        log g1 = log g ++ new /\
        msg_lengths new = [len] /\ trunc_lengths new = [trunc] /\
        tx_bytes g1 = u64 (tx_bytes g + len) /\
        rx_bytes g1 = u64 (rx_bytes g + trunc))
  /\ (forall now envs g',
         main_loop o envs (loop_entry o now) = Ret tt g' ->
         msgs g' = opt_nmsgs o /\
         Z.of_nat (List.length (msg_lengths (log g'))) = opt_nmsgs o /\
         List.length (trunc_lengths (log g'))
         = List.length (msg_lengths (log g')) /\
         tx_bytes g' = sum (msg_lengths (log g')) /\
         rx_bytes g' = sum (trunc_lengths (log g')) /\
         rx_bytes g' = bytes_read (log g')).
Proof.
  intros (HN & Hn). split.
  - intros e g g1 Hwf E.
    pose proof (round_spec o e g Hwf HN) as H. cbv zeta in H. rewrite E in H.
    cbn [final] in H.
    destruct H as (_ & _ & new & Hl & _ & _ & _ & _ & _ & len & trunc & _ & _
                   & Hml & Htl & _ & Htx & Hrx).
    exists new, len, trunc. auto.
  - intros now envs g' E.
    pose proof (main_loop_spec o envs (loop_entry o now) (wf_loop_entry o now) HN Hn)
      as H.
    cbv zeta in H. rewrite E in H. cbn [final] in H.
    destruct H as (_ & new & k & Hl & _ & _ & _ & _ & _ & Hm & Htx & Hrx & Hby
                   & Hk1 & Hk2 & Hall1 & Hall2).
    change (log (loop_entry o now)) with (@nil event) in Hl. cbn [app] in Hl.
    change (tx_bytes (loop_entry o now)) with 0 in Htx.
    change (rx_bytes (loop_entry o now)) with 0 in Hrx.
    change (msgs (loop_entry o now)) with 0 in Hm.
    rewrite Hl. specialize (Hm ltac:(lia)). destruct Hm as (Hm & Hk).
    assert (Hbound : forall l,
               Forall (fun x => 1 <= x <= opt_msglen o) l ->
               0 <= sum l <= opt_msglen o * Z.of_nat (List.length l)).
    { induction l as [|x l IHl]; intros Hf; cbn [sum fold_right List.length].
      - lia.
      - inversion Hf; subst. specialize (IHl H2). unfold sum in IHl. nia. }
    pose proof (Hbound _ Hall1) as B1. pose proof (Hbound _ Hall2) as B2.
    rewrite Hk1 in B1. rewrite Hk2 in B2.
    assert (Hsmall : opt_msglen o * Z.of_nat k < 2 ^ 64).
    { unfold MAX_MAX_MSG_LEN in HN. nia. }
    rewrite Z.add_0_l in Htx, Hrx. rewrite u64_small in Htx, Hrx by lia.
    splits; try assumption; try lia.
Qed.

(** C4: the generator is used by msg_gen on the main thread before the
    workers exist and once by the receiver, never by the transmitter.  With
    a seed other than zero (zero asks the library for a seed of its own
    choice), the draws of a run (message lengths, message bytes, prefix
    lengths) begin the sequence that the seed and the maximum length
    determine, so two runs with the same options agree as far as both go,
    whatever the clock, the devices, the scheduler and the operator do, and
    they agree altogether when both complete. *)
Theorem generated_sequence_deterministic (o : options) (now1 now2 : Z)
  (envs1 envs2 : list round_env) :
  opts_ok o ->
  opt_seed o <> 0 ->
  let ideal k :=
    run_draws k (opt_msglen o) (brahe_prng_init (opt_seed o) now1) in
  let d1 := draws (log (final (main_run o now1 envs1 startup))) in
  let d2 := draws (log (final (main_run o now2 envs2 startup))) in
  (exists k rest, ideal k = d1 ++ rest) /\
  (exists k rest, ideal k = d2 ++ rest) /\
  (exists t, d1 = d2 ++ t \/ d2 = d1 ++ t) /\
  Forall (fun d => fst d <> TxThread) d1 /\
  Forall (fun d => fst d <> TxThread) d2 /\
  (forall g1 g2,
      main_run o now1 envs1 startup = Exit 0 g1 ->
      main_run o now2 envs2 startup = Exit 0 g2 ->
      d1 = ideal (Z.to_nat (opt_nmsgs o)) /\ d2 = d1).
Proof.
  intros (HN & Hn) Hseed. cbv zeta.
  assert (Hrun : forall now envs,
             (exists k rest,
                 run_draws k (opt_msglen o)
                   (brahe_prng_init (opt_seed o) now1)
                 = draws (log (final (main_run o now envs startup))) ++ rest)
             /\ (forall g', main_run o now envs startup = Exit 0 g' ->
                   draws (log (final (main_run o now envs startup)))
                   = run_draws (Z.to_nat (opt_nmsgs o)) (opt_msglen o)
                       (brahe_prng_init (opt_seed o) now1))).
  { intros now envs. rewrite main_run_unfold.
    pose proof (main_loop_spec o envs (loop_entry o now) (wf_loop_entry o now)
                  HN Hn) as H.
    cbv zeta in H.
    destruct H as (_ & new & k & Hl & _ & (rest & Hp) & H).
    change (log (loop_entry o now)) with (@nil event) in Hl. cbn [app] in Hl.
    change (prng (loop_entry o now))
      with (brahe_prng_init (opt_seed o) now) in *.
    rewrite (init_seeded (opt_seed o) now now1 Hseed) in *.
    change (msgs (loop_entry o now)) with 0 in H.
    destruct (main_loop o envs (loop_entry o now)) as [[] g1 | c g1 | g1 | g1];
      cbn [final log add_log] in *; try contradiction.
    - destruct H as (Hd & Hf & Hpos & Hm & _).
      specialize (Hm ltac:(lia)). destruct Hm as (_ & Hk).
      rewrite Hl, draws_app. cbn [print_stats draws flat_map pr_warn app].
      rewrite app_nil_r.
      split; [exists (S k), rest; assumption|].
      intros g' _. rewrite Hd. f_equal. lia.
    - destruct H as (-> & Hf). rewrite Hl.
      split; [exists (S k), rest; assumption|]. discriminate.
    - rewrite Hl. split; [exists (S k), rest; assumption|]. discriminate. }
  destruct (Hrun now1 envs1) as ((k1 & r1 & H1) & E1).
  destruct (Hrun now2 envs2) as ((k2 & r2 & H2) & E2).
  split; [eauto|]. split; [eauto|]. split; [|split; [|split]].
  - destruct (run_draws_more (opt_msglen o) k1 k2
                (brahe_prng_init (opt_seed o) now1)) as (m1 & Hm1).
    destruct (run_draws_more (opt_msglen o) k2 k1
                (brahe_prng_init (opt_seed o) now1)) as (m2 & Hm2).
    rewrite H1 in Hm1. rewrite H2 in Hm2. rewrite Nat.add_comm in Hm2.
    rewrite <- !app_assoc in *.
    eapply prefix_comparable; eassumption.
  - pose proof (run_draws_no_tx (opt_msglen o) k1
                  (brahe_prng_init (opt_seed o) now1)) as Hno.
    rewrite H1 in Hno. apply Forall_app in Hno. apply Hno.
  - pose proof (run_draws_no_tx (opt_msglen o) k2
                  (brahe_prng_init (opt_seed o) now1)) as Hno.
    rewrite H2 in Hno. apply Forall_app in Hno. apply Hno.
  - intros g1 g2 Ha Hb. split; [eapply E1; eassumption|].
    rewrite (E1 _ Ha), (E2 _ Hb). reflexivity.
Qed.

(** C9: when the process exits, the code is 0 exactly if no fatal
    condition has occurred (no failed read, failed or short write, error
    report or interrupt is in the trace), and that is the case only after
    the configured, positive number of rounds has been completed; every
    other exit is exit(1) from usage() or exit(-1), which the parent sees
    as a non-zero status.  A loop that completes leads to exit(0).  Read
    off the environment: once the rounds before it have completed, a round
    that main still has to run and in which the operator interrupts the
    program, a device cannot be opened or configured, the write fails or
    is short, a read fails, or the received bytes differ from the message,
    ends the process with exit(-1), a non-zero status; and when main is
    asked for a positive number of rounds and that many rounds go well,
    the process ends with exit(0). *)
Theorem exit_code_zero_iff_completed (progname : string) (args : list string)
  (now : Z) (envs : list round_env) :
  match main progname args now envs with
  | Exit c g' =>
      (c = 0 \/ c = 1 \/ c = -1) /\
      (exit_status c = 0 <-> c = 0) /\
      (c = 0 <-> existsb fatal_event (log g') = false) /\
      (c = 0 ->
       exists o,
         parse_args args default_options = Some o /\
         0 < opt_nmsgs o /\ msgs g' = opt_nmsgs o /\
         Z.of_nat (List.length (msg_lengths (log g'))) = opt_nmsgs o /\
         Z.of_nat (List.length (trunc_lengths (log g'))) = opt_nmsgs o)
  | Ret _ _ => False
  | Hang _ => True
  | Fault _ => False
  end
  /\ (forall o dev g1,
         parse_args args default_options = Some o ->
         opt_rxdev o = Some dev ->
         main_loop o envs (loop_entry o now) = Ret tt g1 ->
         exists g', main progname args now envs = Exit 0 g')
  /\ (forall o dev pre e post g,
         parse_args args default_options = Some o ->
         opt_rxdev o = Some dev ->
         envs = pre ++ e :: post ->
         run_rounds o pre (loop_entry o now) = Some g ->
         opt_nmsgs o = 0 \/ msgs g < opt_nmsgs o ->
         fatal_cause o (prng g) e ->
         exists g',
           main progname args now envs = Exit (-1) g' /\
           exit_status (-1) <> 0)
  /\ (forall o dev,
         parse_args args default_options = Some o ->
         opt_rxdev o = Some dev ->
         0 < opt_nmsgs o ->
         clean_run o (Z.to_nat (opt_nmsgs o))
           (brahe_prng_init (opt_seed o) now) envs ->
         exists g',
           main progname args now envs = Exit 0 g' /\
           msgs g' = opt_nmsgs o).
Proof.
  unfold main. split; [|split; [|split]].
  - destruct (parse_args args default_options) as [o|] eqn:Hparse.
    2:{ cbn. splits; try (intros; discriminate); try lia; auto. }
    destruct (opt_rxdev o) as [dev|].
    2:{ cbn. splits; try (intros; discriminate); try lia; auto. }
    pose proof (parse_args_ok _ args default_options o (le_n _)
                  opts_ok_default Hparse) as (HN & Hn).
    rewrite main_run_unfold.
    pose proof (main_loop_spec o envs (loop_entry o now) (wf_loop_entry o now) HN Hn)
      as H.
    cbv zeta in H.
    destruct H as (_ & new & k & Hl & _ & _ & H).
    change (log (loop_entry o now)) with (@nil event) in Hl. cbn [app] in Hl.
    change (msgs (loop_entry o now)) with 0 in H.
    destruct (main_loop o envs (loop_entry o now)) as [[] g1 | c g1 | g1 | g1];
      cbn [final log add_log msgs] in *; try contradiction; try exact I.
    + destruct H as (_ & Hf & Hpos & Hm & _ & _ & _ & Hk1 & Hk2 & _).
      specialize (Hm ltac:(lia)). destruct Hm as (Hm & Hk).
      assert (Hfat : existsb fatal_event
                       (log g1 ++ print_stats MainThread (msgs g1)
                                    (tx_bytes g1) (rx_bytes g1)) = false).
      { rewrite existsb_app, Hl, Hf. reflexivity. }
      splits; auto; try reflexivity; try tauto.
      intros _. exists o.
      rewrite msg_lengths_app, trunc_lengths_app, !length_app, Hl, Hk1, Hk2.
      cbn. splits; auto; lia.
    + destruct H as (-> & Hf). rewrite Hl, Hf.
      splits; auto; try (intros; discriminate); try (split; discriminate).
  - intros o dev g1 Hparse Hdev Hloop. rewrite Hparse, Hdev, main_run_unfold.
    rewrite Hloop. eexists. reflexivity.
  - intros o dev pre e post g Hparse Hdev -> Hrun Hmore Hcause.
    rewrite Hparse, Hdev, main_run_unfold.
    pose proof (parse_args_ok _ args default_options o (le_n _)
                  opts_ok_default Hparse) as (HN & Hn).
    rewrite (main_loop_after o pre (e :: post) _ g Hrun).
    pose proof (run_rounds_wf o pre _ g (wf_loop_entry o now) HN Hrun) as Hwf.
    destruct (main_loop_fatal o e post g Hwf HN Hmore Hcause) as (g' & ->).
    exists g'. split; [reflexivity|]. unfold exit_status. discriminate.
  - intros o dev Hparse Hdev Hpos Hclean.
    rewrite Hparse, Hdev, main_run_unfold.
    pose proof (parse_args_ok _ args default_options o (le_n _)
                  opts_ok_default Hparse) as (HN & Hn).
    destruct (main_loop_clean o (Z.to_nat (opt_nmsgs o)) envs
                (loop_entry o now) (wf_loop_entry o now) HN ltac:(lia)
                ltac:(cbn [loop_entry msgs set_msgs]; lia) Hclean)
      as (g' & -> & Hm).
    eexists. split; [reflexivity | exact Hm].
Qed.

(** C10: the option loop of main lets only lengths from 1 to 4096 through,
    and with such a maximum every read of the receiver asks for bytes
    inside its 4096-byte buffer: the offset is not negative and offset plus
    count is at most 4096; the comparison stays inside the buffer and the
    message as well, so the run never leaves an object. *)
Theorem receive_buffer_in_bounds (progname : string) (args : list string)
  (now : Z) (envs : list round_env) :
  (forall o, parse_args args default_options = Some o ->
             1 <= opt_msglen o <= MAX_MAX_MSG_LEN) /\
  (forall g, main progname args now envs <> Fault g) /\
  Forall read_in_bounds (log (final (main progname args now envs))).
Proof.
  split.
  { intros o Hparse.
    apply (parse_args_ok _ args default_options o (le_n _) opts_ok_default
             Hparse). }
  unfold main.
  destruct (parse_args args default_options) as [o|] eqn:Hparse.
  2:{ cbn. split; [discriminate | repeat constructor]. }
  destruct (opt_rxdev o) as [dev|].
  2:{ cbn. split; [discriminate | repeat constructor]. }
  pose proof (parse_args_ok _ args default_options o (le_n _)
                opts_ok_default Hparse) as (HN & Hn).
  rewrite main_run_unfold.
  pose proof (main_loop_spec o envs (loop_entry o now) (wf_loop_entry o now) HN Hn)
    as H.
  cbv zeta in H.
  destruct H as (_ & new & k & Hl & Hb & _ & H).
  change (log (loop_entry o now)) with (@nil event) in Hl. cbn [app] in Hl.
  destruct (main_loop o envs (loop_entry o now)) as [[] g1 | c g1 | g1 | g1];
    cbn [final log add_log] in *; try contradiction;
    (split; [discriminate|]); rewrite Hl; try assumption.
  apply Forall_app. split; [assumption | repeat constructor].
Qed.

(** C1, as the code has it: transmit_start calls write once, for the whole
    body, whatever the device answers.  When the device takes all
    [msg_len] bytes the worker returns and [tx_bytes] has grown by
    [msg_len]; when it takes fewer, the worker adds what was written to
    [tx_bytes], reports "Short write" and ends the process with exit(-1): a
    short write is not continued; when the write fails, the worker reports
    "Write error" with the errno and ends the process with exit(-1),
    [tx_bytes] unchanged; when the device never answers, the worker stays
    in the write. *)
Theorem transmit_start_single_write (o : options) (e : tx_env) (m : msg)
  (g : globals) :
  msg_wf m -> msg_len m <= MAX_MAX_MSG_LEN ->
  dev_ok o (tx_dev e) = true ->
  exists fd out dump,
    sys_open (tx_dev e) = Ok fd /\
    device_open o TxThread (tx_dev e) (opt_txdev o) O_WRONLY true g
    = Ret fd (add_log out g) /\
    all_stdout out /\ all_stdout dump /\
    (opt_verbose o = false -> dump = []) /\
    transmit_start o e m g
    = match tx_writes e with
      | [] => Hang (add_log (out ++ dump) g)
      | WrErr errno :: _ =>
          Exit (-1)
            (add_log
               (out ++ dump
                ++ [EvWrite (msg_len m) (-1);
                    pr_error TxThread
                      ("Write error " +s+ fmt_d errno +s+ NL)]) g)
      | WrAccept n :: _ =>
          let res := Z.min (Z.of_N n) (msg_len m) in
          if res <? msg_len m then
            Exit (-1)
              (add_log [pr_error TxThread
                          ("Short write " +s+ fmt_d res +s+ " < " +s+
                           fmt_u (msg_len m) +s+ NL)]
                 (set_tx_bytes (u64 (tx_bytes g + res))
                    (add_log (out ++ dump ++ [EvWrite (msg_len m) res]) g)))
          else
            Ret tt
              (set_tx_bytes (u64 (tx_bytes g + msg_len m))
                 (add_log
                    (out ++ dump ++ [EvWrite (msg_len m) (msg_len m)]) g))
      end.
Proof.
  intros (Hml & _) Hmax Hdev.
  destruct (device_open_ok o TxThread (tx_dev e) (opt_txdev o) O_WRONLY g
              Hdev) as (fd & out & Hfd & Hout & Hopen).
  destruct (transmit_start_after_open o e m g fd _ ltac:(lia) Hopen)
    as (dump & Hd & Hnv & E).
  exists fd, out, dump.
  split; [assumption|]. split; [assumption|]. split; [assumption|].
  split; [assumption|]. split; [assumption|].
  rewrite E. cbn [tx_bytes add_log].
  destruct (tx_writes e) as [|[errno | n] ws]; cbv zeta.
  - rewrite add_log_app. reflexivity.
  - rewrite add_log_app. reflexivity.
  - rewrite !add_log_app. reflexivity.
Qed.

(** C2, as the code has it: each fatal condition that a worker meets ends
    the process with exit(-1).  When the received bytes differ from the
    message, the receiver first prints the error line "Data mismatch",
    then the diff of the received prefix against the message, then the
    statistics line.  When a device cannot be opened or configured, when
    the write fails or is short, and when a read fails, the last thing the
    worker prints is one error line, which follows the failed call at
    once: no diff and no statistics line come after it.  Conversely, every
    exit of a worker has one of these shapes. *)
Theorem fatal_exit_diagnostics (o : options) (m : msg) (g : globals) :
  wf g -> msg_wf m -> 1 <= msg_len m <= MAX_MAX_MSG_LEN ->
  let trunc := fst (brahe_prng_range (prng g) 1 (msg_len m)) in
  (forall e,
      dev_ok o (tx_dev e) = false ->
      exists pre text,
        all_stdout pre /\
        transmit_start o e m g
        = Exit (-1) (add_log (pre ++ [pr_error TxThread text]) g))
  /\ (forall e,
         dev_ok o (rx_dev e) = false ->
         exists pre text,
           all_stdout pre /\
           receive_start o e m g
           = Exit (-1) (add_log (pre ++ [pr_error RxThread text]) g))
  /\ (forall e errno ws,
         dev_ok o (tx_dev e) = true ->
         tx_writes e = WrErr errno :: ws ->
         exists pre,
           all_stdout pre /\
           transmit_start o e m g
           = Exit (-1)
               (add_log
                  (pre ++ [EvWrite (msg_len m) (-1);
                           pr_error TxThread
                             ("Write error " +s+ fmt_d errno +s+ NL)]) g))
  /\ (forall e n ws,
         dev_ok o (tx_dev e) = true ->
         tx_writes e = WrAccept n :: ws ->
         Z.of_N n < msg_len m ->
         exists pre,
           all_stdout pre /\
           transmit_start o e m g
           = Exit (-1)
               (add_log [pr_error TxThread
                           ("Short write " +s+ fmt_d (Z.of_N n) +s+ " < "
                            +s+ fmt_u (msg_len m) +s+ NL)]
                  (set_tx_bytes (u64 (tx_bytes g + Z.of_N n))
                     (add_log (pre ++ [EvWrite (msg_len m) (Z.of_N n)]) g))))
  /\ (forall e chunks errno rest,
         dev_ok o (rx_dev e) = true ->
         rx_reads e = map RdData chunks ++ RdErr errno :: rest ->
         byte_count (List.concat chunks) < trunc ->
         exists g' pre,
           receive_start o e m g = Exit (-1) g' /\
           log g'
           = log g ++ pre
             ++ [EvRead (byte_count (List.concat chunks))
                   (trunc - byte_count (List.concat chunks)) (-1);
                 pr_error RxThread ("Read error " +s+ fmt_d errno +s+ NL)] /\
           existsb fatal_event pre = false /\
           rx_bytes g'
           = u64 (rx_bytes g + byte_count (List.concat chunks)))
  /\ (forall e chunks,
         dev_ok o (rx_dev e) = true ->
         rx_reads e = map RdData chunks ->
         byte_count (List.concat chunks) = trunc ->
         List.concat chunks <> firstn (Z.to_nat trunc) (msg_buf m) ->
         exists g' pre diff,
           receive_start o e m g = Exit (-1) g' /\
           log g'
           = log g ++ pre
             ++ pr_error RxThread ("Data mismatch" +s+ NL)
             :: diff
             ++ [EvOut Stdout
                   (statistics_text RxThread (msgs g') (tx_bytes g')
                      (rx_bytes g'))] /\
           existsb fatal_event pre = false /\
           text_of diff
           = diff_text RxThread (List.concat chunks)
               (firstn (Z.to_nat trunc) (msg_buf m)) trunc /\
           msgs g' = msgs g /\ rx_bytes g' = u64 (rx_bytes g + trunc))
  /\ (forall e c g',
         transmit_start o e m g = Exit c g' ->
         c = -1 /\ exists new, log g' = log g ++ new /\ tx_exit_shape m new)
  /\ (forall e c g',
         receive_start o e m g = Exit c g' ->
         c = -1 /\
         exists new,
           log g' = log g ++ new /\ rx_exit_shape m trunc g' new).
Proof.
  intros Hwf Hm Hlen. cbv zeta.
  split; [|split; [|split; [|split; [|split; [|split; [|split]]]]]].
  - intros e Hdev.
    destruct (device_open_fails o TxThread (tx_dev e) (opt_txdev o) O_WRONLY
                g Hdev) as (pre & text & Hpre & E).
    exists pre, text. split; [assumption|].
    unfold transmit_start, bind at 1. rewrite E. reflexivity.
  - intros e Hdev.
    destruct (device_open_fails o RxThread (rx_dev e) (opt_rxdev o) O_RDONLY
                g Hdev) as (pre & text & Hpre & E).
    exists pre, text. split; [assumption|].
    rewrite receive_start_unfold. unfold bind at 1. rewrite E. reflexivity.
  - intros e errno ws Hdev Hw.
    destruct (device_open_ok o TxThread (tx_dev e) (opt_txdev o) O_WRONLY g
                Hdev) as (fd & out & _ & Hout & Hopen).
    destruct (transmit_start_after_open o e m g fd _ ltac:(lia) Hopen)
      as (dump & Hd & _ & E).
    rewrite Hw in E. exists (out ++ dump).
    split; [apply all_stdout_app; assumption|].
    rewrite E, add_log_app, <- app_assoc. reflexivity.
  - intros e n ws Hdev Hw Hshort.
    destruct (device_open_ok o TxThread (tx_dev e) (opt_txdev o) O_WRONLY g
                Hdev) as (fd & out & _ & Hout & Hopen).
    destruct (transmit_start_after_open o e m g fd _ ltac:(lia) Hopen)
      as (dump & Hd & _ & E).
    rewrite Hw in E. cbv zeta in E.
    rewrite Z.min_l in E by lia.
    replace (Z.of_N n <? msg_len m) with true in E
      by (symmetry; apply Z.ltb_lt; assumption).
    exists (out ++ dump).
    split; [apply all_stdout_app; assumption|].
    rewrite E, add_log_app, <- app_assoc. reflexivity.
  - intros e chunks errno rest Hdev Hreads Hsum.
    destruct (receive_start_read_error o e m g chunks errno rest Hwf Hlen
                Hdev Hreads Hsum)
      as (g' & pre & E & Hl & Hf & Hrb & _).
    exists g', pre. auto.
  - intros e chunks Hdev Hreads Hsum Hne.
    destruct (receive_start_mismatch o e m g chunks Hwf Hm Hlen Hdev Hreads
                Hsum Hne)
      as (g' & pre & diff & E & Hl & Hf & Ht & Hrb & Htb & Hmg).
    exists g', pre, diff.
    rewrite <- Hrb, <- Htb in Hl. rewrite <- Hmg in Hl at 1.
    splits; assumption.
  - intros e c g' E.
    pose proof (transmit_start_spec o e m g Hwf ltac:(lia)) as H.
    cbv zeta in H. rewrite E in H. cbn [final] in H.
    destruct H as (_ & _ & _ & _ & _ & new & Hl & _ & _ & _ & Hc & _ & Hs).
    split; [assumption|]. exists new. split; assumption.
  - intros e c g' E.
    pose proof (receive_start_spec o e m g Hwf Hm Hlen) as H.
    cbv zeta in H. rewrite E in H. cbn [final] in H.
    destruct H as (_ & _ & _ & _ & new & Hl & _ & _ & _ & _ & Hc & _ & Hs).
    split; [assumption|]. exists new. split; assumption.
Qed.

(** C3: receive_start draws the prefix length once, as
    brahe_prng_range(1, msg_len), so that [1 <= trunc <= msg_len]; each
    read is made at the offset reached so far and asks for what is still
    missing of [trunc] bytes, whatever the device answers.  When the
    device delivers chunks of data that add up to [trunc] bytes, the loop
    takes them all, the buffer then begins with these bytes in order,
    [rx_bytes] has grown by [trunc], and only then are the bytes compared:
    the worker returns when they are the first [trunc] bytes of the
    message and ends the process with exit(-1) otherwise. *)
Theorem receive_start_truncated_read (o : options) (m : msg) (g : globals) :
  wf g -> msg_wf m -> 1 <= msg_len m <= MAX_MAX_MSG_LEN ->
  let trunc := fst (brahe_prng_range (prng g) 1 (msg_len m)) in
  1 <= trunc <= msg_len m /\
  (forall e,
      exists new,
        log (final (receive_start o e m g)) = log g ++ new /\
        reads_from trunc 0 new /\
        (draws new = [] \/
         draws new = [(RxThread, DrawRange 1 (msg_len m) trunc)])) /\
  (forall e fd g1 chunks,
      device_open o RxThread (rx_dev e) (opt_rxdev o) O_RDONLY true g
      = Ret fd g1 ->
      rx_reads e = map RdData chunks ->
      byte_count (List.concat chunks) = trunc ->
      let r := receive_start o e m g in
      exists new,
        log (final r) = log g ++ new /\
        draws new = [(RxThread, DrawRange 1 (msg_len m) trunc)] /\
        reads_from trunc 0 new /\
        bytes_read new = trunc /\
        rx_bytes (final r) = u64 (rx_bytes g + trunc) /\
        firstn (Z.to_nat trunc) (rx_buf (final r)) = List.concat chunks /\
        ((List.concat chunks = firstn (Z.to_nat trunc) (msg_buf m) /\
          exists g', r = Ret tt g')
         \/ (List.concat chunks <> firstn (Z.to_nat trunc) (msg_buf m) /\
             exists g', r = Exit (-1) g'))).
Proof.
  intros Hwf Hm Hlen. cbv zeta.
  pose proof (range_ok (prng g) 1 (msg_len m) ltac:(lia)
                ltac:(unfold MAX_MAX_MSG_LEN in Hlen; lia)) as HT.
  split; [assumption|]. split.
  - intros e.
    pose proof (receive_start_spec o e m g Hwf Hm Hlen) as H. cbv zeta in H.
    destruct H as (_ & _ & _ & _ & new & Hl & _ & Hrf & _ & Hd & _).
    exists new. split; [assumption|]. split; [assumption|].
    destruct Hd as [(Hd & _) | (Hd & _)]; auto.
  - intros e fd g1 chunks Hopen Hreads Hsum. cbv zeta.
    destruct (device_open_ret _ _ _ _ _ _ _ _ _ Hopen) as (out & Hout & Hg1).
    remember (receive_start o e m g) as r eqn:Er.
    rewrite receive_start_unfold in Er. unfold bind at 1 in Er.
    rewrite Hopen in Er. unfold bind at 1, prng_range in Er.
    rewrite (u32_small 1), (u32_small (msg_len m)) in Er
      by (unfold MAX_MAX_MSG_LEN in Hlen; lia).
    assert (Hpg : prng g1 = prng g) by (subst g1; reflexivity).
    rewrite Hpg in Er.
    destruct (brahe_prng_range (prng g) 1 (msg_len m)) as [trunc s'].
    cbn [fst snd] in *.
    unfold bind at 1 in Er.
    match type of Er with context [pr_debug o RxThread ?t ?g2] =>
      destruct (pr_debug_ret o RxThread t g2) as (out2 & Ho2 & E);
      rewrite E in Er; clear E
    end.
    set (d := EvDraw RxThread (DrawRange 1 (msg_len m) trunc)) in *.
    set (g2 := add_log out2 (add_log [d] (set_prng s' g1))) in *.
    assert (Hwf2 : wf g2).
    { destruct Hwf as (H1 & H2 & H3 & H4). unfold wf, g2. subst g1. cbn. auto. }
    assert (Hl2 : log g2 = log g ++ out ++ [d] ++ out2).
    { unfold g2. subst g1. cbn. rewrite <- !app_assoc. reflexivity. }
    assert (Hrx2 : rx_bytes g2 = rx_bytes g) by (unfold g2; subst g1; reflexivity).
    assert (Hmax : trunc <= MAX_MAX_MSG_LEN) by lia.
    destruct (rx_loop_chunks chunks trunc 0 g2 Hwf2 ltac:(lia) Hmax
                ltac:(lia)) as (g3 & Eloop & Hbuf).
    pose proof (rx_loop_spec (rx_reads e) trunc 0 g2 Hwf2 ltac:(lia) Hmax)
      as Hspec.
    cbv zeta in Hspec. rewrite Hreads in *. rewrite Eloop in Hspec.
    cbn [final] in Hspec.
    destruct Hspec as (_ & _ & _ & Hwf3 & newl & Hl3 & Hd3 & _ & Hrf3 & Hrb3
                       & _ & Hsum3).
    specialize (Hsum3 ltac:(lia)).
    unfold bind at 1 in Er. rewrite Eloop in Er.
    assert (Hprefix : firstn (Z.to_nat trunc) (rx_buf g3) = List.concat chunks).
    { rewrite Hbuf. unfold byte_count in Hsum.
      replace (Z.to_nat trunc) with (List.length (List.concat chunks)) by lia.
      apply firstn_store_0. }
    destruct (rx_finish_cases o m trunc g3 Hwf3 Hm ltac:(lia) ltac:(lia))
      as (Hok & Hbad).
    assert (Hcommon : forall tl, all_out tl ->
              draws (out ++ [d] ++ out2 ++ newl ++ tl)
              = [(RxThread, DrawRange 1 (msg_len m) trunc)]
              /\ reads_from trunc 0 (out ++ [d] ++ out2 ++ newl ++ tl)
              /\ bytes_read (out ++ [d] ++ out2 ++ newl ++ tl) = trunc).
    { intros tl Htl. splits.
      - rewrite !draws_app, Hd3, (out_draws tl Htl), (stdout_draws out Hout),
          (stdout_draws out2 Ho2). reflexivity.
      - apply out_reads_from; [apply stdout_all_out; assumption|].
        unfold d. cbn [app reads_from].
        apply out_reads_from; [apply stdout_all_out; assumption|].
        apply reads_from_app_out; assumption.
      - rewrite !bytes_read_app, (out_bytes_read tl Htl),
          (stdout_bytes_read out Hout), (stdout_bytes_read out2 Ho2).
        unfold bytes_read at 1. cbn. lia. }
    assert (Hrb : rx_bytes g3 = u64 (rx_bytes g + trunc)).
    { rewrite Hrb3, Hrx2, Hsum3. f_equal. lia. }
    destruct (Z.eq_dec (memcmp (rx_buf g3) (msg_buf m) (Z.to_nat trunc)) 0)
      as [Hc | Hc].
    + destruct (Hok Hc) as (out3 & Ho3 & E). rewrite E in Er. subst r.
      cbn [final log add_log rx_bytes rx_buf].
      exists (out ++ [d] ++ out2 ++ newl ++ out3).
      destruct (Hcommon out3 (stdout_all_out _ Ho3)) as (C1 & C2 & C3).
      splits; try assumption.
      * rewrite Hl3, Hl2, <- !app_assoc. reflexivity.
      * left. split; [| eexists; reflexivity].
        rewrite <- Hprefix. apply memcmp_zero_iff in Hc; [assumption | |].
        -- destruct Hwf3 as (_ & _ & _ & H4). rewrite H4.
           unfold MAX_MAX_MSG_LEN in *. lia.
        -- destruct Hm as (_ & Hmb). lia.
    + destruct (Hbad Hc) as (diff & Ec & E). rewrite E in Er. subst r.
      cbn [final log add_log rx_bytes rx_buf].
      set (tl := pr_error RxThread ("Data mismatch" +s+ NL)
                   :: diff
                   ++ print_stats RxThread (msgs g3) (tx_bytes g3) (rx_bytes g3)).
      assert (Htl : all_out tl).
      { apply (all_out_app [_]); [reflexivity|].
        apply all_out_app; [| reflexivity].
        apply stdout_all_out. eapply all_stdout_cmp_buffer. exact Ec. }
      exists (out ++ [d] ++ out2 ++ newl ++ tl).
      destruct (Hcommon tl Htl) as (C1 & C2 & C3).
      splits; try assumption.
      * rewrite Hl3, Hl2, <- !app_assoc. reflexivity.
      * right. split; [| eexists; reflexivity].
        rewrite <- Hprefix. intros Heq. apply Hc.
        apply memcmp_zero_iff; [| | assumption].
        -- destruct Hwf3 as (_ & _ & _ & H4). rewrite H4.
           unfold MAX_MAX_MSG_LEN in *. lia.
        -- destruct Hm as (_ & Hmb). lia.
Qed.

(** * Further properties of the program *)

(** ** Strings *)

Lemma length_zeros n : String.length (zeros n) = n.
Proof using. pure_context.
  induction n; cbn; [reflexivity | rewrite IHn; reflexivity].
Qed.

Lemma digits_S fuel base n acc :
  digits (S fuel) base n acc
  = if n / base =? 0 then String (digit_char (n mod base)) acc
    else digits fuel base (n / base) (String (digit_char (n mod base)) acc).
Proof using. reflexivity. Qed.

(** The digits of a number below [16 ^ k] are at least one and at most
    [k]. *)
Lemma length_digits fuel : forall k n acc,
  (1 <= k <= fuel)%nat -> 0 <= n < 16 ^ Z.of_nat k ->
  (1 + String.length acc <= String.length (digits fuel 16 n acc)
   <= k + String.length acc)%nat.
Proof using. pure_context.
  induction fuel as [|fuel IH]; intros k n acc Hk Hn; [lia|].
  rewrite digits_S. destruct (Z.eqb_spec (n / 16) 0) as [E|E].
  - cbn [String.length]. lia.
  - assert (16 <= n).
    { destruct (Z.lt_ge_cases n 16) as [Hlt|]; [|assumption].
      rewrite Z.div_small in E by lia. contradiction. }
    destruct k as [|[|k]]; try lia.
    specialize (IH (S k) (n / 16) (String (digit_char (n mod 16)) acc)
                  ltac:(lia)).
    assert (0 <= n / 16 < 16 ^ Z.of_nat (S k)).
    { split; [apply Z.div_pos; lia|].
      apply Z.div_lt_upper_bound; [lia|].
      replace (Z.of_nat (S (S k))) with (1 + Z.of_nat (S k)) in Hn by lia.
      rewrite Z.pow_add_r in Hn by lia. lia. }
    specialize (IH ltac:(assumption)). cbn [String.length] in IH. lia.
Qed.

Lemma length_fmt_04x n :
  0 <= n < 2 ^ 16 -> String.length (fmt_04x n) = 4%nat.
Proof using. pure_context.
  intros H. unfold fmt_04x, fmt_radix. rewrite u32_small by lia.
  pose proof (length_digits 64 4 n EmptyString ltac:(lia) ltac:(cbn; lia))
    as Hd.
  cbn [String.length] in Hd. rewrite length_append, length_zeros. lia.
Qed.

Lemma length_fmt_02x n :
  0 <= n < 2 ^ 8 -> String.length (fmt_02x n) = 2%nat.
Proof using. pure_context.
  intros H. unfold fmt_02x, fmt_radix. rewrite u32_small by lia.
  pose proof (length_digits 64 2 n EmptyString ltac:(lia) ltac:(cbn; lia))
    as Hd.
  cbn [String.length] in Hd. rewrite length_append, length_zeros. lia.
Qed.

Lemma Z_of_byte_range b : 0 <= Z_of_byte b < 2 ^ 8.
Proof using. pure_context.
  unfold Z_of_byte. pose proof (N_ascii_bounded b). lia.
Qed.

(** ** print_line: the layout of a line *)

Lemma length_range lo hi : List.length (range lo hi) = Z.to_nat (hi - lo).
Proof using. pure_context.
  unfold range. rewrite length_map, length_seq. reflexivity.
Qed.

Lemma length_text_of_cells (f : Z -> string) (n : nat) (l : list Z) :
  (forall i, In i l -> String.length (f i) = n) ->
  String.length (text_of (map (fun i => printf (f i)) l))
  = (n * List.length l)%nat.
Proof using. pure_context.
  induction l as [|i l IH]; intros H; cbn [map text_of fold_right printf].
  - cbn. lia.
  - change (fold_right _ _ (map _ l))
      with (text_of (map (fun i => printf (f i)) l)).
    rewrite length_append, IH, H; cbn [List.length];
      [lia | left; reflexivity |].
    intros j Hj. apply H. right. assumption.
Qed.

Lemma text_of_chars (f : Z -> ascii) (l : list Z) :
  text_of (map (fun i => putchar (f i)) l) = string_of_list_ascii (map f l).
Proof using. pure_context.
  induction l as [|i l IH]; [reflexivity|].
  cbn [map text_of fold_right putchar string_of_list_ascii].
  change (fold_right _ _ (map _ l))
    with (text_of (map (fun i => putchar (f i)) l)).
  rewrite IH. reflexivity.
Qed.

Lemma length_string_of_list_ascii l :
  String.length (string_of_list_ascii l) = List.length l.
Proof using. pure_context.
  induction l as [|c l IH]; cbn; [reflexivity | rewrite IH; reflexivity].
Qed.

Lemma print_line_text self index buf len :
  exists hex,
    text_of (print_line self index buf len)
    = thread_prefix self +s+ fmt_04x index +s+ ":" +s+ ESC_RM +s+ hex +s+
      " |" +s+
      string_of_list_ascii
        (map (fun i => printable (at_index buf i)) (range 0 len)) +s+
      "|" +s+ NL
    /\ String.length hex
       = (3 * Z.to_nat len + 3 * Z.to_nat (16 - len))%nat.
Proof using. pure_context.
  unfold print_line.
  exists (text_of
            (map (fun i =>
                    printf (" " +s+ fmt_02x (Z_of_byte (at_index buf i))))
               (range 0 len))
          +s+ text_of (map (fun _ : Z => printf "   ") (range len 16))).
  split.
  - rewrite !text_of_app, text_of_chars.
    cbn [text_of fold_right pr_info printf puts].
    rewrite !append_assoc. cbn [String.append]. reflexivity.
  - rewrite length_append.
    rewrite (length_text_of_cells
               (fun i => " " +s+ fmt_02x (Z_of_byte (at_index buf i))) 3).
    2:{ intros i _. cbn [String.append String.length].
        rewrite length_fmt_02x by apply Z_of_byte_range. reflexivity. }
    rewrite (length_text_of_cells (fun _ => "   "%string) 3)
      by (intros; reflexivity).
    rewrite !length_range, Z.sub_0_r. reflexivity.
Qed.

(** A byte from 32 to 126 stands for itself, every other byte is shown as
    a dot. *)
Lemma printable_range (b : byte) :
  32 <= Z_of_byte (printable b) < 127 /\
  (32 <= Z_of_byte b < 127 -> printable b = b) /\
  (~ 32 <= Z_of_byte b < 127 -> printable b = "."%char).
Proof using. pure_context.
  unfold printable.
  destruct (Z.leb_spec 32 (Z_of_byte b)), (Z.ltb_spec (Z_of_byte b) 127);
    cbn [andb]; (split; [first [lia | vm_compute; split; congruence]|]);
    split; intros; (reflexivity || lia).
Qed.

(** X1: A line of a dump has the same layout whatever the bytes are: the
    thread tag, four hex digits of the offset and a colon, 16 cells of three
    characters (those past the end of a short row are blank), the separator,
    one character per byte and the closing bar. The text column therefore
    starts at the same position on every line, and it holds printable ASCII
    only. *)
Theorem print_line_layout (self : thread) (index : Z) (buf : list byte)
  (len : Z) :
  0 <= index < 2 ^ 16 -> 0 <= len <= 16 ->
  exists hex,
    text_of (print_line self index buf len)
    = thread_prefix self +s+ fmt_04x index +s+ ":" +s+ ESC_RM +s+ hex +s+
      " |" +s+
      string_of_list_ascii
        (map (fun i => printable (at_index buf i)) (range 0 len)) +s+
      "|" +s+ NL
    /\ String.length (fmt_04x index) = 4%nat
    /\ String.length hex = 48%nat
    /\ List.length (map (fun i => printable (at_index buf i)) (range 0 len))
       = Z.to_nat len
    /\ Forall (fun c => 32 <= Z_of_byte c < 127)
         (map (fun i => printable (at_index buf i)) (range 0 len)).
Proof using. pure_context.
  intros Hi Hl. destruct (print_line_text self index buf len) as (hex & E & L).
  exists hex. split; [exact E|]. split; [apply length_fmt_04x; exact Hi|].
  split; [lia|]. split; [rewrite length_map, length_range; f_equal; lia|].
  apply Forall_forall. intros c Hc. apply in_map_iff in Hc.
  destruct Hc as (i & <- & _). apply printable_range.
Qed.

(** ** cmp_line and cmp_buffer on equal data *)

Lemma cmp_line_agree self a b1 b2 len :
  (forall j, 0 <= j < len -> at_index b1 j = at_index b2 j) ->
  cmp_line self a b1 b2 len = (print_line self a b1 len, 0).
Proof using. pure_context.
  intros H. rewrite <- cmp_line_same. apply cmp_line_ext.
  - intros; reflexivity.
  - intros j Hj. symmetry. apply H. assumption.
Qed.

Lemma for_loop_cmp_hex_count b1 b2 idx : forall res,
  res <= snd (for_loop idx (cmp_hex b1 b2) res) /\
  (snd (for_loop idx (cmp_hex b1 b2) res) = res ->
   forall i, In i idx -> at_index b1 i = at_index b2 i).
Proof using. pure_context.
  induction idx as [|i idx IH]; intros res.
  - cbn. split; [lia | intros _ j []].
  - cbn [for_loop]. unfold cmp_hex at 1 3.
    destruct (Ascii.eqb_spec (at_index b1 i) (at_index b2 i)) as [E|E].
    + destruct (IH res) as (Hle & Heq).
      destruct (for_loop idx (cmp_hex b1 b2) res) as [o r]. cbn [snd] in *.
      split; [assumption|]. intros Hr j [<- | Hj]; [assumption | auto].
    + destruct (IH (res + 1)) as (Hle & _).
      destruct (for_loop idx (cmp_hex b1 b2) (res + 1)) as [o r].
      cbn [snd] in *. split; [lia | intros; lia].
Qed.

(** X2: cmp_line returns 0 exactly when the two rows agree, and what it prints
    is then what print_line prints for the row: unflagged, as in a dump. *)
Theorem cmp_line_zero_iff_equal (self : thread) (address : Z)
  (buf1 buf2 : list byte) (len : Z) :
  (snd (cmp_line self address buf1 buf2 len) = 0 <->
   forall j, 0 <= j < len -> at_index buf1 j = at_index buf2 j) /\
  (snd (cmp_line self address buf1 buf2 len) = 0 ->
   fst (cmp_line self address buf1 buf2 len)
   = print_line self address buf1 len).
Proof using. pure_context.
  assert (Hback : (forall j, 0 <= j < len -> at_index buf1 j = at_index buf2 j)
                  -> cmp_line self address buf1 buf2 len
                     = (print_line self address buf1 len, 0))
    by apply cmp_line_agree.
  assert (Hfwd : snd (cmp_line self address buf1 buf2 len) = 0 ->
                 forall j, 0 <= j < len -> at_index buf1 j = at_index buf2 j).
  { unfold cmp_line.
    pose proof (for_loop_cmp_hex_count buf1 buf2 (range 0 len) 0) as (_ & H).
    destruct (for_loop (range 0 len) (cmp_hex buf1 buf2) 0) as [o r].
    cbn [snd] in *. intros Hr j Hj. apply H; [assumption|].
    apply in_range. assumption. }
  split; [split|].
  - exact Hfwd.
  - intros H. rewrite (Hback H). reflexivity.
  - intros H. rewrite (Hback (Hfwd H)). reflexivity.
Qed.

Lemma at_index_advance b i j :
  0 <= i -> 0 <= j -> at_index (advance b i) j = at_index b (i + j).
Proof using. pure_context.
  intros Hi Hj. unfold at_index, advance. rewrite nth_skipn. f_equal. lia.
Qed.

Lemma cmp_buffer_from_agree self b1 b2 len fuel : forall i,
  0 <= len < 2 ^ 32 -> 0 <= i ->
  (forall j, 0 <= j < len -> at_index b1 j = at_index b2 j) ->
  option_map fst (cmp_buffer_from fuel self b1 b2 len i)
  = print_buffer_from fuel self b1 len i.
Proof using. pure_context.
  induction fuel as [|fuel IH]; intros i Hlen Hi H; [reflexivity|].
  cbn [cmp_buffer_from print_buffer_from].
  destruct (Z.ltb_spec i len) as [Hlt|]; [|reflexivity].
  rewrite cmp_line_agree.
  2:{ intros j Hj. rewrite !at_index_advance by lia. apply H.
      unfold row_len in Hj. rewrite u32_small in Hj by lia. lia. }
  cbn [Z.eqb].
  rewrite <- IH; [| assumption | unfold u32; apply Z.mod_pos_bound; lia
                  | assumption].
  destruct (cmp_buffer_from fuel self b1 b2 len (u32 (i + 16)))
    as [[os rs]|]; reflexivity.
Qed.

(** X3: The diff of two buffers that agree on their first [len] bytes is the
    dump of these bytes: no byte is flagged and no "Expected:" row is added.
    *)
Theorem cmp_buffer_of_equal_buffers (self : thread) (buf1 buf2 : list byte)
  (len : Z) :
  0 <= len < 2 ^ 32 ->
  (forall j, 0 <= j < len -> at_index buf1 j = at_index buf2 j) ->
  cmp_buffer self buf1 buf2 len = print_buffer self buf1 len.
Proof using. pure_context.
  intros Hlen H. unfold cmp_buffer, cmp_buffer_rows, print_buffer.
  apply cmp_buffer_from_agree; [assumption | lia | assumption].
Qed.

(** ** print_buffer and msg_dump *)

Lemma diff_count_same r : diff_count r r = 0.
Proof using. pure_context.
  apply diff_count_zero_iff; reflexivity.
Qed.

Lemma render_row_same self b k : render_row self b b k = dump_row self b k.
Proof using. pure_context.
  unfold render_row, dump_row. rewrite cmp_line_same, diff_count_same.
  cbn [fst Z.ltb Z.compare]. apply app_nil_r.
Qed.

Lemma print_buffer_rows self buf len :
  0 <= len <= 2 ^ 32 - 16 -> (Z.to_nat len <= List.length buf)%nat ->
  print_buffer self buf len
  = Some (flat_map (dump_row self (firstn (Z.to_nat len) buf))
            (seq 0 (row_count len))).
Proof using. pure_context.
  intros Hlen Hbuf.
  unfold print_buffer.
  rewrite <- (cmp_buffer_from_agree self buf buf)
    by (intros; lia || reflexivity).
  change (cmp_buffer_from (loop_fuel len) self buf buf len 0)
    with (cmp_buffer_rows self buf buf len).
  rewrite cmp_buffer_rows_spec by (assumption || lia).
  cbn [option_map fst]. f_equal.
  apply flat_map_ext. intros k. apply render_row_same.
Qed.

(** X4: print_buffer prints the first [len] bytes in rows of 16, each by
    print_line under its byte offset, the last row with what is left; it
    prints [ceil(len / 16)] rows, none for an empty buffer. *)
Theorem print_buffer_renders_rows (self : thread) (buf : list byte)
  (len : Z) :
  0 <= len <= 2 ^ 32 - 16 -> (Z.to_nat len <= List.length buf)%nat ->
  print_buffer self buf len
  = Some (flat_map (dump_row self (firstn (Z.to_nat len) buf))
            (seq 0 (row_count len)))
  /\ (forall k, (k < row_count len)%nat ->
        byte_count (row k (firstn (Z.to_nat len) buf))
        = Z.min (len - row_offset k) 16
        /\ 0 < Z.min (len - row_offset k) 16)
  /\ (len = 0 -> print_buffer self buf len = Some []).
Proof using. pure_context.
  intros Hlen Hbuf.
  pose proof (print_buffer_rows self buf len Hlen Hbuf) as E.
  split; [exact E|]. split.
  - intros k Hk. pose proof (row_count_bounds len ltac:(lia)) as Hrc.
    rewrite length_row by (assumption || lia). unfold row_offset. lia.
  - intros ->. rewrite E. reflexivity.
Qed.

Lemma row_loop_wraps len i :
  2 ^ 32 - 16 < len -> 0 <= i < 2 ^ 32 -> i mod 16 = 0 ->
  i < len /\ 0 <= u32 (i + 16) < 2 ^ 32 /\ u32 (i + 16) mod 16 = 0.
Proof using. pure_context.
  intros Hlen Hi Hm.
  pose proof (Z.div_mod i 16 ltac:(lia)) as Hd.
  split; [lia|]. unfold u32.
  split; [apply Z.mod_pos_bound; lia|].
  destruct (Z.lt_ge_cases (i + 16) (2 ^ 32)) as [Hlt|Hge].
  - rewrite (Z.mod_small (i + 16)) by lia.
    rewrite <- Z.add_mod_idemp_l, Hm by lia. reflexivity.
  - replace (i + 16) with (2 ^ 32) by lia. reflexivity.
Qed.

(** X5: The loops of print_buffer and cmp_buffer count in an unsigned int: for
    a length above [2 ^ 32 - 16] the counter wraps to 0 before it reaches the
    length, and neither loop ever ends. *)
Theorem row_loops_never_end (self : thread) (buf1 buf2 : list byte)
  (len : Z) :
  2 ^ 32 - 16 < len ->
  forall fuel,
    print_buffer_from fuel self buf1 len 0 = None /\
    cmp_buffer_from fuel self buf1 buf2 len 0 = None.
Proof using. pure_context.
  intros Hlen fuel.
  assert (H : forall i, 0 <= i < 2 ^ 32 -> i mod 16 = 0 ->
                print_buffer_from fuel self buf1 len i = None /\
                cmp_buffer_from fuel self buf1 buf2 len i = None).
  { induction fuel as [|fuel IH]; intros i Hi Hm; [split; reflexivity|].
    destruct (row_loop_wraps len i Hlen Hi Hm) as (Hlt & Hr & Hm').
    destruct (IH _ Hr Hm') as (E1 & E2).
    cbn [print_buffer_from cmp_buffer_from].
    replace (i <? len) with true by (symmetry; apply Z.ltb_lt; assumption).
    rewrite E1, E2.
    destruct (cmp_line self i (advance buf1 i) (advance buf2 i)
                (row_len len i)).
    split; reflexivity. }
  apply H; [lia | reflexivity].
Qed.

(** X6: msg_dump prints the length of the message and then its bytes in rows
    of 16; it always returns and changes nothing but the output. *)
Theorem msg_dump_prints_message (self : thread) (m : msg) (g : globals) :
  msg_wf m -> msg_len m <= 2 ^ 32 - 16 ->
  msg_dump self m g
  = Ret tt
      (add_log
         (pr_info self ("Message with " +s+ fmt_u (msg_len m) +s+
                        " bytes of data" +s+ NL)
            :: flat_map (dump_row self (msg_buf m))
                 (seq 0 (row_count (msg_len m)))) g).
Proof.
  intros (Hl & Hb) Hmax. unfold msg_dump, bind, emit.
  rewrite print_buffer_rows by lia.
  rewrite <- Hb, firstn_all. cbn [emit_opt]. unfold emit.
  rewrite add_log_app. reflexivity.
Qed.

(** ** msg_gen with a fixed length *)

(** X7: msg_gen called with a length that is not negative builds a message of
    exactly that length: the generator is not asked for a length, and it is
    asked for one byte per byte of the body, in order. For length 0 the
    message is empty and the generator is left alone. *)
Theorem msg_gen_fixed_length (self : thread) (len : Z) (g : globals) :
  0 <= len < 2 ^ 31 ->
  let xs := fst (next_n (Z.to_nat len) (prng g)) in
  let new := map (fun x => EvDraw self (DrawNext x)) xs in
  msg_gen self len g
  = Ret {| msg_len := len; msg_buf := map byte_of_Z xs |}
      (add_log new (set_prng (snd (next_n (Z.to_nat len) (prng g))) g))
  /\ byte_count (map byte_of_Z xs) = len
  /\ msg_lengths new = []
  /\ Z.of_nat (List.length (draws new)) = len
  /\ (len = 0 -> msg_gen self len g = Ret {| msg_len := 0; msg_buf := [] |} g).
Proof.
  intros Hlen. cbv zeta.
  assert (E : msg_gen self len g
              = Ret {| msg_len := len;
                       msg_buf := map byte_of_Z
                                    (fst (next_n (Z.to_nat len) (prng g))) |}
                  (add_log
                     (map (fun x => EvDraw self (DrawNext x))
                        (fst (next_n (Z.to_nat len) (prng g))))
                     (set_prng (snd (next_n (Z.to_nat len) (prng g))) g))).
  { unfold msg_gen, bind.
    replace (len <? 0) with false by (symmetry; apply Z.ltb_ge; lia).
    unfold ret at 1. rewrite u32_small by lia. rewrite fill_spec.
    reflexivity. }
  split; [exact E|]. split; [|split; [|split]].
  - unfold byte_count. rewrite length_map, next_n_length. lia.
  - apply msg_lengths_nexts.
  - rewrite draws_nexts, length_map, next_n_length. lia.
  - intros ->. rewrite E. cbn [Z.to_nat next_n fst snd map].
    rewrite add_log_nil, set_prng_same. reflexivity.
Qed.

(** ** The speed table *)

(** X8: get_speed_sym and get_speed_val are inverse to each other on the
    entries of the table (taken with the values the Bxxx constants have on
    Linux); a speed that is not in the table gives the symbol that device_open
    reads as -1, and no speed of the table does; a symbol that is not in the
    table gives the value -1. *)
Theorem speed_table_round_trip :
  (forall sym val,
      In (sym, val) speeds ->
      get_speed_sym val = sym /\ get_speed_val sym = val) /\
  (forall val, s32 (get_speed_sym val) = -1 <-> ~ known_speed val) /\
  (forall sym, ~ In sym (map fst speeds) -> get_speed_val sym = -1).
Proof using. pure_context.
  split; [exact speeds_round_trip|]. split; [exact unknown_speed_sym|].
  intros sym H. unfold get_speed_val.
  destruct (find (fun e => fst e =? sym) speeds) as [e|] eqn:F;
    [|reflexivity].
  apply find_some in F. destruct F as (Hin & Hv). apply Z.eqb_eq in Hv.
  exfalso. apply H. rewrite <- Hv. apply in_map. assumption.
Qed.

(** ** device_open *)

(** X9: Whatever the system answers, device_open either returns the descriptor
    that open returned, having printed on stdout only, or prints one error
    line on stderr, tagged with the calling thread, after stdout output only,
    and calls exit(-1); it changes no counter, and in quiet mode a device that
    opens and is configured without error leaves no output at all. *)
Theorem device_open_outcomes (o : options) (self : thread) (e : dev_env)
  (pathname : option string) (flags : Z) (makeraw : bool) (g : globals) :
  match device_open o self e pathname flags makeraw g with
  | Ret fd g' =>
      sys_open e = Ok fd /\
      exists out,
        g' = add_log out g /\ all_stdout out /\
        (opt_verbose o = false ->
         out = [] \/
         (sys_tcgetattr e = Err ENOTTY /\
          out = [pr_info self (fmt_s pathname +s+
                               " is not a tty, skipping tty config" +s+ NL)]))
  | Exit c g' =>
      c = -1 /\
      exists pre text,
        g' = add_log (pre ++ [pr_error self text]) g /\ all_stdout pre /\
        (opt_verbose o = false -> pre = [])
  | Hang _ => False
  | Fault _ => False
  end.
Proof.
  unfold device_open, bind. rewrite pr_debug_out.
  set (d0 := if opt_verbose o then _ else _).
  assert (Hd0 : all_stdout d0) by apply all_stdout_debug.
  assert (Hq0 : opt_verbose o = false -> d0 = [])
    by (intros V; unfold d0; rewrite V; reflexivity).
  clearbody d0. (* only its shape matters from here on *)
  destruct (sys_open e) as [fd | errno]; cbn [on_err]; unfold ret at 1.
  2:{ unfold emit, exit. split; [reflexivity|].
      eexists d0, _. rewrite add_log_app. auto. }
  destruct makeraw; cbn [negb].
  2:{ unfold ret. split; [reflexivity|]. exists d0. auto. }
  destruct (sys_tcgetattr e) as [t | errno] eqn:Htc.
  2:{ destruct (Z.eqb_spec errno ENOTTY) as [->|Hne].
      - unfold bind, emit, ret. rewrite add_log_app.
        split; [reflexivity|]. eexists. split; [reflexivity|].
        split; [apply all_stdout_app; [assumption | reflexivity]|].
        intros V. right. rewrite (Hq0 V). auto.
      - unfold bind, emit, exit. rewrite add_log_app.
        split; [reflexivity|]. eexists d0, _. auto. }
  unfold bind. rewrite !pr_debug_out, !add_log_app.
  match goal with
  | |- context [add_log ?x g] =>
      assert (Hd1 : all_stdout x)
        by (repeat apply all_stdout_app; try assumption;
            apply all_stdout_debug);
      assert (Hq1 : opt_verbose o = false -> x = [])
        by (intros V; rewrite (Hq0 V), V; reflexivity);
      generalize dependent x; intros d1 Hd1 Hq1
  end.
  destruct (sys_tcsetattr_raw e) as [[] | errno]; cbn [on_err];
    unfold ret at 1.
  2:{ unfold emit, exit. rewrite add_log_app.
      split; [reflexivity|]. eexists d1, _. auto. }
  destruct (Z.eqb_spec (opt_speed o) 0) as [Hs|Hs]; cbn [negb].
  - rewrite pr_debug_out, add_log_app.
    match goal with
    | |- context [add_log ?x g] =>
        assert (Hd2 : all_stdout x)
          by (apply all_stdout_app; [assumption | apply all_stdout_debug]);
        assert (Hq2 : opt_verbose o = false -> x = [])
          by (intros V; rewrite (Hq1 V), V; reflexivity);
        generalize dependent x; intros d2 Hd2 Hq2
    end.
    destruct (sys_tcflush e) as [[] | errno]; cbn [on_err]; unfold ret.
    + split; [reflexivity|]. exists d2. auto.
    + unfold emit, exit. rewrite add_log_app.
      split; [reflexivity|]. eexists d2, _. auto.
  - destruct (s32 (get_speed_sym (opt_speed o)) =? -1).
    { unfold emit, exit. rewrite add_log_app.
      split; [reflexivity|]. eexists d1, _. auto. }
    unfold ret at 1.
    destruct (sys_cfsetspeed e) as [t' | errno]; cbn [on_err];
      unfold ret at 1.
    2:{ unfold emit, exit. rewrite add_log_app.
        split; [reflexivity|]. eexists d1, _. auto. }
    destruct (sys_tcsetattr_speed e) as [[] | errno]; cbn [on_err];
      unfold ret at 1.
    2:{ unfold emit, exit. rewrite add_log_app.
        split; [reflexivity|]. eexists d1, _. auto. }
    destruct (sys_tcflush e) as [[] | errno]; cbn [on_err]; unfold ret.
    + split; [reflexivity|]. exists d1. auto.
    + unfold emit, exit. rewrite add_log_app.
      split; [reflexivity|]. eexists d1, _. auto.
Qed.

(** X10: The speed option is looked at on a terminal only. A device that is
    not a terminal is opened whatever speed was asked for; on a terminal a
    speed that is not in the table ends the process with "Unknown serial
    speed", after raw mode has been set; and a terminal on which every call
    succeeds is opened when the speed is 0 (leave it alone) or in the table.
    *)
Theorem device_open_checks_speed (o : options) (self : thread) (e : dev_env)
  (pathname : option string) (flags : Z) (g : globals) (fd : Z) :
  sys_open e = Ok fd ->
  (sys_tcgetattr e = Err ENOTTY ->
   exists out,
     all_stdout out /\
     device_open o self e pathname flags true g = Ret fd (add_log out g))
  /\ (forall t,
         sys_tcgetattr e = Ok t -> sys_tcsetattr_raw e = Ok tt ->
         opt_speed o <> 0 -> ~ known_speed (opt_speed o) ->
         exists pre,
           all_stdout pre /\
           device_open o self e pathname flags true g
           = Exit (-1)
               (add_log
                  (pre ++ [pr_error self ("Unknown serial speed " +s+
                                          fmt_u (opt_speed o) +s+ NL)]) g))
  /\ (forall t t',
         sys_tcgetattr e = Ok t -> sys_tcsetattr_raw e = Ok tt ->
         sys_cfsetspeed e = Ok t' -> sys_tcsetattr_speed e = Ok tt ->
         sys_tcflush e = Ok tt ->
         opt_speed o = 0 \/ known_speed (opt_speed o) ->
         exists out,
           all_stdout out /\
           device_open o self e pathname flags true g
           = Ret fd (add_log out g)).
Proof.
  intros Hopen. split; [|split].
  - intros Htc. unfold device_open, bind. rewrite pr_debug_out, Hopen, Htc.
    cbn [on_err negb]. rewrite Z.eqb_refl. unfold ret at 1, bind, emit, ret.
    rewrite add_log_app. eexists. split; [|reflexivity].
    apply all_stdout_app; [apply all_stdout_debug | reflexivity].
  - intros t Htc Hraw Hs Hunk. apply unknown_speed_sym in Hunk.
    unfold device_open, bind. rewrite pr_debug_out, Hopen, Htc, Hraw.
    cbn [on_err negb]. unfold ret at 1. rewrite !pr_debug_out, !add_log_app.
    unfold ret at 1.
    replace (opt_speed o =? 0) with false
      by (symmetry; apply Z.eqb_neq; assumption).
    cbn [negb]. rewrite Hunk. cbn [Z.eqb Pos.eqb].
    unfold emit, exit. rewrite add_log_app.
    eexists. split; [|reflexivity].
    repeat apply all_stdout_app; apply all_stdout_debug.
  - intros t t' Htc Hraw Hcf Hts Hfl Hs.
    unfold device_open, bind.
    rewrite pr_debug_out, Hopen, Htc, Hraw, Hcf, Hts, Hfl.
    cbn [on_err negb]. unfold ret at 1. rewrite !pr_debug_out, !add_log_app.
    unfold ret at 1.
    destruct (Z.eqb_spec (opt_speed o) 0) as [H0|H0]; cbn [negb].
    + rewrite pr_debug_out, add_log_app. unfold ret.
      eexists. split; [|reflexivity].
      repeat apply all_stdout_app; apply all_stdout_debug.
    + destruct Hs as [Hs|Hs]; [contradiction|].
      destruct (Z.eqb_spec (s32 (get_speed_sym (opt_speed o))) (-1)) as [E|E].
      { apply unknown_speed_sym in E. contradiction. }
      unfold ret. eexists. split; [|reflexivity].
      repeat apply all_stdout_app; apply all_stdout_debug.
Qed.

(** ** The option loop of main *)

Lemma parse_args_app n : forall pre rest o o',
  (List.length pre <= n)%nat ->
  parse_args pre o = Some o' ->
  parse_args (pre ++ rest) o = parse_args rest o'.
Proof.
  induction n as [|n IH]; intros [|a pre] rest o o' Hn;
    cbn [List.length] in Hn; try lia;
    try (cbn [parse_args app]; intros [= <-]; reflexivity).
  cbn [parse_args app].
  destruct (is_opt a "-h" "--help"); [discriminate|].
  destruct (is_opt a "-i" "--seed").
  { destruct pre as [|v pre]; [discriminate|]. cbn [List.length app] in *.
    apply IH. lia. }
  destruct (is_opt a "-l" "--len").
  { destruct pre as [|v pre]; [discriminate|]. cbn [List.length app] in *.
    destruct ((u32 (strtoul v) =? 0) || (MAX_MAX_MSG_LEN <? u32 (strtoul v)));
      [discriminate|].
    apply IH. lia. }
  destruct (String.eqb a "-n").
  { destruct pre as [|v pre]; [discriminate|]. cbn [List.length app] in *.
    apply IH. lia. }
  destruct (is_opt a "-s" "--speed").
  { destruct pre as [|v pre]; [discriminate|]. cbn [List.length app] in *.
    apply IH. lia. }
  destruct (is_opt a "-v" "--verbose"); [apply IH; lia|].
  destruct (opt_txdev o); [destruct (opt_rxdev o); [discriminate|]|];
    apply IH; lia.
Qed.

Lemma parse_args_devices n : forall args o o',
  (List.length args <= n)%nat ->
  (opt_rxdev o <> None -> opt_txdev o <> None) ->
  parse_args args o = Some o' ->
  opt_rxdev o' <> None -> opt_txdev o' <> None.
Proof.
  induction n as [|n IH]; intros [|a rest] o o' Hn Ho;
    cbn [List.length] in Hn; try lia; cbn [parse_args];
    try (intros [= <-]; assumption).
  destruct (is_opt a "-h" "--help"); [discriminate|].
  destruct (is_opt a "-i" "--seed").
  { destruct rest as [|v rest]; [discriminate|]. cbn [List.length] in Hn.
    apply IH; [lia | exact Ho]. }
  destruct (is_opt a "-l" "--len").
  { destruct rest as [|v rest]; [discriminate|]. cbn [List.length] in Hn.
    destruct ((u32 (strtoul v) =? 0) || (MAX_MAX_MSG_LEN <? u32 (strtoul v)));
      [discriminate|].
    apply IH; [lia | exact Ho]. }
  destruct (String.eqb a "-n").
  { destruct rest as [|v rest]; [discriminate|]. cbn [List.length] in Hn.
    apply IH; [lia | exact Ho]. }
  destruct (is_opt a "-s" "--speed").
  { destruct rest as [|v rest]; [discriminate|]. cbn [List.length] in Hn.
    apply IH; [lia | exact Ho]. }
  destruct (is_opt a "-v" "--verbose"); [apply IH; [lia | exact Ho]|].
  destruct (opt_txdev o) eqn:Etx; [destruct (opt_rxdev o) eqn:Erx;
                                   [discriminate|]|];
    apply IH; try lia; cbn [opt_txdev opt_rxdev set_txdev set_rxdev];
    intros _; try rewrite Etx; discriminate.
Qed.

Lemma usage_startup progname :
  usage (A := unit) progname startup = usage_exit progname.
Proof. reflexivity. Qed.

Lemma main_usage progname args now envs :
  parse_args args default_options = None ->
  main progname args now envs = usage_exit progname.
Proof. intros H. unfold main. rewrite H. reflexivity. Qed.

(** X11: The arguments are worked through from left to right: once a prefix of
    the arguments has been accepted, the rest is read with the options the
    prefix has set, whatever the rest is. *)
Theorem parse_args_left_to_right (pre rest : list string) (o o' : options) :
  parse_args pre o = Some o' ->
  parse_args (pre ++ rest) o = parse_args rest o'.
Proof.
  remember (List.length pre) as n eqn:Hn.
  assert (Hle : (List.length pre <= n)%nat) by lia. clear Hn.
  revert pre rest o o' Hle.
  induction n as [|n IH]; intros [|a pre] rest o o' Hle;
    cbn [List.length] in Hle; try lia;
    try (cbn [parse_args app]; intros [= <-]; reflexivity).
  cbn [parse_args app].
  destruct (is_opt a "-h" "--help"); [discriminate|].
  (* an option with a value takes the next argument with it *)
  assert (Hval : forall (set : Z -> options -> options) (ok : Z -> bool),
             match pre with
             | [] => None
             | v :: pre' =>
                 if ok (u32 (strtoul v)) then
                   parse_args pre' (set (u32 (strtoul v)) o)
                 else None
             end = Some o' ->
             match pre ++ rest with
             | [] => None
             | v :: rest' =>
                 if ok (u32 (strtoul v)) then
                   parse_args rest' (set (u32 (strtoul v)) o)
                 else None
             end = parse_args rest o').
  { intros set ok. destruct pre as [|v pre]; [discriminate|].
    cbn [List.length app] in *. destruct (ok (u32 (strtoul v)));
      [|discriminate].
    apply IH. lia. }
  destruct (is_opt a "-i" "--seed"); [exact (Hval set_seed (fun _ => true))|].
  destruct (is_opt a "-l" "--len").
  { pose proof (Hval set_msglen
                  (fun n => negb ((n =? 0) || (MAX_MAX_MSG_LEN <? n)))) as H.
    cbv beta in H.
    destruct pre as [|v pre]; [discriminate|]. cbn [app] in *.
    destruct ((u32 (strtoul v) =? 0) || (MAX_MAX_MSG_LEN <? u32 (strtoul v)));
      [discriminate | exact H]. }
  destruct (String.eqb a "-n"); [exact (Hval set_nmsgs (fun _ => true))|].
  destruct (is_opt a "-s" "--speed");
    [exact (Hval set_speed (fun _ => true))|].
  destruct (is_opt a "-v" "--verbose"); [apply IH; lia|].
  destruct (opt_txdev o); [destruct (opt_rxdev o); [discriminate|]|];
    apply IH; lia.
Qed.

(** X12: When main gets past its check of opt_rxdev, opt_txdev is set as well:
    the first argument that is not an option names the transmit device and the
    second the receive device, so device_open is never handed a null path. *)
Theorem main_devices_set (args : list string) (o : options) (rx : string) :
  parse_args args default_options = Some o ->
  opt_rxdev o = Some rx ->
  exists tx, opt_txdev o = Some tx.
Proof.
  intros Hp Hrx.
  pose proof (parse_args_devices _ args default_options o (le_n _)
                ltac:(intros H; exfalso; apply H; reflexivity) Hp) as H.
  destruct (opt_txdev o) as [tx|]; [exists tx; reflexivity|].
  exfalso. apply H; [rewrite Hrx; discriminate | reflexivity].
Qed.

(** X13: An option that takes a value and stands last, without one, makes main
    print the usage text and exit with code 1. *)
Theorem usage_on_missing_value (progname : string) (pre : list string)
  (a : string) (o : options) (now : Z) (envs : list round_env) :
  parse_args pre default_options = Some o ->
  In a value_options ->
  main progname (pre ++ [a]) now envs = usage_exit progname.
Proof.
  intros Hp Ha. apply main_usage.
  rewrite (parse_args_app _ pre [a] default_options o (le_n _) Hp).
  unfold value_options in Ha. cbn [In] in Ha.
  repeat (destruct Ha as [<- | Ha]; [reflexivity|]). contradiction.
Qed.

(** X14: The length given with -l or --len is taken modulo [2 ^ 32]; a value
    of 0 or above 4096 makes main print the usage text and exit with code 1,
    whatever follows, and any other value becomes the maximum length. *)
Theorem length_option_range (progname : string) (pre rest : list string)
  (a v : string) (o : options) (now : Z) (envs : list round_env) :
  parse_args pre default_options = Some o ->
  a = "-l"%string \/ a = "--len"%string ->
  let n := u32 (strtoul v) in
  (n = 0 \/ MAX_MAX_MSG_LEN < n ->
   main progname (pre ++ a :: v :: rest) now envs = usage_exit progname)
  /\ (1 <= n <= MAX_MAX_MSG_LEN ->
      parse_args (pre ++ a :: v :: rest) default_options
      = parse_args rest (set_msglen n o)).
Proof.
  intros Hp Ha. cbv zeta.
  assert (E : parse_args (a :: v :: rest) o
              = if (u32 (strtoul v) =? 0)
                   || (MAX_MAX_MSG_LEN <? u32 (strtoul v))
                then None
                else parse_args rest (set_msglen (u32 (strtoul v)) o)).
  { destruct Ha as [-> | ->]; reflexivity. }
  rewrite (parse_args_app _ pre _ default_options o (le_n _) Hp), E.
  split.
  - intros Hn. apply main_usage.
    rewrite (parse_args_app _ pre _ default_options o (le_n _) Hp), E.
    replace ((u32 (strtoul v) =? 0) || (MAX_MAX_MSG_LEN <? u32 (strtoul v)))
      with true; [reflexivity|].
    symmetry. apply orb_true_iff.
    destruct Hn as [Hn|Hn]; [left; apply Z.eqb_eq | right; apply Z.ltb_lt];
      assumption.
  - intros Hn.
    replace ((u32 (strtoul v) =? 0) || (MAX_MAX_MSG_LEN <? u32 (strtoul v)))
      with false; [reflexivity|].
    symmetry. apply orb_false_iff.
    split; [apply Z.eqb_neq | apply Z.ltb_ge]; lia.
Qed.

Lemma not_option a :
  ~ In a option_strings ->
  is_opt a "-h" "--help" = false /\ is_opt a "-i" "--seed" = false /\
  is_opt a "-l" "--len" = false /\ String.eqb a "-n" = false /\
  is_opt a "-s" "--speed" = false /\ is_opt a "-v" "--verbose" = false.
Proof using. pure_context.
  intros H. unfold is_opt.
  assert (F : forall s, In s option_strings -> String.eqb a s = false).
  { intros s Hs. apply String.eqb_neq. intros ->. contradiction. }
  rewrite !F by (unfold option_strings, value_options; cbn; tauto).
  repeat split; reflexivity.
Qed.

(** X15: -h or --help where an option may stand, and an argument that is not
    an option once both devices have been named, make main print the usage
    text and exit with code 1, whatever follows. *)
Theorem usage_on_help_or_extra_argument (progname : string)
  (pre rest : list string) (a : string) (o : options) (now : Z)
  (envs : list round_env) :
  parse_args pre default_options = Some o ->
  a = "-h"%string \/ a = "--help"%string
  \/ (opt_rxdev o <> None /\ ~ In a option_strings) ->
  main progname (pre ++ a :: rest) now envs = usage_exit progname.
Proof.
  intros Hp Ha. apply main_usage.
  rewrite (parse_args_app _ pre _ default_options o (le_n _) Hp).
  destruct Ha as [-> | [-> | (Hrx & Hno)]]; try reflexivity.
  pose proof (parse_args_devices _ pre default_options o (le_n _)
                ltac:(intros H; exfalso; apply H; reflexivity) Hp Hrx) as Htx.
  apply not_option in Hno.
  destruct Hno as (H1 & H2 & H3 & H4 & H5 & H6).
  cbn [parse_args]. rewrite H1, H2, H3, H4, H5, H6.
  destruct (opt_txdev o); [|contradiction].
  destruct (opt_rxdev o); [reflexivity | contradiction].
Qed.

(** ** main: exit codes and the last line *)

Lemma main_run_outcome o now envs :
  opts_ok o ->
  match main_run o now envs startup with
  | Exit c g' =>
      (c = 0 \/ c = -1) /\
      (c = 0 ->
       exists pre,
         log g' = pre ++ print_stats MainThread (opt_nmsgs o)
                           (sum (msg_lengths pre)) (sum (trunc_lengths pre))
         /\ existsb fatal_event pre = false
         /\ Z.of_nat (List.length (msg_lengths pre)) = opt_nmsgs o)
  | Ret _ _ => False
  | Hang _ => True
  | Fault _ => False
  end.
Proof.
  intros (HN & Hn). rewrite main_run_unfold.
  pose proof (main_loop_spec o envs (loop_entry o now) (wf_loop_entry o now)
                HN Hn) as H.
  cbv zeta in H. destruct H as (_ & new & k & Hl & _ & _ & H).
  change (log (loop_entry o now)) with (@nil event) in Hl. cbn [app] in Hl.
  change (msgs (loop_entry o now)) with 0 in H.
  change (tx_bytes (loop_entry o now)) with 0 in H.
  change (rx_bytes (loop_entry o now)) with 0 in H.
  destruct (main_loop o envs (loop_entry o now)) as [[] g1 | c g1 | g1 | g1];
    cbn [final log add_log] in *; try contradiction; try exact I.
  - destruct H as (_ & Hf & Hpos & Hm & Htx & Hrx & _ & Hk1 & Hk2 & Hall1
                   & Hall2).
    specialize (Hm ltac:(lia)). destruct Hm as (Hm & Hk).
    split; [left; reflexivity|]. intros _. exists new.
    assert (Hbound : forall l,
               Forall (fun x => 1 <= x <= opt_msglen o) l ->
               0 <= sum l <= opt_msglen o * Z.of_nat (List.length l)).
    { induction l as [|x l IHl]; intros Hf'; cbn [sum fold_right List.length].
      - lia.
      - inversion Hf'; subst. specialize (IHl H2). unfold sum in IHl. nia. }
    pose proof (Hbound _ Hall1) as B1. pose proof (Hbound _ Hall2) as B2.
    rewrite Hk1 in B1. rewrite Hk2 in B2.
    assert (Hsmall : opt_msglen o * Z.of_nat k < 2 ^ 64).
    { unfold MAX_MAX_MSG_LEN in HN. nia. }
    rewrite Z.add_0_l in Htx, Hrx. rewrite u64_small in Htx, Hrx by lia.
    rewrite Hl, Hm, Htx, Hrx, Hk1.
    split; [reflexivity|]. split; [assumption | lia].
  - destruct H as (-> & _). split; [right; reflexivity | discriminate].
Qed.

(** X16: Exit code 1 is the code of usage() and of nothing else: main exits
    with it exactly when the arguments are refused or no receive device is
    named, and then the usage text on stderr is all that has happened: no
    device was opened and the generator was not seeded. *)
Theorem exit_code_one_is_usage (progname : string) (args : list string)
  (now : Z) (envs : list round_env) :
  (main progname args now envs = usage_exit progname <->
   parse_args args default_options = None \/
   exists o, parse_args args default_options = Some o /\ opt_rxdev o = None)
  /\ (forall g', main progname args now envs = Exit 1 g' ->
                 main progname args now envs = usage_exit progname).
Proof.
  unfold main.
  destruct (parse_args args default_options) as [o|] eqn:Hparse.
  2:{ rewrite usage_startup. split; [split; auto | auto]. }
  destruct (opt_rxdev o) as [dev|] eqn:Hdev.
  2:{ rewrite usage_startup. split; [split; eauto | auto]. }
  pose proof (parse_args_ok _ args default_options o (le_n _)
                opts_ok_default Hparse) as Hok.
  pose proof (main_run_outcome o now envs Hok) as H.
  destruct (main_run o now envs startup) as [[] g1 | c g1 | g1 | g1];
    try contradiction.
  - destruct H as (Hc & _). split; [split|].
    + unfold usage_exit. intros [= -> _]. lia.
    + intros [Hn | (o' & [= <-] & Hn)]; [discriminate | congruence].
    + intros g' [= -> _]. lia.
  - split; [split|]; try discriminate.
    intros [Hn | (o' & [= <-] & Hn)]; [discriminate | congruence].
Qed.


(** ** An interrupt *)

(** X18: A round in which the operator interrupts the program ends the
    process with exit(-1) and does not complete, at whatever moment of the
    round the interrupt arrives; [msgs] is still the number of rounds
    completed before.  When the interrupt arrives while no worker exists,
    the statistics line of the handler is the last output of the process
    and shows the counters the round started with: before the message is
    built, nothing else has happened and the generator is untouched; once
    the message is built and before the workers are started, only the
    draws of the message come before it. *)
Theorem interrupt_ends_round (o : options) (e : round_env) (g : globals)
  (s : sigint) :
  wf g -> 1 <= opt_msglen o <= MAX_MAX_MSG_LEN ->
  r_sigint e = Some s ->
  exists g',
    round o e g = Exit (-1) g' /\ msgs g' = msgs g /\
    (s = SigBuild ->
     g' = add_log [EvSignal MainThread;
                   EvOut Stdout
                     (statistics_text MainThread (msgs g) (tx_bytes g)
                        (rx_bytes g))] g) /\
    (s = SigSpawn ->
     exists gen,
       all_draw gen /\
       draws gen
       = firstn (List.length gen) (fst (round_draws (opt_msglen o) (prng g)))
       /\
       log g'
       = log g ++ gen
         ++ [EvSignal MainThread;
             EvOut Stdout
               (statistics_text MainThread (msgs g) (tx_bytes g)
                  (rx_bytes g))] /\
       tx_bytes g' = tx_bytes g /\ rx_bytes g' = rx_bytes g).
Proof.
  intros Hwf HN Hsig.
  destruct s as [| | on].
  - unfold round. rewrite Hsig, signal_handler_spec, print_stats_text.
    eexists. split; [reflexivity|]. split; [reflexivity|].
    split; [reflexivity | discriminate].
  - assert (HN' : 1 <= opt_msglen o < 2 ^ 31)
      by (unfold MAX_MAX_MSG_LEN in HN; lia).
    destruct (msg_gen_spec MainThread (opt_msglen o) g HN') as (Hlen & Egen).
    cbv zeta in Egen. rewrite <- (neg_msglen _ HN') in Egen.
    unfold round. rewrite Hsig. unfold bind.
    rewrite Egen, signal_handler_spec, print_stats_text.
    eexists. split; [reflexivity|].
    cbn [msgs add_log set_prng tx_bytes rx_bytes log].
    split; [reflexivity|]. split; [discriminate|]. intros _.
    eexists. split; [|split; [|split; [rewrite <- app_assoc; reflexivity|]]].
    + apply (all_draw_nexts MainThread).
    + unfold round_draws.
      destruct (brahe_prng_range (prng g) 1 (opt_msglen o)) as [len s1].
      cbn [fst snd].
      destruct (next_n (Z.to_nat len) s1) as [xs s2]. cbn [fst snd].
      destruct (brahe_prng_range s2 1 len) as [trunc s3]. cbn [fst snd].
      match goal with
      | |- draws (?x :: ?l) = _ =>
          change (draws (x :: l)) with (draws [x] ++ draws l)
      end.
      rewrite (draws_nexts MainThread).
      cbn [draws flat_map app List.length firstn]. f_equal.
      rewrite length_map, <- (length_map (fun x => (MainThread, DrawNext x))).
      rewrite firstn_app, firstn_all, Nat.sub_diag. cbn [firstn].
      rewrite app_nil_r. reflexivity.
    + split; reflexivity.
  - destruct (round_open o e g Hwf HN)
      as (g1 & Hwf1 & Hm & Hlen & _ & Hmg & E).
    rewrite E, Hsig.
    destruct (join_workers_interrupt o e _ g1 on Hwf1 Hm Hlen Hsig)
      as (g' & E').
    exists g'. split; [exact E'|].
    split; [|split; discriminate].
    pose proof (workers_spec o e _ g1 Hwf1 Hm Hlen) as H. cbv zeta in H.
    destruct H as (_ & _ & Hm2 & _).
    unfold join_workers in E'. rewrite Hsig in E'.
    destruct (workers o e (fst (round_message (opt_msglen o) (prng g))) g1)
      as [[] g2 | c g2 | g2 | g2]; cbn [final] in Hm2.
    + rewrite signal_handler_spec in E'. injection E' as <-.
      cbn [msgs add_log]. congruence.
    + injection E' as _ <-. congruence.
    + rewrite signal_handler_spec in E'. injection E' as <-.
      cbn [msgs add_log]. congruence.
    + discriminate.
Qed.

(** ** The byte counters and the transfers *)

Lemma bytes_written_app a b :
  bytes_written (a ++ b) = bytes_written a + bytes_written b.
Proof using. pure_context.
  unfold bytes_written. rewrite flat_map_app. apply sum_app.
Qed.

Lemma bytes_written_one count res :
  bytes_written [EvWrite count res] = Z.max res 0.
Proof using. pure_context.
  unfold bytes_written. cbn [flat_map app sum fold_right]. lia.
Qed.

Lemma bytes_read_one off count res :
  bytes_read [EvRead off count res] = Z.max res 0.
Proof using. pure_context.
  unfold bytes_read. cbn [flat_map app sum fold_right]. lia.
Qed.

Lemma quiet_app a b : quiet a -> quiet b -> quiet (a ++ b).
Proof using. pure_context.
  intros (A1 & A2) (B1 & B2). unfold quiet.
  rewrite bytes_written_app, bytes_read_app. lia.
Qed.

Lemma quiet_out tr : all_out tr -> quiet tr.
Proof using. pure_context.
  intros H. split; [|apply out_bytes_read; assumption].
  unfold all_out in H. induction tr as [|ev tr IH]; [reflexivity|].
  cbn [forallb] in H. apply andb_true_iff in H. destruct H as (H1 & H2).
  destruct ev; try discriminate. apply IH. assumption.
Qed.

Lemma quiet_draw tr : all_draw tr -> quiet tr.
Proof using. pure_context.
  intros H. split; [|apply draw_bytes_read; assumption].
  unfold all_draw in H. induction tr as [|ev tr IH]; [reflexivity|].
  cbn [forallb] in H. apply andb_true_iff in H. destruct H as (H1 & H2).
  destruct ev; try discriminate. apply IH. assumption.
Qed.

Lemma counters_add_log evs g :
  quiet evs -> counters_match g -> counters_match (add_log evs g).
Proof.
  intros (Q1 & Q2) (H1 & H2). unfold counters_match.
  cbn [log add_log tx_bytes rx_bytes].
  rewrite bytes_written_app, bytes_read_app, Q1, Q2, !Z.add_0_r. auto.
Qed.

Lemma keeps_ret {A} (a : A) : keeps counters_match (ret a).
Proof. intros g H. exact H. Qed.

Lemma keeps_exit {A} c : keeps counters_match (exit (A := A) c).
Proof. intros g H. exact H. Qed.

Lemma keeps_hang {A} : keeps counters_match (hang (A := A)).
Proof. intros g H. exact H. Qed.

Lemma keeps_get {A} (f : globals -> A) : keeps counters_match (get f).
Proof. intros g H. exact H. Qed.

Lemma keeps_emit evs : quiet evs -> keeps counters_match (emit evs).
Proof. intros Q g H. apply counters_add_log; assumption. Qed.

(** Sequencing, where the second call may rely on a property of what the
    first returns. *)
Lemma keeps_bind_ret {A B} (Q : A -> Prop) (m : M A) (k : A -> M B) :
  keeps counters_match m ->
  (forall g a g', m g = Ret a g' -> Q a) ->
  (forall a, Q a -> keeps counters_match (k a)) ->
  keeps counters_match (bind m k).
Proof.
  intros Hm HQ Hk g Hg. unfold bind. specialize (Hm g Hg).
  destruct (m g) as [a g1 | c g1 | g1 | g1] eqn:E; cbn [final] in *;
    try assumption.
  apply (Hk a); [eapply HQ; eassumption | assumption].
Qed.

Lemma keeps_bind {A B} (m : M A) (k : A -> M B) :
  keeps counters_match m -> (forall a, keeps counters_match (k a)) ->
  keeps counters_match (bind m k).
Proof.
  intros Hm Hk. apply (keeps_bind_ret (fun _ => True)); auto.
Qed.

Lemma keeps_out_only {A} (m : M A) : out_only m -> keeps counters_match m.
Proof.
  intros Ho g Hg.
  destruct (Ho g) as [(a & out & E & H) | (pre & text & E & H)]; rewrite E;
    cbn [final]; apply counters_add_log; try assumption; apply quiet_out.
  - apply stdout_all_out. exact H.
  - apply all_out_app; [apply stdout_all_out; exact H | reflexivity].
Qed.

Lemma keeps_msg_dump self m : keeps counters_match (msg_dump self m).
Proof.
  intros g Hg.
  destruct (msg_dump_cases self m g) as (out & Ho & [E | E]); rewrite E;
    cbn [final]; apply counters_add_log; try assumption;
    apply quiet_out, stdout_all_out, Ho.
Qed.

Lemma keeps_signal_handler {A} self :
  keeps counters_match (signal_handler (A := A) self).
Proof.
  intros g Hg. rewrite signal_handler_spec. cbn [final].
  apply counters_add_log; [|assumption]. split; reflexivity.
Qed.

Lemma counters_set_prng s g :
  counters_match g -> counters_match (set_prng s g).
Proof. intros H. exact H. Qed.

Lemma counters_set_msgs n g :
  counters_match g -> counters_match (set_msgs n g).
Proof. intros H. exact H. Qed.

Lemma keeps_prng_next self : keeps counters_match (prng_next self).
Proof.
  intros g Hg. unfold prng_next. destruct (brahe_prng_next (prng g)).
  cbn [final]. apply counters_add_log; [split; reflexivity | exact Hg].
Qed.

Lemma keeps_prng_range self lo hi :
  keeps counters_match (prng_range self lo hi).
Proof.
  intros g Hg. unfold prng_range. destruct (brahe_prng_range _ _ _).
  cbn [final]. apply counters_add_log; [split; reflexivity | exact Hg].
Qed.

Lemma keeps_fill self n : keeps counters_match (fill self n).
Proof.
  induction n as [|n IH]; cbn [fill]; [apply keeps_ret|].
  apply keeps_bind; [apply keeps_prng_next | intros x].
  apply keeps_bind; [exact IH | intros rest; apply keeps_ret].
Qed.

Lemma keeps_msg_gen self len : keeps counters_match (msg_gen self len).
Proof.
  unfold msg_gen. apply keeps_bind.
  - destruct (len <? 0); [|apply keeps_ret].
    apply keeps_bind; [apply keeps_prng_range | intros; apply keeps_ret].
  - intros len'. apply keeps_bind; [apply keeps_fill | intros; apply keeps_ret].
Qed.

Lemma msg_gen_length self len g m g' :
  msg_gen self len g = Ret m g' -> 0 <= msg_len m.
Proof.
  unfold msg_gen, bind. intros E.
  assert (H : exists l, msg_len m = u32 l).
  { destruct (len <? 0).
    - unfold bind, prng_range in E.
      destruct (brahe_prng_range _ _ _) as [x s]. unfold ret at 1 in E.
      rewrite fill_spec in E. unfold ret in E. injection E as <- _.
      eexists. reflexivity.
    - unfold ret at 1 in E. rewrite fill_spec in E. unfold ret in E.
      injection E as <- _. eexists. reflexivity. }
  destruct H as (l & ->). unfold u32. apply Z.mod_pos_bound. lia.
Qed.

Lemma keeps_transmit_start o e m :
  0 <= msg_len m -> keeps counters_match (transmit_start o e m).
Proof.
  intros Hlen. unfold transmit_start.
  apply keeps_bind; [apply keeps_out_only, out_only_device_open | intros _].
  apply keeps_bind.
  { destruct (opt_verbose o); [apply keeps_msg_dump | apply keeps_ret]. }
  intros _. destruct (tx_writes e) as [|[errno | n] ws].
  - apply keeps_hang.
  - apply keeps_bind; [apply keeps_emit; split; reflexivity | intros _].
    apply keeps_bind; [apply keeps_emit; split; reflexivity | intros _].
    apply keeps_exit.
  - intros g (H1 & H2). unfold bind, emit, modify.
    set (res := Z.min (Z.of_N n) (msg_len m)).
    assert (Hres : 0 <= res) by (unfold res; lia).
    assert (Hcm : counters_match
                    (set_tx_bytes
                       (u64 (tx_bytes (add_log [EvWrite (msg_len m) res] g)
                             + res))
                       (add_log [EvWrite (msg_len m) res] g))).
    { split; cbn [tx_bytes rx_bytes log add_log set_tx_bytes].
      - rewrite bytes_written_app, H1, u64_add_l, bytes_written_one.
        f_equal. lia.
      - rewrite bytes_read_app, H2.
        replace (bytes_read [EvWrite (msg_len m) res]) with 0
          by reflexivity.
        rewrite Z.add_0_r. reflexivity. }
    destruct (res <? msg_len m); cbn [final].
    + apply counters_add_log; [split; reflexivity | exact Hcm].
    + exact Hcm.
Qed.

Lemma keeps_rx_loop reads : forall len avail,
  keeps counters_match (rx_loop reads len avail).
Proof.
  induction reads as [|a reads IH]; intros len avail g Hg; cbn [rx_loop];
    destruct (avail <? len); try exact Hg.
  destruct (MAX_MAX_MSG_LEN <? avail + (len - avail)); [exact Hg|].
  destruct a as [errno | data].
  - unfold bind, emit, exit. cbn [final]. rewrite add_log_app.
    apply counters_add_log; [split; reflexivity | exact Hg].
  - unfold bind, emit, modify. apply IH.
    set (got := firstn (Z.to_nat (len - avail)) data).
    assert (Hres : 0 <= byte_count got) by (unfold byte_count; lia).
    destruct Hg as (H1 & H2).
    split; cbn [tx_bytes rx_bytes log add_log set_rx_bytes set_rx_buf].
    + rewrite bytes_written_app, H1.
      replace (bytes_written [EvRead avail (len - avail) (byte_count got)])
        with 0 by reflexivity.
      rewrite Z.add_0_r. reflexivity.
    + rewrite bytes_read_app, H2, u64_add_l, bytes_read_one.
      f_equal. lia.
Qed.

Lemma keeps_emit_opt (o : option trace) :
  (forall evs, o = Some evs -> quiet evs) ->
  keeps counters_match (emit_opt o).
Proof.
  intros H. destruct o as [evs|]; [|apply keeps_hang].
  apply keeps_emit, H. reflexivity.
Qed.

Lemma keeps_receive_start o e m :
  keeps counters_match (receive_start o e m).
Proof.
  unfold receive_start.
  apply keeps_bind; [apply keeps_out_only, out_only_device_open | intros _].
  apply keeps_bind; [apply keeps_prng_range | intros len].
  apply keeps_bind; [apply keeps_out_only, out_only_pr_debug | intros _].
  apply keeps_bind; [apply keeps_rx_loop | intros _].
  apply keeps_bind; [apply keeps_get | intros buf].
  destruct (_ || _); [intros g Hg; exact Hg|].
  destruct (negb _).
  - apply keeps_bind; [apply keeps_emit; split; reflexivity | intros _].
    apply keeps_bind.
    { apply keeps_emit_opt. intros evs E.
      apply quiet_out, stdout_all_out.
      eapply all_stdout_cmp_buffer. exact E. }
    intros _. apply keeps_bind; [apply keeps_get | intros g0].
    apply keeps_bind; [apply keeps_emit; split; reflexivity | intros _].
    apply keeps_exit.
  - apply keeps_bind; [apply keeps_out_only, out_only_pr_debug | intros _].
    apply keeps_ret.
Qed.

Lemma keeps_both w1 w2 :
  keeps counters_match w1 -> keeps counters_match w2 ->
  keeps counters_match (both w1 w2).
Proof.
  intros H1 H2 g Hg. unfold both. specialize (H1 g Hg).
  destruct (w1 g) as [[] g1 | c g1 | g1 | g1]; cbn [final] in *;
    try assumption.
  - apply H2. assumption.
  - specialize (H2 g1 H1).
    destruct (w2 g1) as [[] g2 | c g2 | g2 | g2]; cbn [final] in *;
      assumption.
Qed.

Lemma keeps_round o e : keeps counters_match (round o e).
Proof.
  unfold round.
  assert (Hrest : keeps counters_match
                    (m <- msg_gen MainThread (s32 (u32 (- opt_msglen o))) ;;
                     match r_sigint e with
                     | Some SigSpawn => signal_handler MainThread
                     | _ => join_workers o e m
                     end)).
  { apply (keeps_bind_ret (fun m => 0 <= msg_len m));
      [apply keeps_msg_gen | intros g m g'; apply msg_gen_length |].
    intros m Hm.
    assert (Hw : keeps counters_match (workers o e m)).
    { unfold workers.
      destruct (r_order e); apply keeps_both;
        (apply keeps_receive_start || apply keeps_transmit_start; exact Hm). }
    assert (Hj : keeps counters_match (join_workers o e m)).
    { intros g Hg. unfold join_workers. specialize (Hw g Hg).
      destruct (r_sigint e) as [[| | on]|];
        destruct (workers o e m g) as [[] g1 | c g1 | g1 | g1];
        cbn [final] in *; try assumption;
        apply keeps_signal_handler; assumption. }
    destruct (r_sigint e) as [[| | on]|]; try exact Hj.
    apply keeps_signal_handler. }
  destruct (r_sigint e) as [[| | on]|]; try exact Hrest.
  apply keeps_signal_handler.
Qed.

Lemma keeps_main_loop o envs : keeps counters_match (main_loop o envs).
Proof.
  induction envs as [|e envs IH]; intros g Hg.
  - rewrite main_loop_nil. destruct (_ || _); exact Hg.
  - rewrite main_loop_cons. destruct (_ || _); [|exact Hg].
    pose proof (keeps_round o e g Hg) as Hr.
    destruct (round o e g) as [[] g1 | c g1 | g1 | g1]; cbn [final] in *;
      try assumption.
    apply IH. exact Hr.
Qed.

(** X19: When the process ends with exit(0), after its last round, or with
    exit(1), from usage(), [tx_bytes] is the number of bytes the writes have
    taken and [rx_bytes] the number of bytes the reads have delivered,
    modulo [2 ^ 64].  At these exits every worker that was started has
    returned, and each of them has added to its counter what each of its
    transfers moved. *)
Theorem counters_match_transfers (progname : string) (args : list string)
  (now : Z) (envs : list round_env) (c : Z) (g' : globals) :
  main progname args now envs = Exit c g' -> c <> -1 ->
  counters_match g'.
Proof.
  intros E Hc.
  assert (H0 : counters_match startup) by (split; reflexivity).
  unfold main in E.
  destruct (parse_args args default_options) as [o|].
  2:{ unfold usage, bind, emit, exit in E. injection E as _ <-.
      apply counters_add_log; [split; reflexivity | exact H0]. }
  destruct (opt_rxdev o).
  2:{ unfold usage, bind, emit, exit in E. injection E as _ <-.
      apply counters_add_log; [split; reflexivity | exact H0]. }
  rewrite main_run_unfold in E.
  pose proof (keeps_main_loop o envs (loop_entry o now) H0) as H.
  destruct (main_loop o envs (loop_entry o now)) as [[] g1 | c1 g1 | g1 | g1];
    cbn [final] in *; try discriminate.
  - injection E as _ <-.
    apply counters_add_log; [split; reflexivity | exact H].
  - injection E as <- <-. exact H.
Qed.

(** ** The receive loop at end of file *)

Lemma reads_app a b : reads (a ++ b) = reads a ++ reads b.
Proof using. pure_context. unfold reads. apply flat_map_app. Qed.

Lemma reads_out tr : all_out tr -> reads tr = [].
Proof using. pure_context.
  unfold all_out. induction tr as [|ev tr IH]; intros H; [reflexivity|].
  cbn [forallb] in H. apply andb_true_iff in H. destruct H as (H1 & H2).
  destruct ev; try discriminate. cbn. apply IH. assumption.
Qed.

Lemma reads_repeat off count res n :
  reads (repeat (EvRead off count res) n) = repeat (off, count, res) n.
Proof using. pure_context.
  induction n as [|n IH]; [reflexivity|]. cbn [repeat].
  change (EvRead off count res :: repeat (EvRead off count res) n)
    with ([EvRead off count res] ++ repeat (EvRead off count res) n).
  rewrite reads_app, IH. reflexivity.
Qed.

Lemma rx_loop_eof n : forall len g,
  wf g -> 0 < len <= MAX_MAX_MSG_LEN ->
  rx_loop (repeat (RdData []) n) len 0 g
  = Hang (add_log (repeat (EvRead 0 len 0) n) g).
Proof.
  induction n as [|n IH]; intros len g Hwf Hlen; cbn [repeat rx_loop];
    replace (0 <? len) with true by (symmetry; apply Z.ltb_lt; lia).
  - unfold hang. rewrite add_log_nil. reflexivity.
  - rewrite Z.sub_0_r, Z.add_0_l.
    replace (MAX_MAX_MSG_LEN <? len) with false
      by (symmetry; apply Z.ltb_ge; lia).
    rewrite firstn_nil. unfold bind, emit, modify.
    change (byte_count []) with 0. change (u32 (0 + 0)) with 0.
    assert (E : set_rx_bytes
                  (u64 (rx_bytes (set_rx_buf
                                    (store (rx_buf (add_log [EvRead 0 len 0] g))
                                       0 [])
                                    (add_log [EvRead 0 len 0] g)) + 0))
                  (set_rx_buf (store (rx_buf (add_log [EvRead 0 len 0] g)) 0 [])
                     (add_log [EvRead 0 len 0] g))
                = add_log [EvRead 0 len 0] g).
    { rewrite store_nil. destruct Hwf as (Hrx & _).
      destruct g as [p rx tx ms buf l].
      cbn [rx_bytes rx_buf add_log set_rx_buf set_rx_bytes log prng tx_bytes
             msgs] in *.
      rewrite Z.add_0_r, u64_small by assumption. reflexivity. }
    rewrite E, IH, add_log_app; [reflexivity | | assumption].
    destruct Hwf as (H1 & H2 & H3 & H4). unfold wf. cbn. auto.
Qed.

(** X20: End of file is not an error for the receiver: while the device
    answers every read with 0 bytes, receive_start repeats the same request
    (offset 0, the whole prefix) and neither returns nor exits; [rx_bytes] and
    the buffer stay as they were. *)
Theorem receive_spins_at_end_of_file (o : options) (e : rx_env) (m : msg)
  (g g1 : globals) (fd : Z) (n : nat) :
  wf g -> msg_wf m -> 1 <= msg_len m <= MAX_MAX_MSG_LEN ->
  device_open o RxThread (rx_dev e) (opt_rxdev o) O_RDONLY true g
  = Ret fd g1 ->
  rx_reads e = repeat (RdData []) n ->
  let trunc := fst (brahe_prng_range (prng g) 1 (msg_len m)) in
  exists g',
    receive_start o e m g = Hang g' /\
    rx_bytes g' = rx_bytes g /\ rx_buf g' = rx_buf g /\
    reads (log g') = reads (log g) ++ repeat (0, trunc, 0) n.
Proof.
  intros Hwf Hmw Hml Hopen Hreads. cbv zeta.
  destruct (device_open_ret _ _ _ _ _ _ _ _ _ Hopen) as (out & Hout & ->).
  pose proof (range_ok (prng g) 1 (msg_len m) ltac:(lia)
                ltac:(unfold MAX_MAX_MSG_LEN in Hml; lia)) as Hr.
  rewrite receive_start_unfold. unfold bind at 1. rewrite Hopen.
  unfold bind at 1, prng_range. cbn [prng add_log].
  rewrite !u32_small by (unfold MAX_MAX_MSG_LEN in Hml; lia).
  destruct (brahe_prng_range (prng g) 1 (msg_len m)) as [trunc s'].
  cbn [fst] in *.
  unfold bind at 1. rewrite pr_debug_out.
  unfold bind. rewrite Hreads, rx_loop_eof.
  - eexists. split; [reflexivity|].
    cbn [rx_bytes rx_buf log add_log set_prng].
    split; [reflexivity|]. split; [reflexivity|].
    rewrite <- !app_assoc, !reads_app, reads_repeat.
    rewrite (reads_out out) by (apply stdout_all_out; assumption).
    rewrite (reads_out (if opt_verbose o then _ else _))
      by (destruct (opt_verbose o); reflexivity).
    reflexivity.
  - destruct Hwf as (H1 & H2 & H3 & H4). unfold wf. cbn. auto.
  - lia.
Qed.

(** ** The report of a mismatch *)

Lemma sum_pos_exists (l : list Z) :
  (forall x, In x l -> 0 <= x) -> 0 < sum l -> exists x, In x l /\ 0 < x.
Proof using. pure_context.
  induction l as [|a l IH]; intros Hnn Hpos; cbn [sum fold_right] in Hpos;
    [lia|].
  destruct (Z.lt_ge_cases 0 a) as [Ha|Ha].
  - exists a. split; [left; reflexivity | assumption].
  - assert (a = 0) by (specialize (Hnn a (or_introl eq_refl)); lia). subst a.
    destruct IH as (x & Hx & Hx0).
    + intros x Hx. apply Hnn. right. assumption.
    + unfold sum. lia.
    + exists x. split; [right; assumption | assumption].
Qed.

(** X21: When memcmp finds the received bytes to differ from the message, the
    diff that cmp_buffer prints has a row with a flagged byte, and right
    after that row come the line "Expected:" and the row of the message,
    unflagged. *)
Theorem mismatch_report_shows_expected (self : thread)
  (buf1 buf2 : list byte) (len : Z) :
  0 <= len <= 2 ^ 32 - 16 ->
  (Z.to_nat len <= List.length buf1)%nat ->
  (Z.to_nat len <= List.length buf2)%nat ->
  memcmp buf1 buf2 (Z.to_nat len) <> 0 ->
  exists out k before after,
    let r1 := row k (firstn (Z.to_nat len) buf1) in
    let r2 := row k (firstn (Z.to_nat len) buf2) in
    cmp_buffer self buf1 buf2 len = Some out /\
    (k < row_count len)%nat /\
    0 < snd (cmp_line self (row_offset k) r1 r2 (byte_count r1)) /\
    out = before
          ++ fst (cmp_line self (row_offset k) r1 r2 (byte_count r1))
          ++ pr_info self ("Expected:" +s+ NL)
          :: print_line self (row_offset k) r2 (byte_count r2)
          ++ after /\
    text_of out
    = text_of before +s+ row_text self (row_offset k) r1 r2 +s+
      expected_text self (row_offset k) r2 +s+ text_of after /\
    In (pr_info self ("Expected:" +s+ NL)) out.
Proof using. pure_context.
  intros Hlen H1 H2 Hne. cbv zeta.
  set (p1 := firstn (Z.to_nat len) buf1).
  set (p2 := firstn (Z.to_nat len) buf2).
  assert (Hl : List.length p1 = List.length p2)
    by (unfold p1, p2; rewrite !length_firstn; lia).
  assert (Hd : 0 < diff_count p1 p2).
  { pose proof (diff_count_nonneg p1 p2).
    assert (diff_count p1 p2 <> 0); [|lia].
    intros Hz. apply Hne. apply memcmp_zero_iff; [assumption..|].
    apply diff_count_zero_iff; assumption. }
  pose proof (row_count_bounds len ltac:(lia)) as Hrc.
  rewrite <- (sum_row_counts (row_count len)) in Hd;
    [| assumption | unfold p1; rewrite length_firstn; lia].
  apply sum_pos_exists in Hd.
  2:{ intros x Hx. apply in_map_iff in Hx. destruct Hx as (k & <- & _).
      apply diff_count_nonneg. }
  destruct Hd as (x & Hx & Hpos). apply in_map_iff in Hx.
  destruct Hx as (k & <- & Hk). apply in_seq in Hk.
  unfold cmp_buffer.
  rewrite (cmp_buffer_rows_spec self buf1 buf2 len) by (assumption || lia).
  cbn [option_map fst]. fold p1 p2.
  assert (Hrow : List.length (row k p1) = List.length (row k p2))
    by (apply length_rows; assumption).
  assert (Hseq : seq 0 (row_count len)
                 = seq 0 k ++ k :: seq (S k) (row_count len - S k)).
  { replace (row_count len) with (k + S (row_count len - S k))%nat at 1
      by lia.
    rewrite seq_app. reflexivity. }
  assert (Hrender : render_row self p1 p2 k
                    = fst (cmp_line self (row_offset k) (row k p1) (row k p2)
                             (byte_count (row k p1)))
                      ++ pr_info self ("Expected:" +s+ NL)
                      :: print_line self (row_offset k) (row k p2)
                           (byte_count (row k p2))).
  { unfold render_row.
    replace (0 <? diff_count (row k p1) (row k p2)) with true
      by (symmetry; apply Z.ltb_lt; assumption).
    reflexivity. }
  exists (flat_map (render_row self p1 p2) (seq 0 (row_count len))), k,
    (flat_map (render_row self p1 p2) (seq 0 k)),
    (flat_map (render_row self p1 p2) (seq (S k) (row_count len - S k))).
  split; [reflexivity|]. split; [lia|].
  split; [rewrite cmp_line_count; assumption|].
  assert (Eout : flat_map (render_row self p1 p2) (seq 0 (row_count len))
                 = flat_map (render_row self p1 p2) (seq 0 k)
                   ++ fst (cmp_line self (row_offset k) (row k p1) (row k p2)
                             (byte_count (row k p1)))
                   ++ pr_info self ("Expected:" +s+ NL)
                   :: print_line self (row_offset k) (row k p2)
                        (byte_count (row k p2))
                   ++ flat_map (render_row self p1 p2)
                        (seq (S k) (row_count len - S k))).
  { rewrite Hseq at 1. rewrite flat_map_app. cbn [flat_map].
    rewrite Hrender, <- !app_assoc. reflexivity. }
  split; [exact Eout|]. split.
  - rewrite Hseq at 1. rewrite flat_map_app. cbn [flat_map].
    rewrite !text_of_app, render_row_text by assumption.
    unfold diff_row_text.
    replace (0 <? diff_count (row k p1) (row k p2)) with true
      by (symmetry; apply Z.ltb_lt; assumption).
    rewrite !append_assoc. reflexivity.
  - rewrite Eout. apply in_or_app. right. apply in_or_app. right.
    left. reflexivity.
Qed.

End Program.

Arguments Ret {prng_state A} a g.
Arguments Exit {prng_state A} code g.
Arguments Hang {prng_state A} g.
Arguments Fault {prng_state A} g.
Arguments prng {prng_state} g.
Arguments rx_bytes {prng_state} g.
Arguments tx_bytes {prng_state} g.
Arguments msgs {prng_state} g.
Arguments rx_buf {prng_state} g.
Arguments log {prng_state} g.
Arguments final {prng_state A} r.
Arguments wf {prng_state} g.
Arguments startup {prng_state} prng_static.
Arguments msg_gen {prng_state} brahe_prng_next brahe_prng_range self len g.
Arguments transmit_start {prng_state} strerror cfmakeraw o e m g.
Arguments receive_start {prng_state} brahe_prng_range strerror cfmakeraw
  o e m g.
Arguments device_open {prng_state} strerror cfmakeraw o self e pathname
  flags makeraw g.
Arguments main_loop {prng_state} brahe_prng_next brahe_prng_range strerror
  cfmakeraw o envs g.
Arguments main_run {prng_state} brahe_prng_init brahe_prng_next
  brahe_prng_range strerror cfmakeraw o now envs g.
Arguments main {prng_state} prng_static brahe_prng_init brahe_prng_next
  brahe_prng_range strerror strtoul cfmakeraw progname args now envs.
Arguments loop_entry {prng_state} prng_static brahe_prng_init o now.
Arguments run_draws {prng_state} brahe_prng_next brahe_prng_range k maxlen s.

(** * Concrete runs *)

Lemma sample_init_seeded (seed t1 t2 : Z) :
  seed <> 0 -> Sample.init seed t1 = Sample.init seed t2.
Proof.
  intros H. unfold Sample.init. destruct (Z.eqb_spec seed 0); congruence.
Qed.

Lemma sample_range_ok (s lo hi : Z) :
  0 <= lo <= hi -> hi < 2 ^ 32 ->
  lo <= fst (Sample.range s lo hi) <= hi.
Proof.
  intros H _. unfold Sample.range. cbn [fst].
  pose proof (Z.mod_pos_bound (Sample.step s) (hi - lo + 1) ltac:(lia)). lia.
Qed.

Lemma msg_gen_variable_length_witness :
  1 <= 8 < 2 ^ 31 /\
  exists m g',
    msg_gen Sample.next Sample.range MainThread (- 8) (startup 0)
    = Ret m g' /\ 1 <= msg_len m <= 8 /\
    byte_count (msg_buf m) = msg_len m.
Proof.
  split; [lia|].
  destruct (msg_gen_variable_length Z Sample.next Sample.range sample_range_ok
              MainThread 8 (startup 0) ltac:(lia))
    as (g' & _ & E & Hlen & Hbytes & _).
  eexists. exists g'. split; [exact E|]. split; assumption.
Defined.

Lemma cmp_buffer_renders_rows_witness :
  let b1 := map byte_of_Z [65; 66; 67] in
  let b2 := map byte_of_Z [65; 0; 67] in
  let blank := "                                       "%string in
  List.length b1 = List.length b2 /\ byte_count b1 <= 2 ^ 32 - 16 /\
  option_map snd (cmp_buffer_rows RxThread b1 b2 (byte_count b1)) = Some [1]
  /\ option_map (fun r => text_of (fst r))
       (cmp_buffer_rows RxThread b1 b2 (byte_count b1))
     = Some (TAG_RX +s+ "0000:" +s+ ESC_RM +s+
             " 41 " +s+ ESC_RED +s+ "42" +s+ ESC_RM +s+ " 43" +s+ blank +s+
             " |A" +s+ ESC_RED +s+ "B" +s+ ESC_RM +s+ "C|" +s+ NL +s+
             TAG_RX +s+ "Expected:" +s+ NL +s+ ESC_RM +s+
             TAG_RX +s+ "0000:" +s+ ESC_RM +s+
             " 41 00 43" +s+ blank +s+ " |A.C|" +s+ NL).
Proof.
  cbv zeta. split; [reflexivity|]. split; [vm_compute; discriminate|].
  destruct (cmp_buffer_renders_rows RxThread
              (map byte_of_Z [65; 66; 67]) (map byte_of_Z [65; 0; 67])
              eq_refl ltac:(vm_compute; discriminate)) as (E & T & _).
  split.
  - rewrite E. reflexivity.
  - rewrite T. vm_compute. reflexivity.
Defined.

Lemma mismatch_iff_row_counts_witness :
  let b1 := map byte_of_Z [65; 66; 67] in
  let b2 := map byte_of_Z [65; 0; 67] in
  0 <= 3 <= 2 ^ 32 - 16 /\
  (Z.to_nat 3 <= List.length b1)%nat /\ (Z.to_nat 3 <= List.length b2)%nat /\
  exists out counts,
    cmp_buffer_rows RxThread b1 b2 3 = Some (out, counts) /\
    (memcmp b1 b2 (Z.to_nat 3) <> 0 <-> 0 < sum counts).
Proof.
  cbv zeta. split; [lia|]. split; [cbn; lia|]. split; [cbn; lia|].
  apply (mismatch_iff_row_counts RxThread); [lia | cbn; lia | cbn; lia].
Defined.

Lemma sample_wf (s : Z) : wf (startup s).
Proof.
  unfold wf, startup. cbn [rx_bytes tx_bytes msgs rx_buf].
  rewrite repeat_length. repeat split; try lia.
Qed.

Lemma sample_msg2_wf : msg_wf Sample.msg2.
Proof. unfold msg_wf, Sample.msg2. cbn. split; [lia | reflexivity]. Qed.

Lemma sample_msg7_wf : msg_wf Sample.msg7.
Proof. unfold msg_wf, Sample.msg7. cbn. split; [lia | reflexivity]. Qed.

Lemma sample_opts_ok : opts_ok Sample.opts.
Proof. unfold opts_ok, Sample.opts, MAX_MAX_MSG_LEN. cbn. lia. Qed.

(** A device that takes one byte per write: the two answers add up to the
    two bytes of the message, yet transmit_start stops after the first
    write, with one byte counted, and ends the process. *)
Lemma transmit_short_write_counterexample :
  1 + 1 = msg_len Sample.msg2 /\
  (exists g',
      transmit_start Sample.strerror Sample.cfmakeraw Sample.opts
        Sample.tx_bytewise Sample.msg2 (startup (prng_state := Z) 0)
      = Exit (-1) g' /\ tx_bytes g' = 1) /\
  ~ (exists g',
        transmit_start Sample.strerror Sample.cfmakeraw Sample.opts
          Sample.tx_bytewise Sample.msg2 (startup (prng_state := Z) 0)
        = Ret tt g').
Proof.
  split; [reflexivity|]. split.
  - eexists. split; [vm_compute; reflexivity | reflexivity].
  - intros (g' & H). vm_compute in H. discriminate.
Qed.

Lemma transmit_start_single_write_witness :
  msg_wf Sample.msg2 /\ msg_len Sample.msg2 <= MAX_MAX_MSG_LEN /\
  dev_ok Sample.opts (tx_dev Sample.tx_bytewise) = true /\
  exists out dump,
    all_stdout out /\ all_stdout dump /\
    transmit_start Sample.strerror Sample.cfmakeraw Sample.opts
      Sample.tx_bytewise Sample.msg2 (startup (prng_state := Z) 0)
    = Exit (-1)
        (add_log Z [pr_error TxThread
                      ("Short write " +s+ fmt_d 1 +s+ " < " +s+ fmt_u 2 +s+ NL)]
           (set_tx_bytes Z (u64 (0 + 1))
              (add_log Z (out ++ dump ++ [EvWrite 2 1]) (startup 0)))).
Proof.
  split; [exact sample_msg2_wf|]. split; [vm_compute; discriminate|].
  split; [reflexivity|].
  destruct (transmit_start_single_write Z Sample.strerror Sample.cfmakeraw
              Sample.opts Sample.tx_bytewise Sample.msg2 (startup 0)
              sample_msg2_wf ltac:(vm_compute; discriminate) eq_refl)
    as (fd & out & dump & _ & _ & Ho & Hd & _ & E).
  exists out, dump. split; [exact Ho|]. split; [exact Hd | exact E].
Defined.

(** A failed write: the process ends after the error line; the trace has
    no statistics line. *)
Lemma write_error_without_statistics_counterexample :
  exists g',
    transmit_start Sample.strerror Sample.cfmakeraw Sample.opts
      Sample.tx_failing Sample.msg2 (startup (prng_state := Z) 0)
    = Exit (-1) g' /\
    log g' = [EvWrite 2 (-1);
              pr_error TxThread ("Write error " +s+ fmt_d 5 +s+ NL)] /\
    forall self n tx rx, ~ In (pr_warn self (stats_line n tx rx)) (log g').
Proof.
  eexists. split; [vm_compute; reflexivity|]. split; [reflexivity|].
  intros self n tx rx [H | [H | []]]; discriminate H.
Qed.

Lemma fatal_exit_diagnostics_witness :
  wf (startup (prng_state := Z) 0) /\ msg_wf Sample.msg2 /\
  1 <= msg_len Sample.msg2 <= MAX_MAX_MSG_LEN /\
  dev_ok Sample.opts (tx_dev Sample.tx_failing) = true /\
  exists pre,
    all_stdout pre /\
    transmit_start Sample.strerror Sample.cfmakeraw Sample.opts
      Sample.tx_failing Sample.msg2 (startup (prng_state := Z) 0)
    = Exit (-1)
        (add_log Z
           (pre ++ [EvWrite 2 (-1);
                    pr_error TxThread ("Write error " +s+ fmt_d 5 +s+ NL)])
           (startup 0)).
Proof.
  split; [apply sample_wf|]. split; [exact sample_msg2_wf|].
  split; [vm_compute; split; discriminate|]. split; [reflexivity|].
  exact (proj1 (proj2 (proj2
           (fatal_exit_diagnostics Z Sample.range Sample.strerror
              Sample.cfmakeraw sample_range_ok Sample.opts Sample.msg2
              (startup 0) (sample_wf 0) sample_msg2_wf
              ltac:(vm_compute; split; discriminate))))
           Sample.tx_failing 5 [] eq_refl eq_refl).
Defined.

Lemma receive_start_truncated_read_witness :
  wf (startup Sample.built) /\ msg_wf Sample.msg7 /\
  1 <= msg_len Sample.msg7 <= MAX_MAX_MSG_LEN /\
  byte_count (List.concat Sample.echo_chunks)
  = fst (Sample.range Sample.built 1 (msg_len Sample.msg7)) /\
  exists new,
    log (final (receive_start Sample.range Sample.strerror Sample.cfmakeraw
                  Sample.opts (Sample.rx_chunks Sample.echo_chunks)
                  Sample.msg7 (startup Sample.built)))
    = log (startup Sample.built) ++ new /\
    draws new = [(RxThread, DrawRange 1 7 4)] /\
    reads_from 4 0 new /\ bytes_read new = 4.
Proof.
  split; [apply sample_wf|]. split; [exact sample_msg7_wf|].
  split; [vm_compute; split; discriminate|]. split; [reflexivity|].
  destruct (proj2 (proj2 (receive_start_truncated_read Z Sample.range
                            Sample.strerror Sample.cfmakeraw sample_range_ok
                            Sample.opts Sample.msg7 (startup Sample.built)
                            (sample_wf _) sample_msg7_wf
                            ltac:(vm_compute; split; discriminate)))
              (Sample.rx_chunks Sample.echo_chunks) 3 _ Sample.echo_chunks
              ltac:(vm_compute; reflexivity) eq_refl eq_refl)
    as (new & Hl & Hd & Hr & Hb & _).
  exists new. split; [exact Hl|]. split; [exact Hd|]. split; [exact Hr|].
  exact Hb.
Defined.

Lemma generated_sequence_deterministic_witness :
  opts_ok Sample.opts /\ opt_seed Sample.opts <> 0 /\
  draws (log (final (main_run Sample.init Sample.next Sample.range
                       Sample.strerror Sample.cfmakeraw Sample.opts
                       Sample.clock' [Sample.round_tx_first] (startup 0))))
  = draws (log (final (main_run Sample.init Sample.next Sample.range
                         Sample.strerror Sample.cfmakeraw Sample.opts
                         Sample.clock [Sample.round_ok] (startup 0)))).
Proof.
  split; [exact sample_opts_ok|]. split; [discriminate|].
  assert (H1 : exists g1,
             main_run Sample.init Sample.next Sample.range Sample.strerror
               Sample.cfmakeraw Sample.opts Sample.clock [Sample.round_ok]
               (startup 0) = Exit 0 g1).
  { eexists. vm_compute. reflexivity. }
  assert (H2 : exists g2,
             main_run Sample.init Sample.next Sample.range Sample.strerror
               Sample.cfmakeraw Sample.opts Sample.clock'
               [Sample.round_tx_first] (startup 0) = Exit 0 g2).
  { eexists. vm_compute. reflexivity. }
  destruct H1 as (g1 & H1). destruct H2 as (g2 & H2).
  exact (proj2 (proj2 (proj2 (proj2 (proj2 (proj2
           (generated_sequence_deterministic Z 0 Sample.init Sample.next
              Sample.range Sample.strerror Sample.cfmakeraw sample_range_ok
              sample_init_seeded Sample.opts Sample.clock Sample.clock'
              [Sample.round_ok] [Sample.round_tx_first] sample_opts_ok
              ltac:(discriminate)))))) g1 g2 H1 H2)).
Defined.

Lemma statistics_accuracy_witness :
  opts_ok Sample.opts /\
  exists g',
    main_loop Sample.next Sample.range Sample.strerror Sample.cfmakeraw
      Sample.opts [Sample.round_ok]
      (loop_entry 0 Sample.init Sample.opts Sample.clock)
    = Ret tt g' /\
    tx_bytes g' = sum (msg_lengths (log g')) /\
    rx_bytes g' = sum (trunc_lengths (log g')) /\
    tx_bytes g' = 7 /\ rx_bytes g' = 4.
Proof.
  split; [exact sample_opts_ok|].
  eexists. split; [vm_compute; reflexivity|].
  destruct (proj2 (statistics_accuracy Z 0 Sample.init Sample.next
                     Sample.range Sample.strerror Sample.cfmakeraw
                     sample_range_ok Sample.opts sample_opts_ok)
              Sample.clock [Sample.round_ok] _ ltac:(vm_compute; reflexivity))
    as (_ & _ & _ & Htx & Hrx & _).
  split; [exact Htx|]. split; [exact Hrx|]. split; reflexivity.
Defined.

Lemma exit_code_zero_iff_completed_witness :
  (exists g',
      main 0 Sample.init Sample.next Sample.range Sample.strerror
        Sample.strtoul Sample.cfmakeraw "fifotest" Sample.args Sample.clock
        [Sample.round_ok]
      = Exit 0 g' /\ msgs g' = 1) /\
  fatal_cause Z Sample.next Sample.range Sample.opts
    (Sample.init 1 Sample.clock) Sample.round_mismatch /\
  (exists g',
      main 0 Sample.init Sample.next Sample.range Sample.strerror
        Sample.strtoul Sample.cfmakeraw "fifotest" Sample.args Sample.clock
        [Sample.round_mismatch]
      = Exit (-1) g').
Proof.
  assert (Hparse : parse_args Sample.strtoul Sample.args default_options
                   = Some Sample.opts) by (vm_compute; reflexivity).
  assert (Hcause : fatal_cause Z Sample.next Sample.range Sample.opts
                     (Sample.init 1 Sample.clock) Sample.round_mismatch).
  { apply (CauseMismatch Z Sample.next Sample.range Sample.opts _
             Sample.round_mismatch [map byte_of_Z [231; 148; 61; 51]]).
    - reflexivity.
    - reflexivity.
    - vm_compute. reflexivity.
    - intros H. vm_compute in H. discriminate H. }
  assert (Hclean : clean_run Z Sample.next Sample.range Sample.opts
                     (Z.to_nat (opt_nmsgs Sample.opts))
                     (Sample.init (opt_seed Sample.opts) Sample.clock)
                     [Sample.round_ok]).
  { change (Z.to_nat (opt_nmsgs Sample.opts)) with 1%nat.
    cbn [clean_run]. split; [|exact I].
    split; [reflexivity|]. split; [reflexivity|]. split; [reflexivity|].
    split.
    - exists 4096%N, []. split; [reflexivity|]. vm_compute. discriminate.
    - exists Sample.echo_chunks. split; [reflexivity|].
      vm_compute. reflexivity. }
  split; [|split; [exact Hcause|]].
  - pose proof (exit_code_zero_iff_completed Z 0 Sample.init Sample.next
                  Sample.range Sample.strerror Sample.strtoul
                  Sample.cfmakeraw sample_range_ok "fifotest" Sample.args
                  Sample.clock [Sample.round_ok]) as H.
    apply proj2, proj2, proj2 in H.
    exact (H Sample.opts "rx"%string Hparse eq_refl eq_refl Hclean).
  - pose proof (exit_code_zero_iff_completed Z 0 Sample.init Sample.next
                  Sample.range Sample.strerror Sample.strtoul
                  Sample.cfmakeraw sample_range_ok "fifotest" Sample.args
                  Sample.clock [Sample.round_mismatch]) as H.
    apply proj2, proj2, proj1 in H.
    assert (Hmore : opt_nmsgs Sample.opts = 0
                    \/ msgs (loop_entry 0 Sample.init Sample.opts
                               Sample.clock) < opt_nmsgs Sample.opts)
      by (right; reflexivity).
    destruct (H Sample.opts "rx"%string [] Sample.round_mismatch []
                (loop_entry 0 Sample.init Sample.opts Sample.clock)
                Hparse eq_refl eq_refl eq_refl Hmore Hcause)
      as (g' & E & _).
    exists g'. exact E.
Defined.

Lemma receive_buffer_in_bounds_witness :
  Forall read_in_bounds
    (log (final (main 0 Sample.init Sample.next Sample.range Sample.strerror
                   Sample.strtoul Sample.cfmakeraw "fifotest" Sample.args
                   Sample.clock [Sample.round_ok]))).
Proof.
  exact (proj2 (proj2
           (receive_buffer_in_bounds Z 0 Sample.init Sample.next Sample.range
              Sample.strerror Sample.strtoul Sample.cfmakeraw sample_range_ok
              "fifotest" Sample.args Sample.clock [Sample.round_ok]))).
Defined.

(** * Further concrete runs *)

Arguments usage_exit {prng_state} prng_static progname.
Arguments counters_match {prng_state} g.
Arguments msg_dump {prng_state} self m g.
Arguments round {prng_state} brahe_prng_next brahe_prng_range strerror
  cfmakeraw o e g.

Lemma print_line_layout_witness :
  exists hex,
    text_of (print_line MainThread 16 (map byte_of_Z [72; 105; 0]) 3)
    = thread_prefix MainThread +s+ "0010" +s+ ":" +s+ ESC_RM +s+ hex +s+
      " |" +s+ "Hi." +s+ "|" +s+ NL
    /\ String.length hex = 48%nat.
Proof.
  destruct (print_line_layout MainThread 16 (map byte_of_Z [72; 105; 0]) 3
              ltac:(lia) ltac:(lia)) as (hex & E & _ & L & _ & _).
  exists hex. split; [exact E | exact L].
Defined.

Lemma cmp_buffer_of_equal_buffers_witness :
  cmp_buffer RxThread (map byte_of_Z [65; 66; 67]) (map byte_of_Z [65; 66; 0])
    2
  = print_buffer RxThread (map byte_of_Z [65; 66; 67]) 2.
Proof.
  apply cmp_buffer_of_equal_buffers; [lia|].
  intros j Hj. assert (Hc : j = 0 \/ j = 1) by lia.
  destruct Hc as [-> | ->]; reflexivity.
Defined.

Lemma print_buffer_renders_rows_witness :
  print_buffer MainThread Sample.bytes20 20
  = Some (dump_row MainThread Sample.bytes20 0
            ++ dump_row MainThread Sample.bytes20 1)
  /\ byte_count (row 1 Sample.bytes20) = 4.
Proof.
  destruct (print_buffer_renders_rows MainThread Sample.bytes20 20
              ltac:(lia) ltac:(cbn; lia)) as (E & Hrow & _).
  split.
  - rewrite E. cbn [Z.to_nat]. rewrite firstn_all2 by (cbn; lia).
    change (row_count 20) with 2%nat. cbn [seq flat_map].
    rewrite app_nil_r. reflexivity.
  - reflexivity.
Defined.

Lemma row_loops_never_end_witness :
  print_buffer_from 1000 MainThread [] (2 ^ 32 - 1) 0 = None.
Proof.
  exact (proj1 (row_loops_never_end MainThread [] [] (2 ^ 32 - 1)
                  ltac:(lia) 1000%nat)).
Defined.

Lemma msg_dump_prints_message_witness :
  msg_dump TxThread Sample.msg2 (startup (prng_state := Z) 0)
  = Ret tt
      (add_log Z
         (pr_info TxThread ("Message with " +s+ fmt_u 2 +s+
                            " bytes of data" +s+ NL)
            :: dump_row TxThread (msg_buf Sample.msg2) 0) (startup 0)).
Proof.
  rewrite (msg_dump_prints_message Z TxThread Sample.msg2 (startup 0)
             sample_msg2_wf ltac:(vm_compute; discriminate)).
  change (row_count (msg_len Sample.msg2)) with 1%nat. cbn [seq flat_map].
  rewrite app_nil_r. reflexivity.
Defined.

Lemma msg_gen_fixed_length_witness :
  exists buf g',
    msg_gen Sample.next Sample.range MainThread 3 (startup 1)
    = Ret {| msg_len := 3; msg_buf := buf |} g' /\
    byte_count buf = 3.
Proof.
  destruct (msg_gen_fixed_length Z Sample.next Sample.range MainThread 3
              (startup 1) ltac:(lia)) as (E & L & _).
  eexists _, _. split; [exact E | exact L].
Defined.

Lemma device_open_checks_speed_witness :
  exists pre,
    device_open Sample.strerror Sample.cfmakeraw Sample.opts_speed TxThread
      Sample.tty (Some "tx"%string) O_WRONLY true (startup (prng_state := Z) 0)
    = Exit (-1)
        (add_log Z
           (pre ++ [pr_error TxThread ("Unknown serial speed " +s+
                                       fmt_u 12345 +s+ NL)]) (startup 0)).
Proof.
  destruct (proj1 (proj2
              (device_open_checks_speed Z Sample.strerror Sample.cfmakeraw
                 Sample.opts_speed TxThread Sample.tty (Some "tx"%string)
                 O_WRONLY (startup 0) 4 eq_refl))
              _ eq_refl eq_refl ltac:(vm_compute; discriminate)
              ltac:(unfold known_speed, speeds; cbn [map snd In
                                                      Sample.opts_speed
                                                      opt_speed]; lia))
    as (pre & _ & E).
  exists pre. exact E.
Defined.

Lemma parse_args_left_to_right_witness :
  parse_args Sample.strtoul
    (List.app ["-n"; "1"; "tx"]%string ["rx"; "-v"]%string) default_options
  = parse_args Sample.strtoul ["rx"; "-v"]%string
      (set_txdev "tx" (set_nmsgs 1 default_options)).
Proof.
  apply parse_args_left_to_right. reflexivity.
Defined.

Lemma main_devices_set_witness :
  exists tx, opt_txdev Sample.opts = Some tx.
Proof.
  apply (main_devices_set Sample.strtoul Sample.args Sample.opts "rx");
    [vm_compute; reflexivity | reflexivity].
Defined.

Lemma usage_on_missing_value_witness :
  main 0 Sample.init Sample.next Sample.range Sample.strerror Sample.strtoul
    Sample.cfmakeraw "fifotest"
    (List.app ["tx"; "rx"]%string ["-n"]%string) Sample.clock
    [Sample.round_ok]
  = usage_exit 0 "fifotest".
Proof.
  apply (usage_on_missing_value Z 0 Sample.init Sample.next Sample.range
           Sample.strerror Sample.strtoul Sample.cfmakeraw "fifotest"
           ["tx"; "rx"]%string "-n"
           (set_rxdev "rx" (set_txdev "tx" default_options)));
    [reflexivity | unfold value_options; cbn [In]; tauto].
Defined.

Lemma length_option_range_witness :
  main 0 Sample.init Sample.next Sample.range Sample.strerror Sample.strtoul
    Sample.cfmakeraw "fifotest"
    (List.app [] ["-l"; "5000"; "tx"; "rx"]%string)
    Sample.clock [Sample.round_ok]
  = usage_exit 0 "fifotest".
Proof.
  apply (proj1 (length_option_range Z 0 Sample.init Sample.next Sample.range
                  Sample.strerror Sample.strtoul Sample.cfmakeraw "fifotest"
                  [] ["tx"; "rx"]%string "-l" "5000" default_options
                  Sample.clock [Sample.round_ok] eq_refl
                  (or_introl eq_refl))).
  right. vm_compute. reflexivity.
Defined.

Lemma usage_on_help_or_extra_argument_witness :
  main 0 Sample.init Sample.next Sample.range Sample.strerror Sample.strtoul
    Sample.cfmakeraw "fifotest"
    (List.app ["tx"; "rx"]%string ["more"; "-v"]%string)
    Sample.clock [Sample.round_ok]
  = usage_exit 0 "fifotest".
Proof.
  apply (usage_on_help_or_extra_argument Z 0 Sample.init Sample.next
           Sample.range Sample.strerror Sample.strtoul Sample.cfmakeraw
           "fifotest" ["tx"; "rx"]%string ["-v"]%string "more"
           (set_rxdev "rx" (set_txdev "tx" default_options)));
    [reflexivity|].
  right. right. split; [discriminate|].
  unfold option_strings, value_options. cbn [List.app In].
  intros H.
  repeat (destruct H as [H | H]; [discriminate H|]). contradiction.
Defined.

Lemma exit_code_one_is_usage_witness :
  main 0 Sample.init Sample.next Sample.range Sample.strerror Sample.strtoul
    Sample.cfmakeraw "fifotest" ["-v"; "tx"]%string Sample.clock
    [Sample.round_ok]
  = usage_exit 0 "fifotest".
Proof.
  apply (proj1 (exit_code_one_is_usage Z 0 Sample.init Sample.next
                  Sample.range Sample.strerror Sample.strtoul
                  Sample.cfmakeraw sample_range_ok "fifotest"
                  ["-v"; "tx"]%string Sample.clock [Sample.round_ok])).
  right. eexists. split; reflexivity.
Defined.


Lemma interrupt_ends_round_witness :
  exists g',
    round Sample.next Sample.range Sample.strerror Sample.cfmakeraw
      Sample.opts Sample.round_interrupted (startup 1)
    = Exit (-1) g' /\ msgs g' = 0.
Proof.
  destruct (interrupt_ends_round Z Sample.next Sample.range Sample.strerror
              Sample.cfmakeraw sample_range_ok Sample.opts
              Sample.round_interrupted (startup 1) SigSpawn (sample_wf 1)
              ltac:(vm_compute; split; discriminate) eq_refl)
    as (g' & E & Hm & _).
  exists g'. split; [exact E | exact Hm].
Defined.

Lemma counters_match_transfers_witness :
  exists g',
    main 0 Sample.init Sample.next Sample.range Sample.strerror
      Sample.strtoul Sample.cfmakeraw "fifotest" Sample.args Sample.clock
      [Sample.round_ok]
    = Exit 0 g' /\
    counters_match g'.
Proof.
  assert (E : exists g',
             main 0 Sample.init Sample.next Sample.range Sample.strerror
               Sample.strtoul Sample.cfmakeraw "fifotest" Sample.args
               Sample.clock [Sample.round_ok]
             = Exit 0 g').
  { eexists. vm_compute. reflexivity. }
  destruct E as (g' & E). exists g'. split; [exact E|].
  exact (counters_match_transfers Z 0 Sample.init Sample.next Sample.range
           Sample.strerror Sample.strtoul Sample.cfmakeraw "fifotest"
           Sample.args Sample.clock [Sample.round_ok] 0 g' E
           ltac:(discriminate)).
Defined.

Lemma receive_spins_at_end_of_file_witness :
  exists g',
    receive_start Sample.range Sample.strerror Sample.cfmakeraw Sample.opts
      Sample.rx_eof Sample.msg7 (startup Sample.built)
    = Hang g' /\
    rx_bytes g' = 0 /\
    reads (log g') = [(0, 4, 0); (0, 4, 0); (0, 4, 0)].
Proof.
  destruct (receive_spins_at_end_of_file Z Sample.range Sample.strerror
              Sample.cfmakeraw sample_range_ok Sample.opts Sample.rx_eof
              Sample.msg7 (startup Sample.built) _ 3 3
              (sample_wf Sample.built) sample_msg7_wf
              ltac:(vm_compute; split; discriminate) eq_refl eq_refl)
    as (g' & E & Hrx & _ & Hreads).
  exists g'. split; [exact E|]. split; [exact Hrx | exact Hreads].
Defined.

Lemma mismatch_report_shows_expected_witness :
  exists out before after,
    cmp_buffer RxThread (map byte_of_Z [65; 66]) (map byte_of_Z [65; 67]) 2
    = Some out /\
    text_of out
    = text_of before +s+
      row_text RxThread 0 (map byte_of_Z [65; 66]) (map byte_of_Z [65; 67])
      +s+ expected_text RxThread 0 (map byte_of_Z [65; 67]) +s+
      text_of after.
Proof.
  destruct (mismatch_report_shows_expected RxThread (map byte_of_Z [65; 66])
              (map byte_of_Z [65; 67]) 2 ltac:(lia) ltac:(cbn; lia)
              ltac:(cbn; lia) ltac:(vm_compute; discriminate))
    as (out & k & before & after & E & Hk & _ & _ & T & _).
  assert (k = 0%nat) by (change (row_count 2) with 1%nat in Hk; lia).
  subst k. exists out, before, after. split; [exact E | exact T].
Defined.
